(** * Kanban board (drag-and-drop): the board state manager of the script

    A shallow embedding of the board script: the four column arrays, the
    list elements that mirror them on the page, the drag state and the
    browser's localStorage, with the script's functions as computations in
    a state-and-exception monad.  The functions keep their names:
    [safeJSONParse], [getSavedColumns], [updateSavedColumns], [filterArray],
    [validateItemText], [createItemEl], [updateDOM], [updateItem],
    [addToColumn], [rebuildArrays], [drag], [drop], [dragEnter].  Module
    [Legacy] has loading and saving as the first version of the script had
    them. *)

From Stdlib Require Import Ascii.
From stdpp Require Import base decidable option list gmap strings.

Open Scope string_scope.
Open Scope list_scope.

#[local] Set Warnings "-register-all".

(** ** Strings

    A JavaScript string is a sequence of UTF-16 code units.  A [string] here
    holds the code units below 256, one per [ascii]; [String.length] is the
    script's [.length]. *)

(** White space and line terminators that [String.prototype.trim] strips,
    among the code units below 256: TAB, LF, VT, FF, CR, SP and NBSP. *)
Definition is_white_space (a : ascii) : bool :=
  match nat_of_ascii a with
  | 9 | 10 | 11 | 12 | 13 | 32 | 160 => true
  | _ => false
  end.

Fixpoint trimStart (s : string) : string :=
  match s with
  | EmptyString => EmptyString
  | String a r => if is_white_space a then trimStart r else s
  end.

Fixpoint trimEnd (s : string) : string :=
  match s with
  | EmptyString => EmptyString
  | String a r =>
      match trimEnd r with
      | EmptyString => if is_white_space a then EmptyString else String a EmptyString
      | r' => String a r'
      end
  end.

(** [text.trim()] *)
Definition trim (s : string) : string := trimEnd (trimStart s).

(** [text.substring(0, n)] *)
Fixpoint substring0 (n : nat) (s : string) : string :=
  match n, s with
  | S m, String a r => String a (substring0 m r)
  | _, _ => EmptyString
  end.

Definition is_empty_string (s : string) : bool :=
  match s with EmptyString => true | _ => false end.

(** ** JSON values and array objects *)

(** What [JSON.parse] can return.  A number is kept as the text that
    [String(n)] gives, the only thing besides its truthiness that the
    script can observe of it.  The slots of an array are optional: [None]
    is a hole, which [delete array[index]] leaves behind. *)
Inductive jsval : Type :=
  | JNull
  | JBool (b : bool)
  | JNum (lit : string)
  | JStr (s : string)
  | JArr (a : list (option jsval))
  | JObj (fields : list (string * jsval)).

Abbreviation jsarray := (list (option jsval)).

(** ToBoolean *)
Definition truthy (v : jsval) : bool :=
  match v with
  | JNull => false
  | JBool b => b
  | JNum lit => negb (String.eqb lit "0" || String.eqb lit "NaN")
  | JStr s => negb (is_empty_string s)
  | JArr _ | JObj _ => true
  end.

(** ToString; an array is joined with commas, its null slots and holes
    giving the empty string. *)
Fixpoint ToString (v : jsval) : string :=
  match v with
  | JNull => "null"
  | JBool true => "true"
  | JBool false => "false"
  | JNum lit => lit
  | JStr s => s
  | JArr a =>
      (fix join (l : jsarray) : string :=
         match l with
         | [] => ""
         | x :: r =>
             let sx := match x with
                       | None | Some JNull => ""
                       | Some w => ToString w
                       end in
             match r with
             | [] => sx
             | _ => sx +:+ "," +:+ join r
             end
         end) a
  | JObj _ => "[object Object]"
  end.

(** The string an element shows after [el.textContent = item]: [null]
    clears the text, any other value is converted with ToString. *)
Definition text_of (item : jsval) : string :=
  match item with
  | JNull => ""
  | _ => ToString item
  end.

(** [item !== null] *)
Definition not_null (item : jsval) : bool :=
  match item with JNull => false | _ => true end.

(** The browser's [JSON] object.  [JSON_parse] is [None] where
    [JSON.parse] throws a SyntaxError. *)
Class JSON : Type := {
  JSON_parse : string -> option jsval;
  JSON_stringify : jsval -> string
}.

(** ** localStorage *)

(** Whether the store can be used: [QuotaExceeded] lets reads through and
    makes every [setItem] throw; [Disabled] makes every access throw. *)
Inductive storage_mode : Type := Available | QuotaExceeded | Disabled.

Record Storage : Type := mkStorage {
  mode : storage_mode;
  items : gmap string string
}.

(** ** Program state *)

Inductive exn : Type := TypeError | SyntaxError | DOMException.

(** A heap location of an array, an index into [heap]. *)
Abbreviation loc := nat.
(** A list element of the page, an index into [nodes]. *)
Abbreviation node := nat.

(** What a script variable holds: a reference to an array object, or a value
    that is not an array. *)
Inductive value : Type :=
  | VRef (l : loc)
  | VJson (v : jsval).

(** An [li] made by [createItemEl]: its text, its [id] attribute and the arguments
    [(index, column)] of the [updateItem] call in its [onfocusout]. *)
Record element : Type := mkElement {
  textContent : string;
  el_id : nat;
  onfocusout : nat * nat
}.

(** The four [ul] lists of the page, by their HTML ids. *)
Inductive ul : Type := backlog_list | progress_list | complete_list | on_hold_list.

(** Modelled from the spec: the page (index.html) is not among the sources.
    Each column exposes one ordered, appendable list container, so
    [listColumns], the [.drag-item-list] elements in document order, is the
    four lists in column order 0..3; likewise there is one [.add-item] box
    per column. *)
Definition listColumns : list ul :=
  [backlog_list; progress_list; complete_list; on_hold_list].

Record State : Type := mkState {
  updatedOnLoad : bool;
  backlogListArray : value;
  progressListArray : value;
  completeListArray : value;
  onHoldListArray : value;
  listArrays : list value;
  draggedItem : option node;
  currentColumn : option nat;
  heap : list jsarray;
  nodes : list element;
  backlogList : list node;
  progressList : list node;
  completeList : list node;
  onHoldList : list node;
  addItems : list string;
  localStorage : Storage;
  alerts : list string;
  console : list string
}.

Definition set_updatedOnLoad (x : bool) (s : State) : State :=
  mkState x (backlogListArray s) (progressListArray s) (completeListArray s)
    (onHoldListArray s) (listArrays s) (draggedItem s) (currentColumn s)
    (heap s) (nodes s) (backlogList s) (progressList s) (completeList s)
    (onHoldList s) (addItems s) (localStorage s) (alerts s) (console s).

Definition set_backlogListArray (x : value) (s : State) : State :=
  mkState (updatedOnLoad s) x (progressListArray s) (completeListArray s)
    (onHoldListArray s) (listArrays s) (draggedItem s) (currentColumn s)
    (heap s) (nodes s) (backlogList s) (progressList s) (completeList s)
    (onHoldList s) (addItems s) (localStorage s) (alerts s) (console s).

Definition set_progressListArray (x : value) (s : State) : State :=
  mkState (updatedOnLoad s) (backlogListArray s) x (completeListArray s)
    (onHoldListArray s) (listArrays s) (draggedItem s) (currentColumn s)
    (heap s) (nodes s) (backlogList s) (progressList s) (completeList s)
    (onHoldList s) (addItems s) (localStorage s) (alerts s) (console s).

Definition set_completeListArray (x : value) (s : State) : State :=
  mkState (updatedOnLoad s) (backlogListArray s) (progressListArray s) x
    (onHoldListArray s) (listArrays s) (draggedItem s) (currentColumn s)
    (heap s) (nodes s) (backlogList s) (progressList s) (completeList s)
    (onHoldList s) (addItems s) (localStorage s) (alerts s) (console s).

Definition set_onHoldListArray (x : value) (s : State) : State :=
  mkState (updatedOnLoad s) (backlogListArray s) (progressListArray s)
    (completeListArray s) x (listArrays s) (draggedItem s) (currentColumn s)
    (heap s) (nodes s) (backlogList s) (progressList s) (completeList s)
    (onHoldList s) (addItems s) (localStorage s) (alerts s) (console s).

Definition set_listArrays (x : list value) (s : State) : State :=
  mkState (updatedOnLoad s) (backlogListArray s) (progressListArray s)
    (completeListArray s) (onHoldListArray s) x (draggedItem s)
    (currentColumn s) (heap s) (nodes s) (backlogList s) (progressList s)
    (completeList s) (onHoldList s) (addItems s) (localStorage s) (alerts s)
    (console s).

Definition set_draggedItem (x : option node) (s : State) : State :=
  mkState (updatedOnLoad s) (backlogListArray s) (progressListArray s)
    (completeListArray s) (onHoldListArray s) (listArrays s) x
    (currentColumn s) (heap s) (nodes s) (backlogList s) (progressList s)
    (completeList s) (onHoldList s) (addItems s) (localStorage s) (alerts s)
    (console s).

Definition set_currentColumn (x : option nat) (s : State) : State :=
  mkState (updatedOnLoad s) (backlogListArray s) (progressListArray s)
    (completeListArray s) (onHoldListArray s) (listArrays s) (draggedItem s) x
    (heap s) (nodes s) (backlogList s) (progressList s) (completeList s)
    (onHoldList s) (addItems s) (localStorage s) (alerts s) (console s).

Definition set_heap (x : list jsarray) (s : State) : State :=
  mkState (updatedOnLoad s) (backlogListArray s) (progressListArray s)
    (completeListArray s) (onHoldListArray s) (listArrays s) (draggedItem s)
    (currentColumn s) x (nodes s) (backlogList s) (progressList s)
    (completeList s) (onHoldList s) (addItems s) (localStorage s) (alerts s)
    (console s).

Definition set_nodes (x : list element) (s : State) : State :=
  mkState (updatedOnLoad s) (backlogListArray s) (progressListArray s)
    (completeListArray s) (onHoldListArray s) (listArrays s) (draggedItem s)
    (currentColumn s) (heap s) x (backlogList s) (progressList s)
    (completeList s) (onHoldList s) (addItems s) (localStorage s) (alerts s)
    (console s).

Definition set_backlogList (x : list node) (s : State) : State :=
  mkState (updatedOnLoad s) (backlogListArray s) (progressListArray s)
    (completeListArray s) (onHoldListArray s) (listArrays s) (draggedItem s)
    (currentColumn s) (heap s) (nodes s) x (progressList s) (completeList s)
    (onHoldList s) (addItems s) (localStorage s) (alerts s) (console s).

Definition set_progressList (x : list node) (s : State) : State :=
  mkState (updatedOnLoad s) (backlogListArray s) (progressListArray s)
    (completeListArray s) (onHoldListArray s) (listArrays s) (draggedItem s)
    (currentColumn s) (heap s) (nodes s) (backlogList s) x (completeList s)
    (onHoldList s) (addItems s) (localStorage s) (alerts s) (console s).

Definition set_completeList (x : list node) (s : State) : State :=
  mkState (updatedOnLoad s) (backlogListArray s) (progressListArray s)
    (completeListArray s) (onHoldListArray s) (listArrays s) (draggedItem s)
    (currentColumn s) (heap s) (nodes s) (backlogList s) (progressList s) x
    (onHoldList s) (addItems s) (localStorage s) (alerts s) (console s).

Definition set_onHoldList (x : list node) (s : State) : State :=
  mkState (updatedOnLoad s) (backlogListArray s) (progressListArray s)
    (completeListArray s) (onHoldListArray s) (listArrays s) (draggedItem s)
    (currentColumn s) (heap s) (nodes s) (backlogList s) (progressList s)
    (completeList s) x (addItems s) (localStorage s) (alerts s) (console s).

Definition set_addItems (x : list string) (s : State) : State :=
  mkState (updatedOnLoad s) (backlogListArray s) (progressListArray s)
    (completeListArray s) (onHoldListArray s) (listArrays s) (draggedItem s)
    (currentColumn s) (heap s) (nodes s) (backlogList s) (progressList s)
    (completeList s) (onHoldList s) x (localStorage s) (alerts s) (console s).

Definition set_localStorage (x : Storage) (s : State) : State :=
  mkState (updatedOnLoad s) (backlogListArray s) (progressListArray s)
    (completeListArray s) (onHoldListArray s) (listArrays s) (draggedItem s)
    (currentColumn s) (heap s) (nodes s) (backlogList s) (progressList s)
    (completeList s) (onHoldList s) (addItems s) x (alerts s) (console s).

Definition set_alerts (x : list string) (s : State) : State :=
  mkState (updatedOnLoad s) (backlogListArray s) (progressListArray s)
    (completeListArray s) (onHoldListArray s) (listArrays s) (draggedItem s)
    (currentColumn s) (heap s) (nodes s) (backlogList s) (progressList s)
    (completeList s) (onHoldList s) (addItems s) (localStorage s) x
    (console s).

Definition set_console (x : list string) (s : State) : State :=
  mkState (updatedOnLoad s) (backlogListArray s) (progressListArray s)
    (completeListArray s) (onHoldListArray s) (listArrays s) (draggedItem s)
    (currentColumn s) (heap s) (nodes s) (backlogList s) (progressList s)
    (completeList s) (onHoldList s) (addItems s) (localStorage s) (alerts s) x.

(** ** The monad of the script: state and exceptions *)

Inductive result (A : Type) : Type :=
  | Ok (a : A) (s : State)
  | Throw (e : exn) (s : State).
Arguments Ok {A} a s.
Arguments Throw {A} e s.

Definition M (A : Type) : Type := State -> result A.

Definition ret {A : Type} (a : A) : M A := fun s => Ok a s.

Definition bind {A B : Type} (m : M A) (f : A -> M B) : M B :=
  fun s =>
    match m s with
    | Ok a s' => f a s'
    | Throw e s' => Throw e s'
    end.

Definition throw {A : Type} (e : exn) : M A := fun s => Throw e s.

(** [try { m } catch (e) { h e }] *)
Definition try_catch {A : Type} (m : M A) (h : exn -> M A) : M A :=
  fun s =>
    match m s with
    | Ok a s' => Ok a s'
    | Throw e s' => h e s'
    end.

Definition gets {A : Type} (f : State -> A) : M A := fun s => Ok (f s) s.

Definition modify (f : State -> State) : M unit := fun s => Ok tt (f s).

Declare Scope js_scope.
Delimit Scope js_scope with js.
Notation "x <- m ;; k" := (bind m (fun x => k))
  (at level 100, m at level 99, k at level 200, right associativity) : js_scope.
Notation "m ;; k" := (bind m (fun _ => k))
  (at level 100, k at level 200, right associativity) : js_scope.
Open Scope js_scope.

(** The state a handler leaves behind, whether it returned or threw. *)
Definition state_of {A : Type} (r : result A) : State :=
  match r with
  | Ok _ s => s
  | Throw _ s => s
  end.

(** ** The platform: console, alert, localStorage, arrays, elements *)

Definition console_error (msg : string) : M unit :=
  modify (fun s => set_console (console s ++ [msg]) s).

Definition alert (msg : string) : M unit :=
  modify (fun s => set_alerts (alerts s ++ [msg]) s).

(** [localStorage.getItem(key)], and equally the property read
    [localStorage.key]: [None] stands for the [null] of the first and the
    [undefined] of the second. *)
Definition getItem (key : string) : M (option string) :=
  fun s =>
    match mode (localStorage s) with
    | Disabled => Throw DOMException s
    | _ => Ok (items (localStorage s) !! key) s
    end.

(** [localStorage.setItem(key, data)] *)
Definition setItem (key data : string) : M unit :=
  fun s =>
    match mode (localStorage s) with
    | Available =>
        Ok tt (set_localStorage
                 (mkStorage Available (<[key := data]> (items (localStorage s)))) s)
    | _ => Throw DOMException s
    end.

(** A new array object with the given slots. *)
Definition new_array (a : jsarray) : M value :=
  fun s => Ok (VRef (length (heap s))) (set_heap (heap s ++ [a]) s).

(** The JSON value of what a variable holds. *)
Definition json_of (v : value) (s : State) : jsval :=
  match v with
  | VRef l => JArr (default [] (heap s !! l))
  | VJson j => j
  end.

(** The run-time value of a freshly parsed JSON value: an array becomes a
    new array object. *)
Definition value_of (j : jsval) : M value :=
  match j with
  | JArr a => new_array a
  | _ => ret (VJson j)
  end.

(** [array.forEach((item, index) => f item index)]: holes are not visited.
    A value that is not an array has no [forEach]. *)
Fixpoint forEach_from (a : jsarray) (index : nat) (f : jsval -> nat -> M unit)
  : M unit :=
  match a with
  | [] => ret tt
  | None :: r => forEach_from r (S index) f
  | Some item :: r => f item index ;; forEach_from r (S index) f
  end.

Definition forEach (array : value) (f : jsval -> nat -> M unit) : M unit :=
  fun s =>
    match array with
    | VRef l =>
        match heap s !! l with
        | Some a => forEach_from a 0 f s
        | None => Throw TypeError s
        end
    | VJson _ => Throw TypeError s
    end.

(** The slots that [array.filter(item => item !== null)] keeps: holes are
    skipped and the result is dense. *)
Fixpoint filter_not_null (a : jsarray) : jsarray :=
  match a with
  | [] => []
  | None :: r => filter_not_null r
  | Some item :: r =>
      if not_null item then Some item :: filter_not_null r
      else filter_not_null r
  end.

(** A slot that [array.filter(item => item !== null)] keeps: an item that
    is not [null]. *)
Definition is_item (x : option jsval) : Prop :=
  match x with
  | Some item => not_null item = true
  | None => False
  end.

#[global] Instance is_item_dec x : Decision (is_item x).
Proof. destruct x as [item|]; simpl; apply _. Defined.

(** [array.push(item)], where [array] may be [undefined] *)
Definition push (array : option value) (item : jsval) : M unit :=
  fun s =>
    match array with
    | Some (VRef l) =>
        match heap s !! l with
        | Some a => Ok tt (set_heap (<[l := a ++ [Some item]]> (heap s)) s)
        | None => Throw TypeError s
        end
    | _ => Throw TypeError s
    end.

(** [delete array[index]]: the slot becomes a hole, the length stays; on
    [undefined] it throws, on a value without such a property it does
    nothing. *)
Definition delete_at (array : option value) (index : nat) : M unit :=
  fun s =>
    match array with
    | None => Throw TypeError s
    | Some (VRef l) =>
        match heap s !! l with
        | Some a => Ok tt (set_heap (<[l := <[index := None]> a]> (heap s)) s)
        | None => Throw TypeError s
        end
    | Some (VJson _) => Ok tt s
    end.

(** The slots after [array[index] = item]: past the end the array grows,
    with holes up to [index]. *)
Definition store_at (a : jsarray) (index : nat) (item : jsval) : jsarray :=
  if decide (index < length a) then <[index := Some item]> a
  else a ++ replicate (index - length a) None ++ [Some item].

(** [array[index] = item] *)
Definition assign_at (array : option value) (index : nat) (item : jsval) : M unit :=
  fun s =>
    match array with
    | None => Throw TypeError s
    | Some (VRef l) =>
        match heap s !! l with
        | Some a => Ok tt (set_heap (<[l := store_at a index item]> (heap s)) s)
        | None => Throw TypeError s
        end
    | Some (VJson _) => Ok tt s
    end.

(** [columnEl.children] *)
Definition children (columnEl : ul) (s : State) : list node :=
  match columnEl with
  | backlog_list => backlogList s
  | progress_list => progressList s
  | complete_list => completeList s
  | on_hold_list => onHoldList s
  end.

Definition set_children (columnEl : ul) (l : list node) (s : State) : State :=
  match columnEl with
  | backlog_list => set_backlogList l s
  | progress_list => set_progressList l s
  | complete_list => set_completeList l s
  | on_hold_list => set_onHoldList l s
  end.

(** [document.createElement("li")] with its properties set *)
Definition createElement (e : element) : M node :=
  fun s => Ok (length (nodes s)) (set_nodes (nodes s ++ [e]) s).

Definition remove_node (n : node) (l : list node) : list node :=
  filter (fun m => m ≠ n) l.

(** [parent.appendChild(child)]: the child leaves the list it is in, if any,
    and becomes the last child of [parent]. *)
Definition appendChild (parent : ul) (child : node) : M unit :=
  modify (fun s =>
    let s1 := set_backlogList (remove_node child (backlogList s)) s in
    let s2 := set_progressList (remove_node child (progressList s1)) s1 in
    let s3 := set_completeList (remove_node child (completeList s2)) s2 in
    let s4 := set_onHoldList (remove_node child (onHoldList s3)) s3 in
    set_children parent (children parent s4 ++ [child]) s4).

(** [columnEl.textContent = ""]: all children are removed. *)
Definition clear (columnEl : ul) : M unit :=
  modify (set_children columnEl []).

(** [el.textContent] of a node *)
Definition node_text (els : list element) (n : node) : string :=
  default "" (textContent <$> els !! n).

Definition text_at (n : node) (s : State) : string := node_text (nodes s) n.

(** [el.textContent = text] *)
Definition set_text (n : node) (text : string) : M unit :=
  modify (fun s =>
    set_nodes (alter (fun e => mkElement text (el_id e) (onfocusout e)) n (nodes s)) s).

(** [for (const x of l) { f x }], and [l.forEach((x, index) => f x index)]
    on an array literal *)
Fixpoint for_of_from {A : Type} (l : list A) (index : nat) (f : A -> nat -> M unit)
  : M unit :=
  match l with
  | [] => ret tt
  | x :: r => f x index ;; for_of_from r (S index) f
  end.

Definition for_of {A : Type} (l : list A) (f : A -> M unit) : M unit :=
  for_of_from l 0 (fun x _ => f x).

(** ** The script *)

Section Script.

Context `{JSON}.

Definition MAX_CHARS : nat := 100.

(** [safeJSONParse(data)]; [JSON.parse(undefined)] throws a SyntaxError. *)
Definition safeJSONParse (data : option string) : M jsval :=
  try_catch
    (match data with
     | Some text =>
         match JSON_parse text with
         | Some j => ret j
         | None => throw SyntaxError
         end
     | None => throw SyntaxError
     end)
    (fun e => console_error "Error parsing JSON:" ;; ret JNull).

(** [j || []], as a run-time value *)
Definition or_empty (j : jsval) : M value :=
  if truthy j then value_of j else new_array [].

Definition seed_backlog : jsarray :=
  [Some (JStr "Release the course"); Some (JStr "Sit back and relax")].
Definition seed_progress : jsarray :=
  [Some (JStr "Work on projects"); Some (JStr "Listen to music")].
Definition seed_complete : jsarray :=
  [Some (JStr "Being cool"); Some (JStr "Getting stuff done")].
Definition seed_onHold : jsarray :=
  [Some (JStr "Being uncool")].

(** The four assignments of the default arrays. *)
Definition set_defaults : M unit :=
  (a <- new_array seed_backlog ;; modify (set_backlogListArray a)) ;;
  (a <- new_array seed_progress ;; modify (set_progressListArray a)) ;;
  (a <- new_array seed_complete ;; modify (set_completeListArray a)) ;;
  (a <- new_array seed_onHold ;; modify (set_onHoldListArray a)).

(** The test [if (localStorage.getItem("backlogItems"))]: [null] and the
    empty string are falsy. *)
Definition truthy_item (data : option string) : bool :=
  match data with
  | Some text => negb (is_empty_string text)
  | None => false
  end.

Definition getSavedColumns : M unit :=
  try_catch
    (first <- getItem "backlogItems" ;;
     if truthy_item first then
       (data <- getItem "backlogItems" ;; j <- safeJSONParse data ;;
        a <- or_empty j ;; modify (set_backlogListArray a)) ;;
       (data <- getItem "progressItems" ;; j <- safeJSONParse data ;;
        a <- or_empty j ;; modify (set_progressListArray a)) ;;
       (data <- getItem "completeItems" ;; j <- safeJSONParse data ;;
        a <- or_empty j ;; modify (set_completeListArray a)) ;;
       (data <- getItem "onHoldItems" ;; j <- safeJSONParse data ;;
        a <- or_empty j ;; modify (set_onHoldListArray a))
     else set_defaults)
    (fun e => console_error "Error accessing localStorage:" ;; set_defaults).

Definition arrayNames : list string := ["backlog"; "progress"; "complete"; "onHold"].

(** [JSON.stringify(listArrays[index])]; of [undefined] it is [undefined],
    which [setItem] stores as text. *)
Definition stringify_slot (index : nat) (s : State) : string :=
  match listArrays s !! index with
  | Some v => JSON_stringify (json_of v s)
  | None => "undefined"
  end.

Definition updateSavedColumns : M unit :=
  try_catch
    (modify (fun s =>
       set_listArrays [backlogListArray s; progressListArray s;
                       completeListArray s; onHoldListArray s] s) ;;
     for_of_from arrayNames 0 (fun name index =>
       data <- gets (stringify_slot index) ;;
       setItem (name +:+ "Items") data))
    (fun e => console_error "Error saving to localStorage:").

(** [filterArray(array)]: a new array without the null items. *)
Definition filterArray (array : value) : M value :=
  fun s =>
    match array with
    | VRef l =>
        match heap s !! l with
        | Some a => new_array (filter_not_null a) s
        | None => Throw TypeError s
        end
    | VJson _ => Throw TypeError s
    end.

Definition validateItemText (text : string) : M bool :=
  if decide (MAX_CHARS < String.length text) then
    alert "Task text cannot exceed 100 characters" ;; ret false
  else if decide (String.length (trim text) = 0) then ret false
  else ret true.

(** The [input] listener of an item: text beyond the limit is cut. *)
Definition on_input (target : node) : M unit :=
  text <- gets (text_at target) ;;
  if decide (MAX_CHARS < String.length text) then
    set_text target (substring0 MAX_CHARS text) ;;
    alert "Task text cannot exceed 100 characters"
  else ret tt.

(** [createItemEl(columnEl, column, item, index)].  The [dragging] class
    that the element's drag listeners toggle is presentation only. *)
Definition createItemEl (columnEl : ul) (column : nat) (item : jsval) (index : nat)
  : M unit :=
  listEl <- createElement (mkElement (text_of item) index (index, column)) ;;
  appendChild columnEl listEl.

Definition updateDOM : M unit :=
  loaded <- gets updatedOnLoad ;;
  (if loaded then ret tt else getSavedColumns) ;;
  clear backlog_list ;;
  (array <- gets backlogListArray ;;
   forEach array (fun backlogItem index =>
     createItemEl backlog_list 0 backlogItem index)) ;;
  clear progress_list ;;
  (array <- gets progressListArray ;;
   forEach array (fun progressItem index =>
     createItemEl progress_list 1 progressItem index)) ;;
  clear complete_list ;;
  (array <- gets completeListArray ;;
   forEach array (fun completeItem index =>
     createItemEl complete_list 2 completeItem index)) ;;
  clear on_hold_list ;;
  (array <- gets onHoldListArray ;;
   forEach array (fun onHoldItem index =>
     createItemEl on_hold_list 3 onHoldItem index)) ;;
  (array <- gets backlogListArray ;; a <- filterArray array ;;
   modify (set_backlogListArray a)) ;;
  (array <- gets progressListArray ;; a <- filterArray array ;;
   modify (set_progressListArray a)) ;;
  (array <- gets completeListArray ;; a <- filterArray array ;;
   modify (set_completeListArray a)) ;;
  (array <- gets onHoldListArray ;; a <- filterArray array ;;
   modify (set_onHoldListArray a)) ;;
  modify (set_updatedOnLoad true) ;;
  updateSavedColumns.

(** [updateItem(index, column)] *)
Definition updateItem (index column : nat) : M unit :=
  selectedArray <- gets (fun s => listArrays s !! column) ;;
  selectedColumnEl <-
    match listColumns !! column with
    | Some columnEl => gets (children columnEl)
    | None => throw TypeError
    end ;;
  dragged <- gets draggedItem ;;
  if decide (selectedColumnEl !! index = dragged) then ret tt
  else
    match selectedColumnEl !! index with
    | None => throw TypeError
    | Some el =>
        text <- gets (text_at el) ;;
        (if is_empty_string text then delete_at selectedArray index
         else assign_at selectedArray index (JStr text)) ;;
        updateDOM
    end.

Definition set_addItem (column : nat) (text : string) : M unit :=
  modify (fun s => set_addItems (<[column := text]> (addItems s)) s).

(** [addToColumn(column)] *)
Definition addToColumn (column : nat) : M unit :=
  content <- gets (fun s => addItems s !! column) ;;
  match content with
  | None => throw TypeError
  | Some text =>
      let item := trim text in
      valid <- validateItemText item ;;
      if valid then
        array <- gets (fun s => listArrays s !! column) ;;
        push array (JStr item) ;;
        set_addItem column "" ;;
        updateDOM
      else
        set_addItem column "" ;;
        updateDOM
  end.

(** [hideInputBox(column)]; the style changes are presentation only. *)
Definition hideInputBox (column : nat) : M unit :=
  (if decide (column < 4) then ret tt else throw TypeError) ;;
  addToColumn column.

(** [rebuildArrays()] *)
Definition rebuildArrays : M unit :=
  (a <- new_array [] ;; modify (set_backlogListArray a)) ;;
  (a <- new_array [] ;; modify (set_progressListArray a)) ;;
  (a <- new_array [] ;; modify (set_completeListArray a)) ;;
  (a <- new_array [] ;; modify (set_onHoldListArray a)) ;;
  (cs <- gets backlogList ;;
   for_of cs (fun child =>
     array <- gets backlogListArray ;; text <- gets (text_at child) ;;
     push (Some array) (JStr text))) ;;
  (cs <- gets progressList ;;
   for_of cs (fun child =>
     array <- gets progressListArray ;; text <- gets (text_at child) ;;
     push (Some array) (JStr text))) ;;
  (cs <- gets completeList ;;
   for_of cs (fun child =>
     array <- gets completeListArray ;; text <- gets (text_at child) ;;
     push (Some array) (JStr text))) ;;
  (cs <- gets onHoldList ;;
   for_of cs (fun child =>
     array <- gets onHoldListArray ;; text <- gets (text_at child) ;;
     push (Some array) (JStr text))) ;;
  updateDOM.

(** [drag(e)], with [target] for [e.target] *)
Definition drag (target : node) : M unit :=
  modify (set_draggedItem (Some target)).

(** [dragEnter(column)]; the [over] class is presentation only. *)
Definition dragEnter (column : nat) : M unit :=
  match listColumns !! column with
  | Some _ => modify (set_currentColumn (Some column))
  | None => throw TypeError
  end.

(** [drop(e)] *)
Definition drop : M unit :=
  column <- gets currentColumn ;;
  match column ≫= (fun c => listColumns !! c) with
  | None => throw TypeError
  | Some parent =>
      dragged <- gets draggedItem ;;
      match dragged with
      | None => throw TypeError
      | Some el => appendChild parent el ;; rebuildArrays
      end
  end.

(** ** The public operations of the board *)

(** The state of a freshly opened page: the declarations at the top of the
    script, an empty page and empty input boxes. *)
Definition initial (storage : Storage) : State :=
  mkState false (VRef 0) (VRef 1) (VRef 2) (VRef 3) [] None None
    [[]; []; []; []] [] [] [] [] [] [""; ""; ""; ""] storage [] [].

(** [load()] and [save(board)] *)
Definition load : M unit := getSavedColumns.
Definition save : M unit := updateSavedColumns.

(** [addItem(column, text)]: the text is typed into the column's input box
    and the save button is pressed. *)
Definition addItem (column : nat) (text : string) : M unit :=
  set_addItem column text ;; hideInputBox column.

(** [editItem(column, index, newText)]: the item at position [index] of the
    column's list gets the text [newText], and [updateItem(index, column)]
    is called. *)
Definition editItem (column index : nat) (newText : string) : M unit :=
  (cs <- gets (fun s => (fun columnEl => children columnEl s) <$> listColumns !! column) ;;
   match cs ≫= (fun l => l !! index) with
   | Some el => set_text el newText
   | None => ret tt
   end) ;;
  updateItem index column.

(** In the browser [updateItem] is called by the [focusout] of an item,
    with the arguments that [createItemEl] wrote into its [onfocusout]
    attribute: the index is the one the item had in its array when it was
    rendered, before [filterArray] ran. *)
Definition focusout (el : node) : M unit :=
  target <- gets (fun s => nodes s !! el) ;;
  match target with
  | Some e => updateItem (fst (onfocusout e)) (snd (onfocusout e))
  | None => ret tt
  end.

(** The user types [newText] into an item, which then loses focus. *)
Definition retype (el : node) (newText : string) : M unit :=
  set_text el newText ;; focusout el.

(** [moveItem(sourceColumn, targetColumn, draggedRef)]: the item is picked
    up, enters the target column and is dropped there. *)
Definition moveItem (sourceColumn targetColumn : nat) (draggedRef : node) : M unit :=
  drag draggedRef ;; dragEnter targetColumn ;; drop.

End Script.

(** ** The first version of the script (script.js)

    Loading and saving as they were before [safeJSONParse] and the
    [try]/[catch] blocks were added. *)

Module Legacy.

Section Script.

Context `{JSON}.

(** [JSON.parse(localStorage.xItems)], as a run-time value *)
Definition parse_item (name : string) : M value :=
  data <- getItem name ;;
  match data ≫= JSON_parse with
  | Some j => value_of j
  | None => throw SyntaxError
  end.

Definition getSavedColumns : M unit :=
  first <- getItem "backlogItems" ;;
  if truthy_item first then
    (a <- parse_item "backlogItems" ;; modify (set_backlogListArray a)) ;;
    (a <- parse_item "progressItems" ;; modify (set_progressListArray a)) ;;
    (a <- parse_item "completeItems" ;; modify (set_completeListArray a)) ;;
    (a <- parse_item "onHoldItems" ;; modify (set_onHoldListArray a))
  else set_defaults.

Definition updateSavedColumns : M unit :=
  modify (fun s =>
    set_listArrays [backlogListArray s; progressListArray s;
                    completeListArray s; onHoldListArray s] s) ;;
  for_of_from arrayNames 0 (fun name index =>
    data <- gets (stringify_slot index) ;;
    setItem (name +:+ "Items") data).

End Script.

End Legacy.

(** ** A reference [JSON] instance

    Enough of [JSON.stringify] and [JSON.parse] to run the script on
    concrete stores: the literals, strings with their escapes, integers,
    arrays and objects. *)

Module RefJSON.

Definition hex_digit (n : nat) : ascii :=
  ascii_of_nat (if decide (n < 10) then 48 + n else 87 + n).

(** The text of one code unit inside a quoted string. *)
Definition escape (a : ascii) : list ascii :=
  let n := nat_of_ascii a in
  match n with
  | 34 => ["\"; "034"]
  | 92 => ["\"; "\"]
  | 8 => ["\"; "b"]
  | 9 => ["\"; "t"]
  | 10 => ["\"; "n"]
  | 12 => ["\"; "f"]
  | 13 => ["\"; "r"]
  | _ =>
      if decide (n < 32)
      then ["\"; "u"; "0"; "0"; hex_digit (n / 16); hex_digit (n mod 16)]
      else [a]
  end%char.

Definition quote (s : string) : list ascii :=
  ["034"%char] ++ flat_map escape (String.list_ascii_of_string s) ++ ["034"%char].

Fixpoint commas (l : list (list ascii)) : list ascii :=
  match l with
  | [] => []
  | [x] => x
  | x :: r => x ++ [","%char] ++ commas r
  end.

Fixpoint print (j : jsval) : list ascii :=
  match j with
  | JNull => String.list_ascii_of_string "null"
  | JBool true => String.list_ascii_of_string "true"
  | JBool false => String.list_ascii_of_string "false"
  | JNum lit => String.list_ascii_of_string lit
  | JStr s => quote s
  | JArr a =>
      ["["%char]
      ++ commas (map (fun x => match x with
                               | Some w => print w
                               | None => String.list_ascii_of_string "null"
                               end) a)
      ++ ["]"%char]
  | JObj fields =>
      ["{"%char]
      ++ commas (map (fun kv => quote (fst kv) ++ [":"%char] ++ print (snd kv)) fields)
      ++ ["}"%char]
  end.

Definition stringify (j : jsval) : string := String.string_of_list_ascii (print j).

Fixpoint skip_ws (l : list ascii) : list ascii :=
  match l with
  | a :: r =>
      match nat_of_ascii a with
      | 9 | 10 | 13 | 32 => skip_ws r
      | _ => l
      end
  | [] => []
  end.

Definition hex_value (a : ascii) : option nat :=
  let n := nat_of_ascii a in
  if decide (48 <= n <= 57)%nat then Some (n - 48)
  else if decide (97 <= n <= 102)%nat then Some (n - 87)
  else if decide (65 <= n <= 70)%nat then Some (n - 55)
  else None.

(** The characters of a string up to its closing quote. *)
Fixpoint parse_chars (l : list ascii) : option (list ascii * list ascii) :=
  match l with
  | [] => None
  | "034" :: r => Some ([], r)
  | "\" :: "u" :: "0" :: "0" :: h :: k :: r =>
      match hex_value h, hex_value k, parse_chars r with
      | Some x, Some y, Some (cs, r') => Some (ascii_of_nat (16 * x + y) :: cs, r')
      | _, _, _ => None
      end
  | "\" :: c :: r =>
      let unescaped :=
        match c with
        | "034" => Some "034"
        | "\" => Some "\"
        | "/" => Some "/"
        | "b" => Some (ascii_of_nat 8)
        | "t" => Some (ascii_of_nat 9)
        | "n" => Some (ascii_of_nat 10)
        | "f" => Some (ascii_of_nat 12)
        | "r" => Some (ascii_of_nat 13)
        | _ => None
        end in
      match unescaped, parse_chars r with
      | Some a, Some (cs, r') => Some (a :: cs, r')
      | _, _ => None
      end
  | a :: r =>
      if decide (nat_of_ascii a < 32) then None
      else match parse_chars r with
           | Some (cs, r') => Some (a :: cs, r')
           | None => None
           end
  end%char.

Definition is_digit (a : ascii) : bool :=
  bool_decide (48 <= nat_of_ascii a <= 57)%nat.

Fixpoint take_digits (l : list ascii) : list ascii * list ascii :=
  match l with
  | a :: r =>
      if is_digit a then let '(ds, r') := take_digits r in (a :: ds, r')
      else ([], l)
  | [] => ([], [])
  end.

(** An integer without leading zeros; minus zero reads as zero. *)
Definition parse_int (negative : bool) (l : list ascii) : option (jsval * list ascii) :=
  match take_digits l with
  | ([], _) => None
  | (["0"%char], r) => Some (JNum "0", r)
  | ("0"%char :: _, _) => None
  | (ds, r) =>
      Some (JNum (String.string_of_list_ascii (if negative then "-"%char :: ds else ds)), r)
  end.

Fixpoint parse_value (fuel : nat) (l : list ascii) : option (jsval * list ascii) :=
  match fuel with
  | 0 => None
  | S fuel' =>
      let elements :=
        fix elements (n : nat) (l : list ascii) (acc : jsarray) {struct n} :=
          match n with
          | 0 => None
          | S n' =>
              match parse_value fuel' l with
              | Some (j, r) =>
                  match skip_ws r with
                  | "," :: r' => elements n' r' (acc ++ [Some j])
                  | "]" :: r' => Some (JArr (acc ++ [Some j]), r')
                  | _ => None
                  end
              | None => None
              end
          end%char in
      let members :=
        fix members (n : nat) (l : list ascii) (acc : list (string * jsval)) {struct n} :=
          match n with
          | 0 => None
          | S n' =>
              match skip_ws l with
              | "034" :: r =>
                  match parse_chars r with
                  | Some (k, r1) =>
                      match skip_ws r1 with
                      | ":" :: r2 =>
                          match parse_value fuel' r2 with
                          | Some (j, r3) =>
                              let acc' := acc ++ [(String.string_of_list_ascii k, j)] in
                              match skip_ws r3 with
                              | "," :: r4 => members n' r4 acc'
                              | "}" :: r4 => Some (JObj acc', r4)
                              | _ => None
                              end
                          | None => None
                          end
                      | _ => None
                      end
                  | None => None
                  end
              | _ => None
              end
          end%char in
      match skip_ws l with
      | "n" :: "u" :: "l" :: "l" :: r => Some (JNull, r)
      | "t" :: "r" :: "u" :: "e" :: r => Some (JBool true, r)
      | "f" :: "a" :: "l" :: "s" :: "e" :: r => Some (JBool false, r)
      | "034" :: r =>
          match parse_chars r with
          | Some (cs, r') => Some (JStr (String.string_of_list_ascii cs), r')
          | None => None
          end
      | "[" :: r =>
          match skip_ws r with
          | "]" :: r' => Some (JArr [], r')
          | _ => elements (length r) r []
          end
      | "{" :: r =>
          match skip_ws r with
          | "}" :: r' => Some (JObj [], r')
          | _ => members (length r) r []
          end
      | "-" :: r => parse_int true r
      | r => parse_int false r
      end%char
  end.

Definition parse (text : string) : option jsval :=
  match parse_value (S (String.length text)) (String.list_ascii_of_string text) with
  | Some (j, r) =>
      match skip_ws r with
      | [] => Some j
      | _ => None
      end
  | None => None
  end.

Definition json : JSON := {| JSON_parse := parse; JSON_stringify := stringify |}.

End RefJSON.

(** ** Observations, events and reachable states *)

(** The array variable of a column: [backlogListArray] for column 0, ... *)
Definition variable (column : nat) (s : State) : option value :=
  match column with
  | 0 => Some (backlogListArray s)
  | 1 => Some (progressListArray s)
  | 2 => Some (completeListArray s)
  | 3 => Some (onHoldListArray s)
  | _ => None
  end.

(** The in-memory sequence of a column: the slots of the array that the
    column's variable refers to. *)
Definition column_array (column : nat) (s : State) : option jsarray :=
  match variable column s with
  | Some (VRef l) => heap s !! l
  | _ => None
  end.

(** The texts of the items that a column's list shows, top to bottom. *)
Definition rendered (column : nat) (s : State) : option (list string) :=
  (fun columnEl => map (fun n => text_at n s) (children columnEl s))
    <$> listColumns !! column.

(** The storage key of a column and the value stored under it. *)
Definition key (column : nat) : option string :=
  (fun name => name +:+ "Items") <$> arrayNames !! column.

Definition persisted (column : nat) (s : State) : option string :=
  key column ≫= fun k => items (localStorage s) !! k.

(** The texts that rendering an array puts on the page: one item per slot
    that is not a hole. *)
Fixpoint shown (a : jsarray) : list string :=
  match a with
  | [] => []
  | None :: r => shown r
  | Some item :: r => text_of item :: shown r
  end.

(** An array as [rebuildArrays] reads it back from a list of elements. *)
Definition texts (els : list element) (l : list node) : jsarray :=
  map (fun n => Some (JStr (node_text els n))) l.

(** An array without holes and without null items: what [filterArray]
    leaves unchanged. *)
Definition dense (a : jsarray) : Prop := filter_not_null a = a.

(** The one of four things that belongs to column [k]. *)
Definition pick {A : Type} (k : nat) (x0 x1 x2 x3 : A) : A :=
  match k with
  | 0 => x0
  | 1 => x1
  | 2 => x2
  | _ => x3
  end.

(** The elements that rendering an array creates, in order. *)
Fixpoint rendering (column : nat) (a : jsarray) (index : nat) : list element :=
  match a with
  | [] => []
  | None :: r => rendering column r (S index)
  | Some item :: r =>
      mkElement (text_of item) index (index, column) :: rendering column r (S index)
  end.

(** Every child of the four lists is an element that exists. *)
Definition dom_valid (s : State) : Prop :=
  forall u, Forall (fun n => n < length (nodes s)) (children u s).

Definition fresh_for (n : node) (s : State) : Prop :=
  forall u, Forall (fun m => m < n) (children u s).

(** The elements on the page. *)
Definition on_page (s : State) : list node :=
  backlogList s ++ progressList s ++ completeList s ++ onHoldList s.

(** What the user can do, one handler invocation each. *)
Inductive event : Type :=
  | AddItem (column : nat) (text : string)
  | EditItem (column index : nat) (newText : string)
  | Retype (el : node) (newText : string)
  | Drag (target : node)
  | DragEnter (column : nat)
  | Drop.

(** Typing and dragging are done to an element of the page. *)
Definition possible (e : event) (s : State) : Prop :=
  match e with
  | Retype el _ => el ∈ on_page s
  | Drag target => target ∈ on_page s
  | _ => True
  end.

(** The page is not touched by loading. *)
Definition same_page (s s' : State) : Prop :=
  nodes s' = nodes s /\ (forall u, children u s' = children u s)
  /\ addItems s' = addItems s /\ draggedItem s' = draggedItem s.

(** What a column holds once its stored value has been loaded. *)
Definition holds (k : nat) (j : jsval) (s : State) : Prop :=
  match j with
  | JArr a => column_array k s = Some a
  | _ => variable k s = Some (VJson j)
  end.

Section Board.

Context `{JSON}.

(** The state that [updateDOM] leaves, from the slots of the four arrays:
    the page shows what the arrays held, the variables and [listArrays]
    refer to four new filtered arrays, and the store has them if it takes
    the writes. *)
Definition after_updateDOM (a0 a1 a2 a3 : jsarray) (s : State) : State :=
  let r0 := rendering 0 a0 0 in
  let r1 := rendering 1 a1 0 in
  let r2 := rendering 2 a2 0 in
  let r3 := rendering 3 a3 0 in
  let n := length (nodes s) in
  let h := length (heap s) in
  let f0 := filter_not_null a0 in
  let f1 := filter_not_null a1 in
  let f2 := filter_not_null a2 in
  let f3 := filter_not_null a3 in
  mkState true (VRef h) (VRef (h + 1)) (VRef (h + 2)) (VRef (h + 3))
    [VRef h; VRef (h + 1); VRef (h + 2); VRef (h + 3)]
    (draggedItem s) (currentColumn s)
    (heap s ++ [f0; f1; f2; f3])
    (nodes s ++ r0 ++ r1 ++ r2 ++ r3)
    (seq n (length r0))
    (seq (n + length r0) (length r1))
    (seq (n + length r0 + length r1) (length r2))
    (seq (n + length r0 + length r1 + length r2) (length r3))
    (addItems s)
    (match mode (localStorage s) with
     | Available =>
         mkStorage Available
           (<["onHoldItems" := JSON_stringify (JArr f3)]>
              (<["completeItems" := JSON_stringify (JArr f2)]>
                 (<["progressItems" := JSON_stringify (JArr f1)]>
                    (<["backlogItems" := JSON_stringify (JArr f0)]>
                       (items (localStorage s))))))
     | _ => localStorage s
     end)
    (alerts s)
    (match mode (localStorage s) with
     | Available => console s
     | _ => console s ++ ["Error saving to localStorage:"]
     end).

(** The slots of a column's array, empty if the variable holds no array. *)
Definition arrays (s : State) (k : nat) : jsarray :=
  default [] (column_array k s).

(** The state that [updateDOM] leaves when run in [s]. *)
Definition updated (s : State) : State :=
  after_updateDOM (arrays s 0) (arrays s 1) (arrays s 2) (arrays s 3) s.

(** The slots after an edit of the item at [index] is committed: an empty
    text deletes the slot, any other text is stored in it. *)
Definition edited (a : jsarray) (index : nat) (text : string) : jsarray :=
  if is_empty_string text then <[index := None]> a
  else store_at a index (JStr text).

(** The page after new text is typed into an element. *)
Definition retyped (el : node) (newText : string) (s : State) : State :=
  set_nodes (alter (fun e => mkElement newText (el_id e) (onfocusout e)) el (nodes s)) s.

(** Assignment to the array variable of a column. *)
Definition set_variable (k : nat) (v : value) (s : State) : State :=
  match k with
  | 0 => set_backlogListArray v s
  | 1 => set_progressListArray v s
  | 2 => set_completeListArray v s
  | 3 => set_onHoldListArray v s
  | _ => s
  end.

(** [updateDOM] after its first line. *)
Definition render_and_save : M unit :=
  clear backlog_list ;;
  (array <- gets backlogListArray ;;
   forEach array (fun backlogItem index =>
     createItemEl backlog_list 0 backlogItem index)) ;;
  clear progress_list ;;
  (array <- gets progressListArray ;;
   forEach array (fun progressItem index =>
     createItemEl progress_list 1 progressItem index)) ;;
  clear complete_list ;;
  (array <- gets completeListArray ;;
   forEach array (fun completeItem index =>
     createItemEl complete_list 2 completeItem index)) ;;
  clear on_hold_list ;;
  (array <- gets onHoldListArray ;;
   forEach array (fun onHoldItem index =>
     createItemEl on_hold_list 3 onHoldItem index)) ;;
  (array <- gets backlogListArray ;; a <- filterArray array ;;
   modify (set_backlogListArray a)) ;;
  (array <- gets progressListArray ;; a <- filterArray array ;;
   modify (set_progressListArray a)) ;;
  (array <- gets completeListArray ;; a <- filterArray array ;;
   modify (set_completeListArray a)) ;;
  (array <- gets onHoldListArray ;; a <- filterArray array ;;
   modify (set_onHoldListArray a)) ;;
  modify (set_updatedOnLoad true) ;;
  updateSavedColumns.

(** The handler that an event runs. *)
Definition handle (e : event) : M unit :=
  match e with
  | AddItem column text => addItem column text
  | EditItem column index newText => editItem column index newText
  | Retype el newText => retype el newText
  | Drag target => drag target
  | DragEnter column => dragEnter column
  | Drop => drop
  end.

(** The states of a session: the page is loaded, which runs [updateDOM]
    once, and then handlers run one after the other; a handler that throws
    leaves the state it had reached. *)
Inductive reachable : State -> Prop :=
  | reachable_load storage s :
      updateDOM (initial storage) = Ok tt s -> reachable s
  | reachable_event e s :
      reachable s -> possible e s -> reachable (state_of (handle e s)).

(** The three mutating operations of the board. *)
Inductive operation : Type :=
  | OpAdd (column : nat) (text : string)
  | OpEdit (column index : nat) (newText : string)
  | OpMove (sourceColumn targetColumn : nat) (draggedRef : node).

Definition perform (op : operation) : M unit :=
  match op with
  | OpAdd column text => addItem column text
  | OpEdit column index newText => editItem column index newText
  | OpMove sourceColumn targetColumn draggedRef =>
      moveItem sourceColumn targetColumn draggedRef
  end.

(** An edit is skipped when [selectedColumnEl[index] === draggedItem]: the
    element is the drag source, or both are [undefined]. *)
Definition skipped (op : operation) (s : State) : Prop :=
  match op with
  | OpEdit column index _ =>
      (listColumns !! column ≫= fun columnEl => children columnEl s !! index)
      = draggedItem s
  | _ => False
  end.

(** A move is about an element of the page. *)
Definition applicable (op : operation) (s : State) : Prop :=
  match op with
  | OpMove _ _ draggedRef => draggedRef ∈ on_page s
  | _ => True
  end.

(** The store holds, for every column, the JSON text of its array. *)
Definition in_sync (s : State) : Prop :=
  forall k a, column_array k s = Some a ->
    persisted k s = Some (JSON_stringify (JArr a)).

(** What holds between handlers once the page is loaded: the four variables
    refer to four different arrays, which [listArrays] lists and which are
    dense; each list has at least as many items as its array; the elements
    of the page exist and none is shown twice. *)
Record Inv (s : State) : Prop := mkInv {
  inv_loaded : updatedOnLoad s = true;
  inv_listArrays :
    listArrays s = [backlogListArray s; progressListArray s;
                    completeListArray s; onHoldListArray s];
  inv_arrays :
    forall k u, listColumns !! k = Some u ->
      exists a, column_array k s = Some a /\ dense a
                /\ length a <= length (children u s);
  inv_distinct :
    forall j k l, variable j s = Some (VRef l) -> variable k s = Some (VRef l) ->
      j = k;
  inv_boxes : length (addItems s) = 4;
  inv_dom : dom_valid s;
  inv_nodup : NoDup (on_page s);
  inv_dragged : forall n, draggedItem s = Some n -> n < length (nodes s);
  inv_sync : mode (localStorage s) = Available -> in_sync s
}.

(** The page and the store agree with the arrays. *)
Definition consistent (s : State) : Prop :=
  forall k, k < 4 ->
    exists a, column_array k s = Some a
              /\ rendered k s = Some (shown a)
              /\ persisted k s = Some (JSON_stringify (JArr a)).

(** No column holds the empty string. *)
Definition no_empty_item (s : State) : Prop :=
  forall k a, column_array k s = Some a -> Some (JStr "") ∉ a.

(** The stored value of a column is the JSON text of an array with an
    empty string among its items. *)
Definition persisted_empty_item (k : nat) (s : State) : Prop :=
  exists text a, persisted k s = Some text
                 /\ JSON_parse text = Some (JArr a) /\ Some (JStr "") ∈ a.

(** The children of column [k]'s list once [el] has been appended to the
    list of column [target]. *)
Definition after_drop (el : node) (target k : nat) (l : list node) : list node :=
  if decide (k = target) then remove_node el l ++ [el] else remove_node el l.

(** The page after [parent.appendChild(el)] on the list of column [target]. *)
Definition reparented (el : node) (target : nat) (s : State) : State :=
  set_onHoldList (after_drop el target 3 (onHoldList s))
    (set_completeList (after_drop el target 2 (completeList s))
       (set_progressList (after_drop el target 1 (progressList s))
          (set_backlogList (after_drop el target 0 (backlogList s)) s))).

(** The variables and the heap after the loops of [rebuildArrays]: four new
    arrays with the texts of the four lists. *)
Definition rebuilt (s : State) : State :=
  let h := length (heap s) in
  set_onHoldListArray (VRef (h + 3))
    (set_completeListArray (VRef (h + 2))
       (set_progressListArray (VRef (h + 1))
          (set_backlogListArray (VRef h)
             (set_heap
                (heap s ++ [texts (nodes s) (backlogList s);
                            texts (nodes s) (progressList s);
                            texts (nodes s) (completeList s);
                            texts (nodes s) (onHoldList s)])
                s)))).

(** What [load] makes of the value stored for a column. *)
Definition loaded (data : option string) : jsval :=
  match data ≫= JSON_parse with
  | Some j => if truthy j then j else JArr []
  | None => JArr []
  end.

(** The state after the assignment
    [xListArray = safeJSONParse(localStorage.xItems) || []] of column [k]. *)
Definition load_column (k : nat) (name : string) (s : State) : State :=
  let data := items (localStorage s) !! name in
  let s1 := match data ≫= JSON_parse with
            | Some _ => s
            | None => set_console (console s ++ ["Error parsing JSON:"]) s
            end in
  match loaded data with
  | JArr a => set_variable k (VRef (length (heap s))) (set_heap (heap s ++ [a]) s1)
  | j => set_variable k (VJson j) s1
  end.

(** The state after the four assignments of the default arrays. *)
Definition with_defaults (s : State) : State :=
  let h := length (heap s) in
  set_onHoldListArray (VRef (h + 3))
    (set_completeListArray (VRef (h + 2))
       (set_progressListArray (VRef (h + 1))
          (set_backlogListArray (VRef h)
             (set_heap
                (heap s ++ [seed_backlog; seed_progress; seed_complete; seed_onHold])
                s)))).

(** The state that [getSavedColumns] leaves. *)
Definition after_load (s : State) : State :=
  match mode (localStorage s) with
  | Disabled =>
      with_defaults (set_console (console s ++ ["Error accessing localStorage:"]) s)
  | _ =>
      if truthy_item (items (localStorage s) !! "backlogItems") then
        load_column 3 "onHoldItems"
          (load_column 2 "completeItems"
             (load_column 1 "progressItems"
                (load_column 0 "backlogItems" s)))
      else with_defaults s
  end.

(** The seed board. *)
Definition seed (column : nat) : option jsarray :=
  match column with
  | 0 => Some seed_backlog
  | 1 => Some seed_progress
  | 2 => Some seed_complete
  | 3 => Some seed_onHold
  | _ => None
  end.

End Board.

(** ** Example boards

    Concrete sessions, run with the reference [JSON] instance. *)

Module Example.

(** An empty store that takes writes, and one whose quota is used up. *)
Definition empty_store : Storage := mkStorage Available ∅.
Definition full_store : Storage := mkStorage QuotaExceeded ∅.

(** The page once it has been opened, on either store. *)
Definition opened : State :=
  state_of (@updateDOM RefJSON.json (initial empty_store)).
Definition opened_unsaved : State :=
  state_of (@updateDOM RefJSON.json (initial full_store)).

(** "Ship v2" is added to Progress while the store is full. *)
Definition added_unsaved : State :=
  state_of (@addItem RefJSON.json 1 "Ship v2" opened_unsaved).

(** The first Backlog item is picked up; its text is cleared and it loses
    focus while it is dragged; it is dropped on Progress. *)
Definition dragging : State :=
  state_of (@handle RefJSON.json (Drag 0) opened).
Definition edited_while_dragged : State :=
  state_of (@editItem RefJSON.json 0 0 "Edited" dragging).
Definition cleared_while_dragged : State :=
  state_of (@handle RefJSON.json (EditItem 0 0 "") dragging).
Definition cleared_and_dropped : State :=
  state_of (@handle RefJSON.json Drop
              (state_of (@handle RefJSON.json (DragEnter 1) cleared_while_dragged))).

(** The first Backlog item is emptied and loses focus. *)
Definition first_removed : State :=
  state_of (@handle RefJSON.json (Retype 0 "") opened).

(** A store whose Backlog value is not JSON, and one whose Backlog value is
    the empty string while Progress holds one item. *)
Definition corrupt_store : Storage :=
  mkStorage Available {["backlogItems" := "{oops"]}.
Definition blank_first_store : Storage :=
  mkStorage Available
    (<["backlogItems" := ""]>
       {["progressItems" := RefJSON.stringify (JArr [Some (JStr "Ship v2")])]}).

(** A text of 101 characters. *)
Definition long_text : string :=
  String.string_of_list_ascii (replicate 101 "x"%char).

(** An over-long text is typed into the first Backlog item. *)
Definition typed_long : State := retyped 0 long_text opened.

(** A page whose first array holds a null item and a hole. *)
Definition holey : State :=
  set_heap [[Some JNull; Some (JStr "Ship v2"); None]] (initial empty_store).

(** The first Backlog item is picked up and enters Progress. *)
Definition entered : State :=
  state_of (@handle RefJSON.json (DragEnter 1) dragging).

(** "Ship v2" is added to Progress. *)
Definition added : State :=
  state_of (@addItem RefJSON.json 1 "Ship v2" opened).

(** A store whose Backlog value is a number, and the page opened again on
    the store that the first visit left. *)
Definition non_array_store : Storage :=
  mkStorage Available {["backlogItems" := "7"]}.
Definition reopened : State := initial (localStorage opened).

End Example.

(** * Proofs *)

Ltac unfold_setters :=
  unfold set_children, set_updatedOnLoad, set_backlogListArray,
    set_progressListArray, set_completeListArray, set_onHoldListArray,
    set_listArrays, set_draggedItem, set_currentColumn, set_heap, set_nodes,
    set_backlogList, set_progressList, set_completeList, set_onHoldList,
    set_addItems, set_localStorage, set_alerts, set_console in *;
  simpl in *.

(** ** Strings *)

Lemma trimEnd_idem s : trimEnd (trimEnd s) = trimEnd s.
Proof.
  induction s as [|a r IH]; [done|]. simpl.
  destruct (trimEnd r) as [|b r'] eqn:E.
  - destruct (is_white_space a) eqn:W; simpl; [done|]. by rewrite W.
  - simpl in *. rewrite IH. done.
Qed.

Lemma trimStart_trimEnd_head a r :
  is_white_space a = false ->
  trimStart (trimEnd (String a r)) = trimEnd (String a r).
Proof.
  intros W. simpl. destruct (trimEnd r); rewrite ?W; simpl; rewrite ?W; done.
Qed.

Lemma trimStart_head s :
  trimStart s = EmptyString \/
  exists a r, trimStart s = String a r /\ is_white_space a = false.
Proof.
  induction s as [|a r IH]; [by left|]. simpl.
  destruct (is_white_space a) eqn:W; [exact IH|]. right. eauto.
Qed.

Lemma trim_idem s : trim (trim s) = trim s.
Proof.
  unfold trim. destruct (trimStart_head s) as [E|(a & r & E & W)]; rewrite E.
  - reflexivity.
  - rewrite trimStart_trimEnd_head by done. apply trimEnd_idem.
Qed.

(** ** Arrays *)

Lemma filter_not_null_app a b :
  filter_not_null (a ++ b) = filter_not_null a ++ filter_not_null b.
Proof.
  induction a as [|[x|] a IH]; simpl; [done| |done].
  destruct (not_null x); simpl; by rewrite IH.
Qed.

Lemma filter_not_null_length a : length (filter_not_null a) <= length a.
Proof.
  induction a as [|[x|] a IH]; simpl; [lia| |lia].
  destruct (not_null x); simpl; lia.
Qed.

Lemma dense_cons_inv x a :
  dense (x :: a) -> (exists v, x = Some v /\ not_null v = true) /\ dense a.
Proof.
  unfold dense. simpl. intros E.
  destruct x as [v|].
  - destruct (not_null v) eqn:N.
    + injection E as E. eauto.
    + pose proof (filter_not_null_length a) as L. rewrite E in L. simpl in L. lia.
  - pose proof (filter_not_null_length a) as L. rewrite E in L. simpl in L. lia.
Qed.

Lemma filter_not_null_dense a : dense (filter_not_null a).
Proof.
  unfold dense. induction a as [|[x|] a IH]; simpl; [done| |done].
  destruct (not_null x) eqn:N; simpl; [|done]. by rewrite N, IH.
Qed.

Lemma dense_snoc a v : dense a -> not_null v = true -> dense (a ++ [Some v]).
Proof.
  unfold dense. intros D N. rewrite filter_not_null_app, D. simpl. by rewrite N.
Qed.

Lemma dense_lookup a i x :
  dense a -> a !! i = Some x -> exists v, x = Some v /\ not_null v = true.
Proof.
  revert i. induction a as [|y a IH]; intros i D E; [done|].
  apply dense_cons_inv in D as [Hy D].
  destruct i; simpl in E; [by injection E as <-|]. eauto.
Qed.

Lemma dense_no_null a : dense a -> Some JNull ∉ a.
Proof.
  intros D [i E]%list_elem_of_lookup.
  destruct (dense_lookup _ _ _ D E) as (v & [= <-] & N). done.
Qed.

Lemma filter_not_null_delete a i :
  dense a -> filter_not_null (<[i := None]> a) = delete i a.
Proof.
  revert i. induction a as [|x a IH]; intros i D; [done|].
  apply dense_cons_inv in D as [(v & -> & N) D].
  destruct i; simpl.
  - exact D.
  - rewrite N. f_equal. by apply IH.
Qed.

Lemma filter_not_null_texts els l : filter_not_null (texts els l) = texts els l.
Proof. induction l as [|n l IH]; simpl; [done|]. by rewrite IH. Qed.

Lemma filter_not_null_replicate_None n : filter_not_null (replicate n None) = [].
Proof. induction n; simpl; done. Qed.

(** Filtering drops nothing that is shown when no item is null. *)
Lemma shown_filter_not_null a :
  Some JNull ∉ a -> shown (filter_not_null a) = shown a.
Proof.
  induction a as [|[x|] a IH]; intros N; simpl; [done| |].
  - destruct (not_null x) eqn:E.
    + simpl. f_equal. apply IH. intros ?. apply N. by right.
    + destruct x; try discriminate. exfalso. apply N. by left.
  - apply IH. intros ?. apply N. by right.
Qed.

Lemma rendering_texts c a i : map textContent (rendering c a i) = shown a.
Proof.
  revert i. induction a as [|[x|] a IH]; intros i; simpl; [done| |].
  - f_equal. apply IH.
  - apply IH.
Qed.

Lemma rendering_length c a i : length (rendering c a i) = length (shown a).
Proof. rewrite <- (rendering_texts c a i). by rewrite length_map. Qed.

Lemma filter_not_null_shown_length a :
  length (filter_not_null a) <= length (shown a).
Proof.
  induction a as [|[x|] a IH]; simpl; [lia| |done].
  destruct (not_null x); simpl; lia.
Qed.

(** ** The monad and the page *)

Lemma Forall_lt_seq n m k : n + m <= k -> Forall (fun x => x < k) (seq n m).
Proof. intros L. apply Forall_seq. intros. lia. Qed.

Lemma Forall_lt_weaken (l : list nat) n k :
  n <= k -> Forall (fun x => x < n) l -> Forall (fun x => x < k) l.
Proof. intros L Hl. eapply Forall_impl; [exact Hl|]. simpl. intros. lia. Qed.

Lemma lookup_new {A} (hp : list A) (l : list A) k :
  (hp ++ l) !! (length hp + k) = l !! k.
Proof. rewrite lookup_app_r by lia. f_equal. lia. Qed.

Lemma lookup_new0 {A} (hp : list A) (l : list A) :
  (hp ++ l) !! (length hp) = l !! 0.
Proof. rewrite lookup_app_r by lia. f_equal. lia. Qed.

Ltac solve_valid V :=
  let u := fresh "u" in
  intros u;
  pose proof (V backlog_list); pose proof (V progress_list);
  pose proof (V complete_list); pose proof (V on_hold_list);
  destruct u; simpl in *; rewrite ?length_app;
  first [ apply Forall_nil; exact I
        | apply Forall_lt_seq; lia
        | eapply Forall_lt_weaken; [|eassumption]; lia ].

Ltac run_setters :=
  unfold set_children, set_updatedOnLoad, set_backlogListArray,
    set_progressListArray, set_completeListArray, set_onHoldListArray,
    set_listArrays, set_draggedItem, set_currentColumn, set_heap, set_nodes,
    set_backlogList, set_progressList, set_completeList, set_onHoldList,
    set_addItems, set_localStorage, set_alerts, set_console;
  simpl.

Section Proofs.

Context `{JSON}.

Lemma bind_Ok {A B} (m : M A) (f : A -> M B) s a s1 :
  m s = Ok a s1 -> bind m f s = f a s1.
Proof. intros E. unfold bind. now rewrite E. Qed.

Lemma bind_Throw {A B} (m : M A) (f : A -> M B) s e s1 :
  m s = Throw e s1 -> bind m f s = Throw e s1.
Proof. intros E. unfold bind. now rewrite E. Qed.

Lemma remove_node_fresh n l : Forall (fun m => m < n) l -> remove_node n l = l.
Proof.
  unfold remove_node. induction 1 as [|m l Hm _ IH]; [done|].
  rewrite filter_cons. destruct (decide (m ≠ n)) as [_|E]; [by rewrite IH|].
  exfalso. apply E. lia.
Qed.

Lemma appendChild_fresh u n s :
  fresh_for n s ->
  appendChild u n s = Ok tt (set_children u (children u s ++ [n]) s).
Proof.
  intros V. unfold appendChild, modify. f_equal.
  pose proof (V backlog_list) as V0. pose proof (V progress_list) as V1.
  pose proof (V complete_list) as V2. pose proof (V on_hold_list) as V3.
  destruct s; simpl in *.
  rewrite !remove_node_fresh by assumption.
  destruct u; reflexivity.
Qed.

Lemma createItemEl_exact u c item i s :
  dom_valid s ->
  createItemEl u c item i s
  = Ok tt (set_children u (children u s ++ [length (nodes s)])
             (set_nodes (nodes s ++ [mkElement (text_of item) i (i, c)]) s)).
Proof.
  intros V. unfold createItemEl, bind, createElement.
  rewrite appendChild_fresh.
  - reflexivity.
  - intros v. specialize (V v). destruct v, s; exact V.
Qed.

Lemma dom_valid_grow u l e s :
  dom_valid s -> Forall (fun n => n < length (nodes s ++ e)) l ->
  dom_valid (set_children u l (set_nodes (nodes s ++ e) s)).
Proof.
  intros V Hl v. specialize (V v).
  assert (V' : Forall (fun n => n < length (nodes s ++ e)) (children v s)).
  { eapply Forall_lt_weaken; [|exact V]. rewrite length_app. lia. }
  destruct u, v, s; simpl in *; assumption.
Qed.

Lemma forEach_createItemEl u c a : forall i s,
  dom_valid s ->
  forEach_from a i (createItemEl u c) s
  = Ok tt (set_children u
             (children u s ++ seq (length (nodes s)) (length (rendering c a i)))
             (set_nodes (nodes s ++ rendering c a i) s)).
Proof.
  induction a as [|[item|] a IH]; intros i s V; simpl.
  - unfold ret. f_equal. destruct u, s; simpl; by rewrite !app_nil_r.
  - erewrite bind_Ok by (apply createItemEl_exact, V).
    rewrite IH.
    + f_equal. destruct u, s; unfold_setters; rewrite ?length_app; simpl;
        rewrite <- ?app_assoc; simpl; repeat f_equal; lia.
    + apply dom_valid_grow; [exact V|].
      apply Forall_app. split.
      * eapply Forall_lt_weaken; [|apply V]. rewrite length_app. lia.
      * repeat constructor. rewrite length_app. simpl. lia.
  - apply IH, V.
Qed.

Lemma updateDOM_unfold :
  updateDOM = (loaded <- gets updatedOnLoad ;;
               (if loaded then ret tt else getSavedColumns) ;;
               render_and_save).
Proof. reflexivity. Qed.

Lemma updateSavedColumns_exact s l0 l1 l2 l3 a0 a1 a2 a3 :
  backlogListArray s = VRef l0 -> progressListArray s = VRef l1 ->
  completeListArray s = VRef l2 -> onHoldListArray s = VRef l3 ->
  heap s !! l0 = Some a0 -> heap s !! l1 = Some a1 ->
  heap s !! l2 = Some a2 -> heap s !! l3 = Some a3 ->
  updateSavedColumns s
  = Ok tt
      (let s' := set_listArrays [VRef l0; VRef l1; VRef l2; VRef l3] s in
       match mode (localStorage s) with
       | Available =>
           set_localStorage
             (mkStorage Available
                (<["onHoldItems" := JSON_stringify (JArr a3)]>
                   (<["completeItems" := JSON_stringify (JArr a2)]>
                      (<["progressItems" := JSON_stringify (JArr a1)]>
                         (<["backlogItems" := JSON_stringify (JArr a0)]>
                            (items (localStorage s))))))) s'
       | _ => set_console (console s ++ ["Error saving to localStorage:"]) s'
       end).
Proof.
  intros E0 E1 E2 E3 H0 H1 H2 H3.
  unfold updateSavedColumns, try_catch, bind at 1, modify.
  rewrite E0, E1, E2, E3.
  destruct s as [? ? ? ? ? ? ? ? hp ? ? ? ? ? ? [md it] ? ?]; simpl in *.
  destruct md; unfold bind, gets, setItem, stringify_slot, json_of; simpl;
    rewrite ?H0, ?H1, ?H2, ?H3; reflexivity.
Qed.

Lemma render_and_save_exact s l0 l1 l2 l3 a0 a1 a2 a3 :
  backlogListArray s = VRef l0 -> progressListArray s = VRef l1 ->
  completeListArray s = VRef l2 -> onHoldListArray s = VRef l3 ->
  heap s !! l0 = Some a0 -> heap s !! l1 = Some a1 ->
  heap s !! l2 = Some a2 -> heap s !! l3 = Some a3 ->
  dom_valid s ->
  render_and_save s = Ok tt (after_updateDOM a0 a1 a2 a3 s).
Proof.
  intros E0 E1 E2 E3 H0 H1 H2 H3 V.
  unfold render_and_save.
  destruct s as [ld v0 v1 v2 v3 la dr cc hp nd c0 c1 c2 c3 bx st al co].
  simpl in E0, E1, E2, E3, H0, H1, H2, H3. subst v0 v1 v2 v3.
  unfold bind, clear, modify, gets, forEach. unfold_setters.
  change (fun item index => createItemEl ?u ?c item index) with (createItemEl u c).
  rewrite H0, forEach_createItemEl by solve_valid V. unfold_setters.
  rewrite H1, forEach_createItemEl by solve_valid V. unfold_setters.
  rewrite H2, forEach_createItemEl by solve_valid V. unfold_setters.
  rewrite H3, forEach_createItemEl by solve_valid V. unfold_setters.
  unfold filterArray, new_array. unfold_setters.
  rewrite H0. unfold_setters.
  rewrite (lookup_app_l_Some _ _ _ _ H1). unfold_setters.
  rewrite (lookup_app_l_Some _ _ _ _ (lookup_app_l_Some _ _ _ _ H2)). unfold_setters.
  rewrite (lookup_app_l_Some _ _ _ _ (lookup_app_l_Some _ _ _ _ (lookup_app_l_Some _ _ _ _ H3))).
  unfold_setters.
  rewrite <- !app_assoc. simpl. rewrite !length_app. simpl.
  erewrite (updateSavedColumns_exact _ _ _ _ _
              (filter_not_null a0) (filter_not_null a1)
              (filter_not_null a2) (filter_not_null a3));
    try reflexivity; simpl;
    try (rewrite ?(lookup_new hp _ 1), ?(lookup_new hp _ 2), ?(lookup_new hp _ 3),
           ?lookup_new0; reflexivity).
  unfold after_updateDOM. simpl.
  destruct st as [[] it]; unfold_setters; rewrite ?Nat.add_assoc; reflexivity.
Qed.

Lemma column_array_inv k s a :
  column_array k s = Some a ->
  k < 4 /\ exists l, variable k s = Some (VRef l) /\ heap s !! l = Some a.
Proof.
  unfold column_array. destruct (variable k s) as [[l|]|] eqn:E; try done.
  intros Ha. split; [|eauto].
  destruct k as [|[|[|[|]]]]; simpl in E; try lia; done.
Qed.

(** [updateDOM] on a loaded page whose four variables hold arrays. *)
Lemma updateDOM_exact s a0 a1 a2 a3 :
  updatedOnLoad s = true ->
  column_array 0 s = Some a0 -> column_array 1 s = Some a1 ->
  column_array 2 s = Some a2 -> column_array 3 s = Some a3 ->
  dom_valid s ->
  updateDOM s = Ok tt (after_updateDOM a0 a1 a2 a3 s).
Proof.
  intros L (_ & l0 & [= E0] & H0)%column_array_inv (_ & l1 & [= E1] & H1)%column_array_inv
    (_ & l2 & [= E2] & H2)%column_array_inv (_ & l3 & [= E3] & H3)%column_array_inv V.
  rewrite updateDOM_unfold. unfold bind at 1, gets. rewrite L.
  unfold bind at 1, ret.
  eapply render_and_save_exact; eauto.
Qed.

(** ** What [updateDOM] leaves *)

Lemma column_array_after a0 a1 a2 a3 s k :
  k < 4 ->
  column_array k (after_updateDOM a0 a1 a2 a3 s)
  = Some (filter_not_null (pick k a0 a1 a2 a3)).
Proof.
  intros K. unfold column_array.
  destruct k as [|[|[|[|]]]]; try lia; simpl;
    rewrite ?lookup_new0, ?lookup_new; reflexivity.
Qed.

Lemma texts_seq (pre r post : list element) :
  map (fun n => default "" (textContent <$> (pre ++ r ++ post) !! n))
      (seq (length pre) (length r))
  = map textContent r.
Proof.
  revert pre. induction r as [|e r IH]; intros pre; [done|]. simpl. f_equal.
  - by rewrite list_lookup_middle.
  - specialize (IH (pre ++ [e])). rewrite length_app in IH. simpl in IH.
    rewrite Nat.add_1_r in IH. rewrite <- IH.
    by rewrite <- app_assoc.
Qed.

Lemma texts_seq_end (pre r : list element) :
  map (fun n => default "" (textContent <$> (pre ++ r) !! n))
      (seq (length pre) (length r))
  = map textContent r.
Proof. rewrite <- (texts_seq pre r []). by rewrite app_nil_r. Qed.

Lemma rendered_after a0 a1 a2 a3 s k :
  k < 4 ->
  rendered k (after_updateDOM a0 a1 a2 a3 s) = Some (shown (pick k a0 a1 a2 a3)).
Proof.
  intros K. unfold rendered, text_at, node_text.
  destruct k as [|[|[|[|]]]]; try lia; simpl; f_equal.
  - rewrite texts_seq. apply rendering_texts.
  - rewrite (app_assoc (nodes s)), <- length_app.
    rewrite (texts_seq (nodes s ++ _) (rendering 1 a1 0)). apply rendering_texts.
  - rewrite (app_assoc (nodes s)), (app_assoc (nodes s ++ _)), <- !length_app.
    rewrite (texts_seq (_ ++ _) (rendering 2 a2 0)). apply rendering_texts.
  - rewrite (app_assoc (nodes s)), (app_assoc (nodes s ++ _)),
      (app_assoc ((nodes s ++ _) ++ _)), <- !length_app.
    rewrite (texts_seq_end (_ ++ _) (rendering 3 a3 0)). apply rendering_texts.
Qed.

Lemma persisted_after a0 a1 a2 a3 s k :
  k < 4 -> mode (localStorage s) = Available ->
  persisted k (after_updateDOM a0 a1 a2 a3 s)
  = Some (JSON_stringify (JArr (filter_not_null (pick k a0 a1 a2 a3)))).
Proof.
  intros K A. unfold persisted.
  destruct k as [|[|[|[|]]]]; try lia; simpl; rewrite A; simpl.
  - by rewrite !lookup_insert_ne, lookup_insert_eq by done.
  - by rewrite !lookup_insert_ne, lookup_insert_eq by done.
  - by rewrite !lookup_insert_ne, lookup_insert_eq by done.
  - by rewrite lookup_insert_eq.
Qed.

Lemma persisted_after_unavailable a0 a1 a2 a3 s k :
  mode (localStorage s) <> Available ->
  persisted k (after_updateDOM a0 a1 a2 a3 s) = persisted k s.
Proof.
  intros A. unfold persisted. simpl. destruct (mode (localStorage s)); done.
Qed.

Lemma Inv_after a0 a1 a2 a3 s :
  dom_valid s -> length (addItems s) = 4 ->
  (forall n, draggedItem s = Some n -> n < length (nodes s)) ->
  Inv (after_updateDOM a0 a1 a2 a3 s).
Proof.
  intros V B D. split.
  - reflexivity.
  - reflexivity.
  - intros k u Hu. assert (K : k < 4) by (apply lookup_lt_Some in Hu; exact Hu).
    exists (filter_not_null (pick k a0 a1 a2 a3)).
    split; [by apply column_array_after|]. split; [apply filter_not_null_dense|].
    destruct k as [|[|[|[|]]]]; try lia; injection Hu as <-; simpl;
      rewrite length_seq, rendering_length; apply filter_not_null_shown_length.
  - intros j k l. destruct j as [|[|[|[|]]]], k as [|[|[|[|]]]]; simpl;
      intros Ej Ek; simplify_eq; try done; lia.
  - exact B.
  - intros u. destruct u; simpl; rewrite !length_app; apply Forall_lt_seq; lia.
  - unfold on_page. simpl. rewrite <- !seq_app. apply NoDup_seq.
  - intros n Hn. simpl in *. rewrite length_app. apply D in Hn. lia.
  - intros A k a Ha.
    destruct (decide (k < 4)) as [K|K].
    + rewrite column_array_after in Ha by done. injection Ha as <-.
      apply persisted_after; [done|].
      simpl in A. destruct (mode (localStorage s)) eqn:E; [done| |];
        rewrite E in A; done.
    + unfold column_array in Ha. destruct k as [|[|[|[|]]]]; try lia; done.
Qed.


(** ** Consequences of the invariant *)

Lemma pick_arrays s k :
  k < 4 -> pick k (arrays s 0) (arrays s 1) (arrays s 2) (arrays s 3) = arrays s k.
Proof. intros K. destruct k as [|[|[|[|]]]]; try lia; reflexivity. Qed.

Lemma column_array_arrays s k a : column_array k s = Some a -> arrays s k = a.
Proof. unfold arrays. by intros ->. Qed.

Lemma updateDOM_updated s :
  updatedOnLoad s = true ->
  (forall k, k < 4 -> is_Some (column_array k s)) ->
  dom_valid s ->
  updateDOM s = Ok tt (updated s).
Proof.
  intros L A V. unfold updated, arrays.
  destruct (A 0) as [a0 E0]; [lia|]. destruct (A 1) as [a1 E1]; [lia|].
  destruct (A 2) as [a2 E2]; [lia|]. destruct (A 3) as [a3 E3]; [lia|].
  rewrite E0, E1, E2, E3. simpl. by apply updateDOM_exact.
Qed.

Lemma column_array_updated s k :
  k < 4 -> column_array k (updated s) = Some (filter_not_null (arrays s k)).
Proof.
  intros K. unfold updated. rewrite column_array_after by done.
  by rewrite pick_arrays.
Qed.

Lemma column_array_ge s k : 4 <= k -> column_array k s = None.
Proof.
  intros K. unfold column_array. destruct k as [|[|[|[|]]]]; try lia; done.
Qed.

Lemma rendered_updated s k :
  k < 4 -> rendered k (updated s) = Some (shown (arrays s k)).
Proof.
  intros K. unfold updated. rewrite rendered_after by done.
  by rewrite pick_arrays.
Qed.

Lemma persisted_updated s k :
  k < 4 -> mode (localStorage s) = Available ->
  persisted k (updated s)
  = Some (JSON_stringify (JArr (filter_not_null (arrays s k)))).
Proof.
  intros K A. unfold updated. rewrite persisted_after by done.
  by rewrite pick_arrays.
Qed.

Lemma Inv_column s k :
  Inv s -> k < 4 ->
  exists l a, variable k s = Some (VRef l) /\ heap s !! l = Some a
              /\ column_array k s = Some a /\ dense a.
Proof.
  intros I K.
  destruct (lookup_lt_is_Some_2 listColumns k) as [u Hu]; [exact K|].
  destruct (inv_arrays _ I k u Hu) as (a & Ha & D & _).
  destruct (column_array_inv _ _ _ Ha) as (_ & l & E & Hl). eauto 10.
Qed.

Lemma Inv_listArrays s k : Inv s -> listArrays s !! k = variable k s.
Proof.
  intros I. rewrite (inv_listArrays _ I).
  destruct k as [|[|[|[|]]]]; reflexivity.
Qed.

(** A write to the array of column [c] is seen through that column's
    variable only. *)
Lemma column_array_insert s s' c l a' :
  Inv s -> c < 4 -> variable c s = Some (VRef l) ->
  (forall k, variable k s' = variable k s) ->
  heap s' = <[l := a']> (heap s) ->
  forall k, k < 4 ->
    column_array k s' = Some (if decide (k = c) then a' else arrays s k).
Proof.
  intros I C Hc Hv Hh k K.
  destruct (Inv_column _ _ I C) as (l' & a & Hc' & Hl & _ & _).
  rewrite Hc in Hc'. injection Hc' as <-.
  destruct (Inv_column _ _ I K) as (lk & ak & Hk & Hlk & Hak & _).
  unfold column_array. rewrite Hv, Hk, Hh.
  destruct (decide (k = c)) as [->|N].
  - rewrite Hc in Hk. injection Hk as <-.
    apply list_lookup_insert_eq. by eapply lookup_lt_Some.
  - rewrite list_lookup_insert_ne.
    + rewrite Hlk. f_equal. symmetry. by apply column_array_arrays.
    + intros <-. apply N. eapply (inv_distinct _ I); eauto.
Qed.

Lemma column_array_same s s' :
  (forall k, variable k s' = variable k s) -> heap s' = heap s ->
  forall k, column_array k s' = column_array k s.
Proof. intros Hv Hh k. unfold column_array. by rewrite Hv, Hh. Qed.

#[local] Arguments updated : simpl never.
#[local] Arguments after_updateDOM : simpl never.
#[local] Arguments rebuilt : simpl never.
#[local] Arguments reparented : simpl never.
#[local] Arguments retyped : simpl never.

Lemma dom_valid_same s s' :
  nodes s' = nodes s -> (forall u, children u s' = children u s) ->
  dom_valid s -> dom_valid s'.
Proof. intros En Ec V u. rewrite En, Ec. apply V. Qed.

Lemma addItem_valid s c t l :
  Inv s -> c < 4 -> variable c s = Some (VRef l) ->
  1 <= String.length (trim t) <= 100 ->
  addItem c t s
  = Ok tt (updated
             (set_addItems (<[c := ""]> (<[c := t]> (addItems s)))
                (set_heap (<[l := arrays s c ++ [Some (JStr (trim t))]]> (heap s)) s))).
Proof.
  intros I C Hc Ht.
  destruct (Inv_column _ _ I C) as (l' & a & Hc' & Hl & Ha & _).
  rewrite Hc in Hc'. injection Hc' as <-.
  pose proof (Inv_listArrays s c I) as HL. rewrite Hc in HL.
  pose proof (inv_boxes _ I) as HB.
  unfold addItem, hideInputBox, addToColumn, set_addItem.
  unfold bind at 1, modify.
  destruct (decide (c < 4)) as [_|]; [|lia].
  unfold bind at 1, ret. unfold bind at 1, gets. unfold_setters.
  rewrite list_lookup_insert_eq by lia.
  unfold validateItemText, MAX_CHARS.
  destruct (decide (100 < String.length (trim t))) as [|_]; [lia|].
  rewrite trim_idem.
  destruct (decide (String.length (trim t) = 0)) as [|_]; [lia|].
  unfold bind at 1, ret. unfold bind at 1, gets. unfold_setters.
  rewrite HL. unfold bind at 1, push. unfold_setters. rewrite Hl.
  unfold bind at 1, modify. unfold_setters.
  rewrite (column_array_arrays _ _ _ Ha).
  apply updateDOM_updated.
  - apply (inv_loaded _ I).
  - intros k K. erewrite (column_array_insert s _ c l) by (try done; reflexivity).
    eauto.
  - eapply dom_valid_same; [| |apply (inv_dom _ I)]; [done|]. by intros [].
Qed.


Lemma addItem_too_long s c t :
  Inv s -> c < 4 -> 100 < String.length (trim t) ->
  addItem c t s
  = Ok tt (updated
             (set_addItems (<[c := ""]> (<[c := t]> (addItems s)))
                (set_alerts (alerts s ++ ["Task text cannot exceed 100 characters"]) s))).
Proof.
  intros I C Ht.
  pose proof (inv_boxes _ I) as HB.
  unfold addItem, hideInputBox, addToColumn, set_addItem.
  unfold bind at 1, modify.
  destruct (decide (c < 4)) as [_|]; [|lia].
  unfold bind at 1, ret. unfold bind at 1, gets. unfold_setters.
  rewrite list_lookup_insert_eq by lia.
  unfold validateItemText, MAX_CHARS.
  destruct (decide (100 < String.length (trim t))) as [_|]; [|lia].
  unfold bind at 1. unfold bind at 1, alert, modify, ret. unfold_setters.
  unfold bind at 1, modify. unfold_setters.
  apply updateDOM_updated.
  - apply (inv_loaded _ I).
  - intros k K. destruct (Inv_column _ _ I K) as (? & a & _ & _ & Ha & _).
    exists a. rewrite <- Ha. by apply column_array_same.
  - eapply dom_valid_same; [| |apply (inv_dom _ I)]; [done|]. by intros [].
Qed.

Lemma addItem_blank s c t :
  Inv s -> c < 4 -> String.length (trim t) = 0 ->
  addItem c t s
  = Ok tt (updated (set_addItems (<[c := ""]> (<[c := t]> (addItems s))) s)).
Proof.
  intros I C Ht.
  pose proof (inv_boxes _ I) as HB.
  unfold addItem, hideInputBox, addToColumn, set_addItem.
  unfold bind at 1, modify.
  destruct (decide (c < 4)) as [_|]; [|lia].
  unfold bind at 1, ret. unfold bind at 1, gets. unfold_setters.
  rewrite list_lookup_insert_eq by lia.
  unfold validateItemText, MAX_CHARS.
  destruct (decide (100 < String.length (trim t))) as [|_]; [lia|].
  rewrite trim_idem.
  destruct (decide (String.length (trim t) = 0)) as [_|]; [|lia].
  unfold bind at 1, ret.
  unfold bind at 1, modify. unfold_setters.
  apply updateDOM_updated.
  - apply (inv_loaded _ I).
  - intros k K. destruct (Inv_column _ _ I K) as (? & a & _ & _ & Ha & _).
    exists a. rewrite <- Ha. by apply column_array_same.
  - eapply dom_valid_same; [| |apply (inv_dom _ I)]; [done|]. by intros [].
Qed.

Lemma addItem_no_column s c t :
  Inv s -> 4 <= c -> addItem c t s = Throw TypeError s.
Proof.
  intros I C.
  pose proof (inv_boxes _ I) as HB.
  unfold addItem, hideInputBox, set_addItem.
  unfold bind at 1, modify.
  rewrite list_insert_ge by lia.
  destruct (decide (c < 4)) as [|_]; [lia|].
  unfold bind, throw. f_equal. by destruct s.
Qed.

Lemma text_at_retyped el newText s :
  el < length (nodes s) -> text_at el (retyped el newText s) = newText.
Proof.
  intros L. unfold text_at, node_text, retyped. unfold_setters.
  destruct (lookup_lt_is_Some_2 _ _ L) as [e He].
  rewrite list_lookup_alter_eq, He. reflexivity.
Qed.

Lemma updateItem_no_column s i c :
  listColumns !! c = None -> updateItem i c s = Throw TypeError s.
Proof.
  intros Hu. unfold updateItem. unfold bind at 1, gets. by rewrite Hu.
Qed.

Lemma updateItem_no_item s i c u :
  listColumns !! c = Some u -> children u s !! i = None ->
  updateItem i c s
  = match draggedItem s with
    | None => Ok tt s
    | Some _ => Throw TypeError s
    end.
Proof.
  intros Hu Hi. unfold updateItem. unfold bind at 1, gets. rewrite Hu.
  unfold bind at 1, gets. unfold bind at 1, gets. rewrite Hi.
  destruct (draggedItem s) as [n|]; [|done].
  destruct (decide (None = Some n)); done.
Qed.

Lemma updateItem_skipped s i c u el :
  listColumns !! c = Some u -> children u s !! i = Some el ->
  draggedItem s = Some el ->
  updateItem i c s = Ok tt s.
Proof.
  intros Hu Hi Hd. unfold updateItem. unfold bind at 1, gets. rewrite Hu.
  unfold bind at 1, gets. unfold bind at 1, gets.
  rewrite Hi, Hd. destruct (decide (Some el = Some el)); done.
Qed.

(** A committed edit: the text that the element at [i] shows is written to
    the slot [i] of the column's array, or the slot is deleted, and the
    page is rendered and saved. *)
Lemma updateItem_committed s i c u el l :
  Inv s -> listColumns !! c = Some u -> children u s !! i = Some el ->
  draggedItem s <> Some el -> variable c s = Some (VRef l) ->
  updateItem i c s
  = Ok tt (updated
             (set_heap (<[l := edited (arrays s c) i (text_at el s)]> (heap s)) s)).
Proof.
  intros I Hu Hi Hd Hc.
  assert (C : c < 4) by (apply lookup_lt_Some in Hu; exact Hu).
  destruct (Inv_column _ _ I C) as (l' & a & Hc' & Hl & Ha & _).
  rewrite Hc in Hc'. injection Hc' as <-.
  pose proof (Inv_listArrays s c I) as HL. rewrite Hc in HL.
  unfold updateItem. unfold bind at 1, gets. rewrite HL, Hu.
  unfold bind at 1, gets. unfold bind at 1, gets.
  rewrite Hi. destruct (decide (Some el = draggedItem s)) as [E|_]; [by rewrite E in Hd|].
  unfold bind at 1, gets.
  rewrite (column_array_arrays _ _ _ Ha).
  assert (Hstep :
    (if is_empty_string (text_at el s) then delete_at (Some (VRef l)) i
     else assign_at (Some (VRef l)) i (JStr (text_at el s))) s
    = Ok tt (set_heap (<[l := edited a i (text_at el s)]> (heap s)) s)).
  { unfold edited, delete_at, assign_at.
    destruct (is_empty_string (text_at el s)); rewrite Hl; reflexivity. }
  erewrite bind_Ok by exact Hstep.
  apply updateDOM_updated.
  - apply (inv_loaded _ I).
  - intros k K. erewrite (column_array_insert s _ c l) by (try done; reflexivity).
    eauto.
  - eapply dom_valid_same; [| |apply (inv_dom _ I)]; [done|]. by intros [].
Qed.

(** [editItem] types into the element at the given position, if there is
    one, and runs [updateItem]. *)
Lemma editItem_typed s c i u el newText :
  listColumns !! c = Some u -> children u s !! i = Some el ->
  editItem c i newText s = updateItem i c (retyped el newText s).
Proof.
  intros Hu Hi. unfold editItem. unfold bind at 1. unfold bind at 1, gets.
  rewrite Hu. simpl. rewrite Hi. reflexivity.
Qed.

Lemma editItem_untyped s c i newText :
  (listColumns !! c ≫= fun u => children u s !! i) = None ->
  editItem c i newText s = updateItem i c s.
Proof.
  intros E. unfold editItem. unfold bind at 1. unfold bind at 1, gets.
  destruct (listColumns !! c) as [u|]; simpl in *; [rewrite E|]; reflexivity.
Qed.

Lemma retype_typed el newText s :
  retype el newText s = focusout el (retyped el newText s).
Proof. reflexivity. Qed.

(** The browser's call is [editItem] at the position of the element as
    long as the index written when it was rendered is that position. *)
Lemma retype_at_position s el e c i u newText :
  nodes s !! el = Some e -> onfocusout e = (i, c) ->
  listColumns !! c = Some u -> children u s !! i = Some el ->
  retype el newText s = editItem c i newText s.
Proof.
  intros He Ho Hu Hi. rewrite (editItem_typed _ _ _ u el), retype_typed by done.
  unfold focusout. unfold bind at 1, gets.
  replace (nodes (retyped el newText s) !! el)
    with (Some (mkElement newText (el_id e) (onfocusout e))).
  - by rewrite Ho.
  - unfold retyped. unfold_setters. by rewrite list_lookup_alter_eq, He.
Qed.

Lemma children_retyped u el newText s :
  children u (retyped el newText s) = children u s.
Proof. by destruct u. Qed.

Lemma editItem_skipped s c i u el newText :
  listColumns !! c = Some u -> children u s !! i = Some el ->
  draggedItem s = Some el ->
  editItem c i newText s = Ok tt (retyped el newText s).
Proof.
  intros Hu Hi Hd. rewrite (editItem_typed _ _ _ u el) by done.
  apply (updateItem_skipped _ _ _ u el); [done| |done].
  by rewrite children_retyped.
Qed.

Lemma editItem_no_item s c i u newText :
  listColumns !! c = Some u -> children u s !! i = None ->
  editItem c i newText s
  = match draggedItem s with
    | None => Ok tt s
    | Some _ => Throw TypeError s
    end.
Proof.
  intros Hu Hi. rewrite editItem_untyped by (by rewrite Hu).
  by apply (updateItem_no_item _ _ _ u).
Qed.

Lemma editItem_no_column s c i newText :
  listColumns !! c = None -> editItem c i newText s = Throw TypeError s.
Proof.
  intros Hu. rewrite editItem_untyped by (by rewrite Hu).
  by apply updateItem_no_column.
Qed.

(** *** Dropping *)

Lemma appendChild_exact u n B s :
  listColumns !! B = Some u ->
  appendChild u n s = Ok tt (reparented n B s).
Proof.
  intros Hu. unfold appendChild, modify. f_equal.
  destruct B as [|[|[|[|]]]]; try done; injection Hu as <-; destruct s; reflexivity.
Qed.

Lemma for_of_from_push (var : State -> value) cs :
  (forall h s, var (set_heap h s) = var s) ->
  forall i s l a, var s = VRef l -> heap s !! l = Some a ->
  for_of_from cs i (fun child (_ : nat) =>
    array <- gets var ;; text <- gets (text_at child) ;;
    push (Some array) (JStr text)) s
  = Ok tt (set_heap (<[l := a ++ texts (nodes s) cs]> (heap s)) s).
Proof.
  intros Hvar. induction cs as [|c cs IH]; intros i s l a Hv Hl; simpl.
  - unfold ret. f_equal. rewrite app_nil_r, list_insert_id by done. by destruct s.
  - unfold bind at 1. unfold bind at 1, gets. rewrite Hv.
    unfold bind at 1, gets. unfold push at 1. rewrite Hl.
    erewrite IH; [| by rewrite Hvar |].
    2: { unfold_setters. apply list_lookup_insert_eq. by eapply lookup_lt_Some. }
    f_equal. unfold_setters. rewrite list_insert_insert_eq, <- app_assoc. simpl.
    reflexivity.
Qed.

Lemma insert_new {A} (hp l : list A) k x :
  <[length hp + k := x]> (hp ++ l) = hp ++ <[k := x]> l.
Proof. apply insert_app_r. Qed.

Lemma insert_new0 {A} (hp l : list A) x :
  <[length hp := x]> (hp ++ l) = hp ++ <[0 := x]> l.
Proof. rewrite <- (insert_new hp l 0 x). f_equal. lia. Qed.

Lemma rebuildArrays_exact s :
  updatedOnLoad s = true -> dom_valid s ->
  rebuildArrays s = Ok tt (updated (rebuilt s)).
Proof.
  intros L V.
  rewrite <- (updateDOM_updated (rebuilt s)).
  2: { destruct s; exact L. }
  3: { intros u. specialize (V u). destruct u, s; exact V. }
  2: { intros k K. unfold column_array, rebuilt.
       destruct k as [|[|[|[|]]]]; try lia; destruct s; simpl;
       rewrite ?lookup_new0, ?lookup_new; simpl; eauto. }
  unfold rebuildArrays.
  destruct s as [ld v0 v1 v2 v3 la dr cc hp nd c0 c1 c2 c3 bx st al co].
  simpl in L. subst ld. clear V.
  do 4 (unfold bind at 1; unfold bind at 1, new_array, modify; run_setters).
  unfold for_of.
  rewrite <- !app_assoc, !length_app. simpl.
  unfold bind at 1. unfold bind at 1. unfold gets at 1. run_setters.
  erewrite (for_of_from_push backlogListArray) by
    (try reflexivity; simpl; rewrite lookup_new0; reflexivity).
  run_setters. rewrite insert_new0. simpl.
  unfold bind at 1. unfold bind at 1. unfold gets at 1. run_setters.
  erewrite (for_of_from_push progressListArray) by
    (try reflexivity; simpl; rewrite (lookup_new hp _ 1); reflexivity).
  run_setters. rewrite insert_new. simpl.
  unfold bind at 1. unfold bind at 1. unfold gets at 1. run_setters.
  erewrite (for_of_from_push completeListArray) by
    (try reflexivity; simpl; rewrite (lookup_new hp _ 2); reflexivity).
  run_setters. rewrite insert_new. simpl.
  unfold bind at 1. unfold bind at 1. unfold gets at 1. run_setters.
  erewrite (for_of_from_push onHoldListArray) by
    (try reflexivity; simpl; rewrite (lookup_new hp _ 3); reflexivity).
  run_setters. rewrite insert_new. simpl.
  reflexivity.
Qed.

Lemma column_array_rebuilt s k u :
  listColumns !! k = Some u ->
  column_array k (rebuilt s) = Some (texts (nodes s) (children u s)).
Proof.
  intros Hu. unfold column_array, rebuilt.
  destruct k as [|[|[|[|]]]]; try done; injection Hu as <-; destruct s; simpl;
    rewrite ?lookup_new0, ?lookup_new; reflexivity.
Qed.

Lemma remove_node_subseteq n l : remove_node n l ⊆ l.
Proof. unfold remove_node. intros x Hx. by apply list_elem_of_filter in Hx as [_ ?]. Qed.

Lemma after_drop_valid el B k l b :
  Forall (fun n => n < b) l -> el < b ->
  Forall (fun n => n < b) (after_drop el B k l).
Proof.
  intros Hl Hel. unfold after_drop.
  assert (Forall (fun n => n < b) (remove_node el l)).
  { rewrite Forall_forall in Hl |- *. intros x Hx. apply Hl.
    by apply remove_node_subseteq in Hx. }
  destruct (decide (k = B)); [|done].
  apply Forall_app. split; [done|]. by repeat constructor.
Qed.

Lemma dom_valid_reparented el B s :
  dom_valid s -> el < length (nodes s) -> dom_valid (reparented el B s).
Proof.
  intros V Hel u.
  pose proof (V backlog_list). pose proof (V progress_list).
  pose proof (V complete_list). pose proof (V on_hold_list).
  destruct u, s; simpl in *; by apply after_drop_valid.
Qed.

Lemma drop_exact s B u el :
  Inv s -> currentColumn s = Some B -> listColumns !! B = Some u ->
  draggedItem s = Some el ->
  drop s = Ok tt (updated (rebuilt (reparented el B s))).
Proof.
  intros I HB Hu Hd. unfold drop.
  unfold bind at 1, gets. rewrite HB. simpl. rewrite Hu.
  unfold bind at 1, gets. rewrite Hd.
  erewrite bind_Ok by (by apply (appendChild_exact u el B)).
  apply rebuildArrays_exact.
  - destruct s; apply (inv_loaded _ I).
  - apply dom_valid_reparented; [apply (inv_dom _ I)|]. by apply (inv_dragged _ I).
Qed.

Lemma drop_throws s :
  currentColumn s ≫= (fun c => listColumns !! c) = None \/ draggedItem s = None ->
  drop s = Throw TypeError s.
Proof.
  intros E. unfold drop. unfold bind at 1, gets.
  destruct (currentColumn s ≫= _) as [u|]; [|done].
  destruct E as [|E]; [done|]. unfold bind at 1, gets. by rewrite E.
Qed.

(** *** Loading *)

Lemma safeJSONParse_exact data s :
  safeJSONParse data s
  = match data ≫= JSON_parse with
    | Some j => Ok j s
    | None => Ok JNull (set_console (console s ++ ["Error parsing JSON:"]) s)
    end.
Proof.
  unfold safeJSONParse, try_catch. destruct data as [text|]; simpl; [|done].
  destruct (JSON_parse text); done.
Qed.

Lemma load_column_exact k name s :
  mode (localStorage s) <> Disabled ->
  (data <- getItem name ;; j <- safeJSONParse data ;;
   a <- or_empty j ;; modify (set_variable k a)) s
  = Ok tt (load_column k name s).
Proof.
  intros A. unfold bind at 1, getItem.
  destruct (mode (localStorage s)) eqn:E; [|clear A|done].
  all: unfold bind at 1; rewrite safeJSONParse_exact; unfold load_column, loaded;
    destruct (items (localStorage s) !! name ≫= JSON_parse) as [j|]; simpl;
    [destruct (truthy j) eqn:T; unfold bind, or_empty; rewrite ?T;
       [destruct j; try discriminate T; reflexivity | reflexivity]
    | reflexivity].
Qed.

Lemma set_defaults_exact s : set_defaults s = Ok tt (with_defaults s).
Proof.
  unfold set_defaults, with_defaults. destruct s.
  do 3 (unfold bind at 1; unfold bind at 1, new_array, modify; run_setters).
  unfold bind at 1, new_array, modify. run_setters.
  rewrite <- !app_assoc, !length_app. simpl.
  rewrite <- ?Nat.add_assoc. reflexivity.
Qed.

Lemma localStorage_load_column k name s :
  localStorage (load_column k name s) = localStorage s.
Proof.
  unfold load_column.
  destruct (loaded _), (_ ≫= JSON_parse), k as [|[|[|[|]]]]; reflexivity.
Qed.

Lemma try_catch_Ok {A} (m : M A) h s a s' :
  m s = Ok a s' -> try_catch m h s = Ok a s'.
Proof. intros E. unfold try_catch. by rewrite E. Qed.

Lemma getSavedColumns_exact s : getSavedColumns s = Ok tt (after_load s).
Proof.
  unfold getSavedColumns, after_load.
  assert (Body : mode (localStorage s) <> Disabled ->
    try_catch
      (first <- getItem "backlogItems" ;;
       if truthy_item first then
         (data <- getItem "backlogItems" ;; j <- safeJSONParse data ;;
          a <- or_empty j ;; modify (set_backlogListArray a)) ;;
         (data <- getItem "progressItems" ;; j <- safeJSONParse data ;;
          a <- or_empty j ;; modify (set_progressListArray a)) ;;
         (data <- getItem "completeItems" ;; j <- safeJSONParse data ;;
          a <- or_empty j ;; modify (set_completeListArray a)) ;;
         (data <- getItem "onHoldItems" ;; j <- safeJSONParse data ;;
          a <- or_empty j ;; modify (set_onHoldListArray a))
       else set_defaults)
      (fun e => console_error "Error accessing localStorage:" ;; set_defaults) s
    = Ok tt
        (if truthy_item (items (localStorage s) !! "backlogItems") then
           load_column 3 "onHoldItems"
             (load_column 2 "completeItems"
                (load_column 1 "progressItems"
                   (load_column 0 "backlogItems" s)))
         else with_defaults s)).
  { intros E. apply try_catch_Ok.
    unfold bind at 1. unfold getItem at 1.
    destruct (mode (localStorage s)) eqn:E'; [| |done].
    all: destruct (truthy_item _); [|apply set_defaults_exact].
    all: erewrite bind_Ok by (apply (load_column_exact 0); by rewrite E').
    all: erewrite bind_Ok by (apply (load_column_exact 1);
                              by rewrite !localStorage_load_column, E').
    all: erewrite bind_Ok by (apply (load_column_exact 2);
                              by rewrite !localStorage_load_column, E').
    all: apply (load_column_exact 3); by rewrite !localStorage_load_column, E'. }
  destruct (mode (localStorage s)) eqn:E.
  - by apply Body.
  - by apply Body.
  - unfold try_catch, bind at 1, getItem. rewrite E.
    unfold bind, console_error, modify. apply set_defaults_exact.
Qed.



Lemma same_page_load_column k name s : same_page s (load_column k name s).
Proof.
  unfold load_column.
  destruct (loaded _), (_ ≫= JSON_parse), k as [|[|[|[|]]]];
    repeat split; try (intros []); reflexivity.
Qed.

Lemma same_page_trans s1 s2 s3 : same_page s1 s2 -> same_page s2 s3 -> same_page s1 s3.
Proof.
  intros (A1 & A2 & A3 & A4) (B1 & B2 & B3 & B4).
  split; [congruence|]. split; [|split; congruence].
  intros u. by rewrite B2.
Qed.

Lemma same_page_after_load s : same_page s (after_load s).
Proof.
  unfold after_load.
  assert (D : forall s0, same_page s0 (with_defaults s0)).
  { intros s0. repeat split; try (intros []); reflexivity. }
  destruct (mode (localStorage s)).
  - destruct (truthy_item _); [|apply D].
    do 3 (eapply same_page_trans; [|apply same_page_load_column]).
    apply same_page_load_column.
  - destruct (truthy_item _); [|apply D].
    do 3 (eapply same_page_trans; [|apply same_page_load_column]).
    apply same_page_load_column.
  - eapply same_page_trans; [|apply D]. repeat split; try (intros []); reflexivity.
Qed.

Lemma column_array_with_defaults s k : column_array k (with_defaults s) = seed k.
Proof.
  unfold column_array, with_defaults.
  destruct k as [|[|[|[|]]]]; destruct s; simpl;
    rewrite ?lookup_new0, ?lookup_new; reflexivity.
Qed.


Lemma variable_set_variable j k v s :
  k < 4 ->
  variable j (set_variable k v s) = if decide (j = k) then Some v else variable j s.
Proof.
  intros K. destruct k as [|[|[|[|]]]]; try lia;
    destruct j as [|[|[|[|]]]]; reflexivity.
Qed.

Lemma heap_set_variable k v s : heap (set_variable k v s) = heap s.
Proof. destruct k as [|[|[|[|]]]]; reflexivity. Qed.

Lemma variable_load_column j k name s :
  k < 4 -> j <> k -> variable j (load_column k name s) = variable j s.
Proof.
  intros K N. unfold load_column.
  destruct (loaded _); rewrite variable_set_variable by done;
    destruct (decide (j = k)); try done;
    destruct (_ ≫= JSON_parse); by destruct j as [|[|[|[|]]]].
Qed.

Lemma heap_load_column k name s :
  exists ext, heap (load_column k name s) = heap s ++ ext.
Proof.
  unfold load_column.
  destruct (loaded _); rewrite heap_set_variable;
    destruct (_ ≫= JSON_parse); simpl; eauto; by exists []; rewrite app_nil_r.
Qed.

Lemma holds_load_column_self k name s :
  k < 4 -> holds k (loaded (items (localStorage s) !! name)) (load_column k name s).
Proof.
  intros K. unfold holds, load_column.
  destruct (loaded _) eqn:E; rewrite ?variable_set_variable by done;
    try (destruct (decide (k = k)); done).
  unfold column_array. rewrite variable_set_variable by done.
  destruct (decide (k = k)); [|done]. rewrite heap_set_variable.
  destruct (_ ≫= JSON_parse); simpl; by rewrite lookup_new0.
Qed.

Lemma holds_load_column_other j k v name s :
  k < 4 -> j <> k -> holds j v s -> holds j v (load_column k name s).
Proof.
  intros K N. unfold holds.
  assert (C : forall a, column_array j s = Some a ->
                        column_array j (load_column k name s) = Some a).
  { intros a. unfold column_array. rewrite variable_load_column by done.
    destruct (variable j s) as [[l|]|]; try done.
    destruct (heap_load_column k name s) as [ext ->]. apply lookup_app_l_Some. }
  destruct v; rewrite ?variable_load_column by done; auto.
Qed.

(** Each column holds what was loaded from its own key. *)
Lemma holds_after_load s k name :
  mode (localStorage s) <> Disabled ->
  truthy_item (items (localStorage s) !! "backlogItems") = true ->
  key k = Some name ->
  holds k (loaded (items (localStorage s) !! name)) (after_load s).
Proof.
  intros A T Hk. unfold after_load. rewrite T.
  assert (E : match mode (localStorage s) with
              | Disabled =>
                  with_defaults
                    (set_console (console s ++ ["Error accessing localStorage:"]) s)
              | _ => load_column 3 "onHoldItems"
                       (load_column 2 "completeItems"
                          (load_column 1 "progressItems"
                             (load_column 0 "backlogItems" s)))
              end
              = load_column 3 "onHoldItems"
                  (load_column 2 "completeItems"
                     (load_column 1 "progressItems"
                        (load_column 0 "backlogItems" s)))).
  { by destruct (mode (localStorage s)). }
  rewrite E. clear E.
  destruct k as [|[|[|[|]]]]; try done; injection Hk as <-.
  - do 3 (apply holds_load_column_other; [lia|lia|]).
    apply holds_load_column_self; lia.
  - do 2 (apply holds_load_column_other; [lia|lia|]).
    rewrite <- (localStorage_load_column 0 "backlogItems" s).
    apply holds_load_column_self; lia.
  - apply holds_load_column_other; [lia|lia|].
    rewrite <- (localStorage_load_column 0 "backlogItems" s).
    rewrite <- (localStorage_load_column 1 "progressItems").
    apply holds_load_column_self; lia.
  - rewrite <- (localStorage_load_column 0 "backlogItems" s).
    rewrite <- (localStorage_load_column 1 "progressItems").
    rewrite <- (localStorage_load_column 2 "completeItems").
    apply holds_load_column_self; lia.
Qed.

Lemma column_array_after_load_defaults s k :
  mode (localStorage s) = Disabled
  \/ truthy_item (items (localStorage s) !! "backlogItems") = false ->
  column_array k (after_load s) = seed k.
Proof.
  intros E. unfold after_load.
  destruct (mode (localStorage s)) eqn:Em;
    try apply column_array_with_defaults;
    destruct E as [|E]; try done; rewrite E; apply column_array_with_defaults.
Qed.

(** [updateDOM] throws unless the four variables hold arrays. *)
Lemma render_and_save_Ok s s' :
  dom_valid s -> render_and_save s = Ok tt s' ->
  forall k, k < 4 -> is_Some (column_array k s).
Proof.
  intros V E.
  destruct s as [ld v0 v1 v2 v3 la dr cc hp nd c0 c1 c2 c3 bx st al co].
  unfold render_and_save in E.
  unfold bind, clear, modify, gets, forEach in E.
  unfold set_children, set_backlogList in E. simpl in E.
  change (fun item index => createItemEl ?u ?c item index)
    with (createItemEl u c) in E.
  destruct v0 as [l0|]; [|discriminate E].
  destruct (hp !! l0) as [a0|] eqn:H0; [|discriminate E].
  rewrite forEach_createItemEl in E by solve_valid V.
  unfold set_children, set_nodes, set_backlogList, set_progressList in E. simpl in E.
  destruct v1 as [l1|]; [|discriminate E].
  destruct (hp !! l1) as [a1|] eqn:H1; [|discriminate E].
  rewrite forEach_createItemEl in E by solve_valid V.
  unfold set_children, set_nodes, set_progressList, set_completeList in E. simpl in E.
  destruct v2 as [l2|]; [|discriminate E].
  destruct (hp !! l2) as [a2|] eqn:H2; [|discriminate E].
  rewrite forEach_createItemEl in E by solve_valid V.
  unfold set_children, set_nodes, set_completeList, set_onHoldList in E. simpl in E.
  destruct v3 as [l3|]; [|discriminate E].
  destruct (hp !! l3) as [a3|] eqn:H3; [|discriminate E].
  clear E. intros k K. unfold column_array.
  destruct k as [|[|[|[|]]]]; try lia; simpl; eauto.
Qed.

Lemma updateDOM_first_load s s' :
  updatedOnLoad s = false -> dom_valid s ->
  updateDOM s = Ok tt s' -> s' = updated (after_load s).
Proof.
  intros L V E. rewrite updateDOM_unfold in E.
  unfold bind at 1, gets in E. rewrite L in E.
  erewrite bind_Ok in E by apply getSavedColumns_exact.
  destruct (same_page_after_load s) as (Sn & Sc & _).
  assert (V' : dom_valid (after_load s)).
  { intros u. rewrite Sn, Sc. apply V. }
  pose proof (render_and_save_Ok _ _ V' E) as A.
  destruct (A 0) as [a0 E0]; [lia|]. destruct (A 1) as [a1 E1]; [lia|].
  destruct (A 2) as [a2 E2]; [lia|]. destruct (A 3) as [a3 E3]; [lia|].
  unfold updated, arrays. rewrite E0, E1, E2, E3. simpl.
  destruct (column_array_inv _ _ _ E0) as (_ & l0 & [= F0] & H0).
  destruct (column_array_inv _ _ _ E1) as (_ & l1 & [= F1] & H1).
  destruct (column_array_inv _ _ _ E2) as (_ & l2 & [= F2] & H2).
  destruct (column_array_inv _ _ _ E3) as (_ & l3 & [= F3] & H3).
  rewrite (render_and_save_exact _ _ _ _ _ _ _ _ _ F0 F1 F2 F3 H0 H1 H2 H3 V') in E.
  by injection E as <-.
Qed.

Lemma Inv_updated s :
  dom_valid s -> length (addItems s) = 4 ->
  (forall n, draggedItem s = Some n -> n < length (nodes s)) ->
  Inv (updated s).
Proof. apply Inv_after. Qed.

Lemma Inv_page_load storage s :
  updateDOM (initial storage) = Ok tt s -> Inv s.
Proof.
  intros E.
  assert (V : dom_valid (initial storage)) by (intros []; constructor).
  apply updateDOM_first_load in E; [|done|done]. subst s.
  destruct (same_page_after_load (initial storage)) as (Sn & Sc & Sa & Sd).
  apply Inv_updated.
  - intros u. rewrite Sn, Sc. apply V.
  - by rewrite Sa.
  - intros n. by rewrite Sd.
Qed.

Lemma Inv_same s s' :
  updatedOnLoad s' = updatedOnLoad s ->
  listArrays s' = listArrays s ->
  (forall k, variable k s' = variable k s) ->
  heap s' = heap s ->
  length (addItems s') = length (addItems s) ->
  length (nodes s') = length (nodes s) ->
  (forall u, children u s' = children u s) ->
  (forall n, draggedItem s' = Some n -> n < length (nodes s)) ->
  localStorage s' = localStorage s ->
  Inv s -> Inv s'.
Proof.
  intros El Ela Ev Eh Ea En Ec Ed Es I.
  assert (Eca : forall k, column_array k s' = column_array k s)
    by (by apply column_array_same).
  split.
  - rewrite El. apply I.
  - rewrite Ela, (inv_listArrays _ I).
    pose proof (Ev 0) as E0. pose proof (Ev 1) as E1.
    pose proof (Ev 2) as E2. pose proof (Ev 3) as E3.
    simpl in *. congruence.
  - intros k u Hu. rewrite Eca, Ec. by apply (inv_arrays _ I).
  - intros j k l. rewrite !Ev. apply (inv_distinct _ I).
  - rewrite Ea. apply I.
  - intros u. rewrite En, Ec. apply I.
  - unfold on_page.
    change (NoDup (children backlog_list s' ++ children progress_list s'
                   ++ children complete_list s' ++ children on_hold_list s')).
    rewrite !Ec. apply (inv_nodup _ I).
  - intros n Hn. rewrite En. by apply Ed.
  - rewrite Es. intros A k a. rewrite Eca. unfold persisted. rewrite Es.
    by apply (inv_sync _ I).
Qed.

Lemma Inv_retyped el newText s : Inv s -> Inv (retyped el newText s).
Proof.
  intros I. apply (Inv_same s);
    [reflexivity | reflexivity | by intros [|[|[|[|]]]] | reflexivity | reflexivity
    | apply length_alter | by intros [] | apply (inv_dragged _ I) | reflexivity
    | exact I].
Qed.

Lemma editItem_committed s c i u el newText l :
  Inv s -> listColumns !! c = Some u -> children u s !! i = Some el ->
  draggedItem s <> Some el -> variable c s = Some (VRef l) ->
  editItem c i newText s
  = Ok tt (updated
             (set_heap (<[l := edited (arrays s c) i newText]> (heap s))
                (retyped el newText s))).
Proof.
  intros I Hu Hi Hd Hc. rewrite (editItem_typed _ _ _ u el) by done.
  rewrite (updateItem_committed _ _ _ u el l);
    [|by apply Inv_retyped|done|by rewrite children_retyped|done|done].
  rewrite text_at_retyped; [reflexivity|].
  pose proof (inv_dom _ I u) as V. rewrite Forall_lookup in V. eauto.
Qed.

Lemma on_page_valid s n : dom_valid s -> n ∈ on_page s -> n < length (nodes s).
Proof.
  intros V. unfold on_page. rewrite !elem_of_app.
  pose proof (V backlog_list) as V0. pose proof (V progress_list) as V1.
  pose proof (V complete_list) as V2. pose proof (V on_hold_list) as V3.
  rewrite Forall_forall in V0, V1, V2, V3. simpl in *.
  intros [?|[?|[?|?]]]; auto.
Qed.

(** Every handler keeps the invariant, whether it returns or throws. *)
Lemma Inv_updateItem i c s : Inv s -> Inv (state_of (updateItem i c s)).
Proof.
  intros I.
  destruct (listColumns !! c) as [u|] eqn:Hu.
  2: { by rewrite updateItem_no_column. }
  destruct (children u s !! i) as [el|] eqn:Hi.
  2: { rewrite (updateItem_no_item _ _ _ u) by done. by destruct (draggedItem s). }
  destruct (decide (draggedItem s = Some el)) as [Hd|Hd].
  { by rewrite (updateItem_skipped _ _ _ u el). }
  assert (C : c < 4) by (apply lookup_lt_Some in Hu; exact Hu).
  destruct (Inv_column _ _ I C) as (l & a & Hv & _).
  rewrite (updateItem_committed _ _ _ u el l) by done. simpl.
  apply Inv_updated.
  - eapply dom_valid_same; [| |apply (inv_dom _ I)]; [done|by intros []].
  - apply (inv_boxes _ I).
  - apply (inv_dragged _ I).
Qed.

Lemma Inv_step e s : Inv s -> possible e s -> Inv (state_of (handle e s)).
Proof.
  intros I P. destruct e as [c t|c i t|el t|n|c|]; simpl.
  - (* addItem *)
    destruct (decide (c < 4)) as [C|C].
    + assert (Pre : forall x, length (<[c := ""]> (<[c := t]> x)) = length x)
        by (intros; by rewrite !length_insert).
      destruct (decide (100 < String.length (trim t))).
      { rewrite addItem_too_long by done. simpl. apply Inv_updated.
        - eapply dom_valid_same; [| |apply (inv_dom _ I)]; [done|by intros []].
        - simpl. rewrite Pre. apply I.
        - apply (inv_dragged _ I). }
      destruct (decide (String.length (trim t) = 0)).
      { rewrite addItem_blank by done. simpl. apply Inv_updated.
        - eapply dom_valid_same; [| |apply (inv_dom _ I)]; [done|by intros []].
        - simpl. rewrite Pre. apply I.
        - apply (inv_dragged _ I). }
      destruct (Inv_column _ _ I C) as (l & a & Hv & _).
      rewrite (addItem_valid _ _ _ l) by (try done; lia). simpl. apply Inv_updated.
      * eapply dom_valid_same; [| |apply (inv_dom _ I)]; [done|by intros []].
      * simpl. rewrite Pre. apply I.
      * apply (inv_dragged _ I).
    + rewrite addItem_no_column by (try done; lia). exact I.
  - (* editItem *)
    destruct (listColumns !! c ≫= fun u => children u s !! i) as [el|] eqn:E.
    + destruct (listColumns !! c) as [u|] eqn:Hu; [|done]. simpl in E.
      rewrite (editItem_typed _ _ _ u el) by done.
      by apply Inv_updateItem, Inv_retyped.
    + rewrite editItem_untyped by done. by apply Inv_updateItem.
  - (* the focusout of an element *)
    rewrite retype_typed. unfold focusout. unfold bind at 1, gets.
    destruct (nodes (retyped el t s) !! el) as [e|].
    + by apply Inv_updateItem, Inv_retyped.
    + by apply Inv_retyped.
  - (* drag *)
    unfold drag, modify. simpl. apply (Inv_same s);
      [reflexivity | reflexivity | by intros [|[|[|[|]]]] | reflexivity | reflexivity
      | reflexivity | by intros [] | | reflexivity | exact I].
    simpl. intros m [= <-]. apply on_page_valid; [apply I|exact P].
  - (* dragEnter *)
    unfold dragEnter. destruct (listColumns !! c); [|exact I].
    unfold modify. simpl. apply (Inv_same s);
      [reflexivity | reflexivity | by intros [|[|[|[|]]]] | reflexivity | reflexivity
      | reflexivity | by intros [] | apply (inv_dragged _ I) | reflexivity | exact I].
  - (* drop *)
    destruct (currentColumn s ≫= fun c => listColumns !! c) as [u|] eqn:Hc.
    2: { rewrite drop_throws by (by left). exact I. }
    destruct (draggedItem s) as [el|] eqn:Hd.
    2: { rewrite drop_throws by (by right). exact I. }
    destruct (currentColumn s) as [B|] eqn:HB; [|done]. simpl in Hc.
    rewrite (drop_exact _ B u el) by done. simpl.
    pose proof (inv_dragged _ I el Hd) as Lel.
    apply Inv_updated.
    + eapply (dom_valid_same (reparented el B s)).
      * by destruct s.
      * intros []; by destruct s.
      * apply dom_valid_reparented; [apply I|done].
    + destruct s; apply (inv_boxes _ I).
    + intros n Hn. replace (draggedItem _) with (draggedItem s) in Hn by (by destruct s).
      replace (nodes _) with (nodes s) by (by destruct s).
      by apply (inv_dragged _ I).
Qed.

Lemma reachable_Inv s : reachable s -> Inv s.
Proof.
  induction 1 as [storage s E|e s R IH P].
  - by eapply Inv_page_load.
  - by apply Inv_step.
Qed.

(** * The claims *)

Lemma dense_filter a : dense a -> filter_not_null a = a.
Proof. done. Qed.

Lemma Inv_arrays s k :
  Inv s -> k < 4 -> column_array k s = Some (arrays s k) /\ dense (arrays s k).
Proof.
  intros I K. destruct (Inv_column _ _ I K) as (l & a & _ & _ & Ha & D).
  by rewrite (column_array_arrays _ _ _ Ha).
Qed.

(** The columns after [updateDOM] in a state that differs from an
    invariant state by the array of column [c]. *)
Lemma column_array_updated_insert s s' c l a' k :
  Inv s -> c < 4 -> variable c s = Some (VRef l) ->
  (forall j, variable j s' = variable j s) ->
  heap s' = <[l := a']> (heap s) ->
  column_array k (updated s')
  = if decide (k = c) then Some (filter_not_null a') else column_array k s.
Proof.
  intros I C Hc Hv Hh.
  destruct (decide (k < 4)) as [K|K].
  - rewrite column_array_updated by done.
    pose proof (column_array_insert s s' c l a' I C Hc Hv Hh k K) as E.
    rewrite (column_array_arrays _ _ _ E).
    destruct (decide (k = c)); [done|].
    destruct (Inv_arrays s k I K) as [-> D]. f_equal. exact D.
  - rewrite !column_array_ge by lia. destruct (decide (k = c)); [lia|done].
Qed.

Lemma column_array_updated_same s s' k :
  Inv s -> (forall j, variable j s' = variable j s) -> heap s' = heap s ->
  column_array k (updated s') = column_array k s.
Proof.
  intros I Hv Hh.
  destruct (decide (k < 4)) as [K|K].
  - rewrite column_array_updated by done.
    destruct (Inv_arrays s k I K) as [E D]. rewrite E.
    rewrite <- (column_array_same s s' Hv Hh) in E.
    rewrite (column_array_arrays _ _ _ E). f_equal. exact D.
  - by rewrite !column_array_ge by lia.
Qed.

(** C5: for every column [c] and every text [t] whose trimmed length is
    between 1 and 100, [addItem c t] returns, column [c]'s sequence is the
    old one with [trim t] appended (one item longer, [trim t] last), and
    the sequences of the other three columns are unchanged. *)
Theorem addItem_appends_trimmed_text s c t :
  reachable s -> c < 4 -> 1 <= String.length (trim t) <= 100 ->
  exists s' a a',
    addItem c t s = Ok tt s'
    /\ column_array c s = Some a
    /\ column_array c s' = Some a'
    /\ a' = a ++ [Some (JStr (trim t))]
    /\ length a' = S (length a)
    /\ last a' = Some (Some (JStr (trim t)))
    /\ forall k, k <> c -> column_array k s' = column_array k s.
Proof.
  intros R C Ht. pose proof (reachable_Inv _ R) as I.
  destruct (Inv_column _ _ I C) as (l & a & Hv & Hl & Ha & D).
  exists (updated
            (set_addItems (<[c := ""]> (<[c := t]> (addItems s)))
               (set_heap (<[l := arrays s c ++ [Some (JStr (trim t))]]> (heap s)) s))),
    a, (a ++ [Some (JStr (trim t))]).
  split; [by apply addItem_valid|]. split; [done|].
  rewrite (column_array_arrays _ _ _ Ha).
  split.
  { rewrite (column_array_updated_insert s _ c l (a ++ [Some (JStr (trim t))]))
      by done.
    destruct (decide (c = c)); [|done]. f_equal. by apply dense_snoc. }
  split; [done|]. split; [rewrite length_app; simpl; lia|].
  split; [apply last_snoc|].
  intros k N.
  rewrite (column_array_updated_insert s _ c l (a ++ [Some (JStr (trim t))]))
    by done.
  by destruct (decide (k = c)).
Qed.

(** C6: for every column [c], [addItem c t] with [t] empty after trimming
    returns without a warning and leaves every column's sequence as it
    was; with a trimmed text of more than 100 characters it returns after
    one warning to the user and leaves every column's sequence as it was. *)
Theorem addItem_rejects_empty_and_long_text s c t :
  reachable s -> c < 4 ->
  (String.length (trim t) = 0 ->
   exists s', addItem c t s = Ok tt s'
              /\ (forall k, column_array k s' = column_array k s)
              /\ alerts s' = alerts s)
  /\ (100 < String.length (trim t) ->
      exists s', addItem c t s = Ok tt s'
                 /\ (forall k, column_array k s' = column_array k s)
                 /\ alerts s' = alerts s ++ ["Task text cannot exceed 100 characters"]).
Proof.
  intros R C. pose proof (reachable_Inv _ R) as I. split; intros Ht.
  - eexists. split; [by apply addItem_blank|]. split; [|reflexivity].
    intros k. by apply column_array_updated_same.
  - eexists. split; [by apply addItem_too_long|]. split; [|reflexivity].
    intros k. by apply column_array_updated_same.
Qed.

(** C7, as the code has it: for every column [c] and every valid index [i]
    into its sequence whose element is not the one that is being dragged,
    [editItem c i ""] returns and removes exactly the slot [i] of column
    [c] (one item less, the others in their order), and leaves the
    sequences of the other three columns unchanged.  For the element that
    is being dragged the edit is skipped (C8). *)
Theorem editItem_empty_removes_item s c i u a :
  reachable s -> listColumns !! c = Some u ->
  column_array c s = Some a -> i < length a ->
  draggedItem s <> children u s !! i ->
  exists s',
    editItem c i "" s = Ok tt s'
    /\ column_array c s' = Some (delete i a)
    /\ length (delete i a) = length a - 1
    /\ forall k, k <> c -> column_array k s' = column_array k s.
Proof.
  intros R Hu Ha Hi Hd. pose proof (reachable_Inv _ R) as I.
  assert (C : c < 4) by (apply lookup_lt_Some in Hu; exact Hu).
  destruct (inv_arrays _ I c u Hu) as (a' & Ha' & D & Hlen).
  rewrite Ha in Ha'. injection Ha' as <-.
  destruct (lookup_lt_is_Some_2 (children u s) i) as [el Hel]; [lia|].
  rewrite Hel in Hd.
  destruct (column_array_inv _ _ _ Ha) as (_ & l & Hv & Hl).
  eexists. split; [by apply (editItem_committed _ _ _ u el _ l)|].
  rewrite (column_array_arrays _ _ _ Ha). unfold edited. simpl.
  split.
  { rewrite (column_array_updated_insert s _ c l (<[i := None]> a)) by done.
    destruct (decide (c = c)); [|done]. f_equal. by apply filter_not_null_delete. }
  split; [rewrite length_delete; [lia|]; by apply lookup_lt_is_Some_2|].
  intros k N.
  rewrite (column_array_updated_insert s _ c l (<[i := None]> a)) by done.
  by destruct (decide (k = c)).
Qed.

(** C8: for every column [c], index [i] and text [newText], if the element
    at [(c, i)] is the active drag source then [editItem c i newText]
    returns having changed nothing but the text shown in that element: the
    four variables, [listArrays], the arrays they refer to and the store,
    hence all four sequences and all four persisted values, are
    unchanged. *)
Theorem editItem_skipped_on_drag_source s c i u el newText :
  listColumns !! c = Some u -> children u s !! i = Some el ->
  draggedItem s = Some el ->
  exists s',
    editItem c i newText s = Ok tt s'
    /\ (forall k, column_array k s' = column_array k s)
    /\ (forall k, persisted k s' = persisted k s)
    /\ (forall k, variable k s' = variable k s)
    /\ listArrays s' = listArrays s
    /\ heap s' = heap s
    /\ localStorage s' = localStorage s.
Proof.
  intros Hu Hi Hd. exists (retyped el newText s).
  split; [by apply (editItem_skipped _ _ _ u)|].
  repeat split; done.
Qed.

Lemma loaded_unparseable data : data ≫= JSON_parse = None -> loaded data = JArr [].
Proof. unfold loaded. by intros ->. Qed.

Lemma truthy_item_true data :
  truthy_item data = true <-> exists text, data = Some text /\ text <> "".
Proof.
  unfold truthy_item. destruct data as [[|a r]|]; simpl; split;
    try discriminate; try (intros (? & [=] & ?)); try done; eauto.
Qed.

(** C2, as the code has it: [load] always returns and never signals an
    error.  It gives the seed board when the store cannot be read or the
    value under "backlogItems" is missing or the empty string.  When that
    value is there, a column whose own value is missing or cannot be parsed
    is loaded as the empty sequence. *)
Theorem load_seeds_when_missing_and_never_fails s :
  exists s',
    load s = Ok tt s'
    /\ (mode (localStorage s) = Disabled
        \/ truthy_item (items (localStorage s) !! "backlogItems") = false ->
        forall k, column_array k s' = seed k)
    /\ (mode (localStorage s) <> Disabled ->
        truthy_item (items (localStorage s) !! "backlogItems") = true ->
        forall k name, key k = Some name ->
          items (localStorage s) !! name ≫= JSON_parse = None ->
          column_array k s' = Some []).
Proof.
  exists (after_load s). split; [apply getSavedColumns_exact|]. split.
  - intros E k. by apply column_array_after_load_defaults.
  - intros A T k name Hk E.
    pose proof (holds_after_load s k name A T Hk) as Hh.
    by rewrite (loaded_unparseable _ E) in Hh.
Qed.

(** C10, as the code has it: if the store can be read and the value under
    "backlogItems" is a non-empty string, [load] returns and each column
    holds what [loaded] makes of the value under its own key alone: the
    parsed value if it is truthy, the empty sequence if the key is missing
    or its value is not valid JSON (or parses to a falsy value). *)
Theorem load_takes_each_column_from_its_own_key s first :
  mode (localStorage s) <> Disabled ->
  items (localStorage s) !! "backlogItems" = Some first -> first <> "" ->
  exists s',
    load s = Ok tt s'
    /\ forall k name, key k = Some name ->
         holds k (loaded (items (localStorage s) !! name)) s'
         /\ (items (localStorage s) !! name ≫= JSON_parse = None ->
             column_array k s' = Some []).
Proof.
  intros A E N.
  assert (T : truthy_item (items (localStorage s) !! "backlogItems") = true).
  { apply truthy_item_true. eauto. }
  exists (after_load s). split; [apply getSavedColumns_exact|].
  intros k name Hk.
  pose proof (holds_after_load s k name A T Hk) as Hh. split; [done|].
  intros E'. by rewrite (loaded_unparseable _ E') in Hh.
Qed.

Lemma key_lt k name : key k = Some name -> k < 4.
Proof.
  unfold key. intros E. destruct (arrayNames !! k) eqn:E'; [|done].
  by apply lookup_lt_Some in E'.
Qed.

Lemma key_is_Some k : k < 4 -> is_Some (key k).
Proof. intros K. destruct k as [|[|[|[|]]]]; try lia; by eexists. Qed.

(** C4, as the code has it: for every reachable board [b] whose store
    takes the writes, and on whose arrays [JSON.parse] inverts
    [JSON.stringify] (the text of an array not being empty), [save]
    followed by [load] on a freshly opened page gives the four sequences of
    [b] back. *)
Theorem save_then_fresh_load_round_trip b :
  reachable b -> mode (localStorage b) = Available ->
  (forall k a, column_array k b = Some a ->
     JSON_parse (JSON_stringify (JArr a)) = Some (JArr a)
     /\ JSON_stringify (JArr a) <> "") ->
  exists s1 s2,
    save b = Ok tt s1
    /\ load (initial (localStorage s1)) = Ok tt s2
    /\ forall k, column_array k s2 = column_array k b.
Proof.
  intros R A RT. pose proof (reachable_Inv _ R) as I.
  destruct (Inv_column _ 0 I) as (l0 & a0 & [= E0] & H0 & C0 & _); [lia|].
  destruct (Inv_column _ 1 I) as (l1 & a1 & [= E1] & H1 & C1 & _); [lia|].
  destruct (Inv_column _ 2 I) as (l2 & a2 & [= E2] & H2 & C2 & _); [lia|].
  destruct (Inv_column _ 3 I) as (l3 & a3 & [= E3] & H3 & C3 & _); [lia|].
  remember (mkStorage Available
              (<["onHoldItems" := JSON_stringify (JArr a3)]>
                 (<["completeItems" := JSON_stringify (JArr a2)]>
                    (<["progressItems" := JSON_stringify (JArr a1)]>
                       (<["backlogItems" := JSON_stringify (JArr a0)]>
                          (items (localStorage b))))))) as st eqn:Est.
  exists (set_localStorage st
            (set_listArrays [VRef l0; VRef l1; VRef l2; VRef l3] b)),
    (after_load (initial st)).
  split.
  { unfold save.
    rewrite (updateSavedColumns_exact b l0 l1 l2 l3 a0 a1 a2 a3) by done.
    rewrite A, Est. reflexivity. }
  change (localStorage (set_localStorage st _)) with st.
  split; [apply getSavedColumns_exact|].
  assert (L : forall k a, k < 4 -> column_array k b = Some a ->
            exists name, key k = Some name
              /\ items st !! name = Some (JSON_stringify (JArr a))).
  { intros k a K Ha.
    destruct k as [|[|[|[|]]]]; try lia;
      [exists "backlogItems"|exists "progressItems"
      |exists "completeItems"|exists "onHoldItems"];
      (split; [reflexivity|]); rewrite Est; simpl;
      rewrite ?lookup_insert_eq, ?lookup_insert_ne by done;
      rewrite ?lookup_insert_eq, ?lookup_insert_ne by done;
      rewrite ?lookup_insert_eq, ?lookup_insert_ne by done;
      rewrite ?lookup_insert_eq, ?lookup_insert_ne by done; congruence. }
  assert (M : mode st = Available) by (by rewrite Est).
  clear Est.
  intros k. destruct (decide (k < 4)) as [K|K].
  2: { by rewrite !column_array_ge by lia. }
  destruct (Inv_arrays b k I K) as [Ha _]. rewrite Ha.
  destruct (L k _ K Ha) as (name & Hk & Hn).
  assert (T : truthy_item (items (localStorage (initial st)) !! "backlogItems") = true).
  { destruct (L 0 a0) as (n0 & [= <-] & Hn0); [lia|done|].
    change (items st !! "backlogItems" = Some (JSON_stringify (JArr a0))) in Hn0.
    simpl. rewrite Hn0. apply truthy_item_true. eexists. split; [done|].
    by apply (RT 0). }
  pose proof (holds_after_load (initial st) k name) as Hh.
  simpl in Hh. rewrite Hn in Hh. unfold loaded in Hh. simpl in Hh.
  destruct (RT k _ Ha) as [P _]. rewrite P in Hh. simpl in Hh.
  apply Hh; try done. by rewrite M.
Qed.

Lemma remove_node_notin x l : x ∉ l -> remove_node x l = l.
Proof.
  unfold remove_node. induction l as [|y l IH]; intros N; [done|].
  rewrite filter_cons. rewrite not_elem_of_cons in N. destruct N as [N1 N2].
  destruct (decide (y ≠ x)); [|done]. by rewrite IH.
Qed.

Lemma remove_node_delete x l i :
  NoDup l -> l !! i = Some x -> remove_node x l = delete i l.
Proof.
  unfold remove_node. revert i. induction l as [|y l IH]; intros i N E; [done|].
  apply NoDup_cons in N as [Ny N]. rewrite filter_cons. destruct i; simpl in E.
  - injection E as ->. destruct (decide (x ≠ x)); [done|].
    simpl. by apply remove_node_notin.
  - destruct (decide (y ≠ x)) as [_|Eq].
    + simpl. f_equal. by apply IH.
    + exfalso. apply Ny. apply dec_stable in Eq. subst y.
      by eapply list_elem_of_lookup_2.
Qed.

Lemma children_reparented el B k u s :
  listColumns !! k = Some u ->
  children u (reparented el B s) = after_drop el B k (children u s).
Proof.
  intros Hu. destruct k as [|[|[|[|]]]]; try done; injection Hu as <-;
    by destruct s.
Qed.

Lemma shown_texts els l : shown (texts els l) = map (node_text els) l.
Proof. induction l as [|n l IH]; simpl; [done|]. by rewrite IH. Qed.

Lemma NoDup_on_page_list s k u :
  NoDup (on_page s) -> listColumns !! k = Some u -> NoDup (children u s).
Proof.
  unfold on_page. intros N Hu.
  apply NoDup_app in N as (N0 & _ & N).
  apply NoDup_app in N as (N1 & _ & N).
  apply NoDup_app in N as (N2 & _ & N3).
  destruct k as [|[|[|[|]]]]; try done; by injection Hu as <-.
Qed.

Lemma on_page_disjoint s j k u v x :
  NoDup (on_page s) -> listColumns !! j = Some u -> listColumns !! k = Some v ->
  j <> k -> x ∈ children u s -> x ∉ children v s.
Proof.
  unfold on_page. intros N Hu Hv Njk Hx Hx'.
  apply NoDup_app in N as (_ & D0 & N).
  apply NoDup_app in N as (_ & D1 & N).
  apply NoDup_app in N as (_ & D2 & _).
  destruct j as [|[|[|[|]]]]; try done; injection Hu as <-;
    destruct k as [|[|[|[|]]]]; try done; injection Hv as <-; simpl in *;
    first [ eapply D0; [eassumption|]; set_solver
          | eapply D1; [eassumption|]; set_solver
          | eapply D2; [eassumption|]; set_solver ].
Qed.

Lemma children_on_page s k u x :
  listColumns !! k = Some u -> x ∈ children u s -> x ∈ on_page s.
Proof.
  unfold on_page. intros Hu Hx.
  destruct k as [|[|[|[|]]]]; try done; injection Hu as <-; simpl in Hx; set_solver.
Qed.

(** The page and the arrays after the three handlers of a move. *)
Lemma moveItem_exact s A B i uA uB el :
  Inv s -> listColumns !! A = Some uA -> listColumns !! B = Some uB ->
  children uA s !! i = Some el ->
  moveItem A B el s
  = Ok tt (updated (rebuilt (reparented el B
             (set_currentColumn (Some B) (set_draggedItem (Some el) s))))).
Proof.
  intros I HA HB Hi. unfold moveItem.
  unfold bind at 1, drag, modify. unfold bind at 1, dragEnter. rewrite HB.
  unfold modify.
  assert (P : el ∈ on_page s).
  { eapply children_on_page; [exact HA|]. by eapply list_elem_of_lookup_2. }
  pose proof (Inv_step (Drag el) s I P) as I1.
  pose proof (Inv_step (DragEnter B) _ I1 Logic.I) as I2.
  simpl in I1, I2. unfold drag, modify in I1, I2. simpl in I2.
  unfold dragEnter in I2. rewrite HB in I2. unfold modify in I2. simpl in I2.
  by apply (drop_exact _ B uB el).
Qed.

(** C1, as the code has it: for every reachable board and every item [el]
    at position [i] of column [A] that is dragged and dropped on column
    [B], [moveItem] returns; every column's sequence is then the texts of
    its list read top to bottom after [el] has left its list and become
    the last item of [B]'s list, so [A]'s sequence has lost the item at
    [i] and [B]'s ends with it; the page shows these sequences, and when
    the store takes the writes every persisted value is the JSON text of
    its column's new sequence. *)
Theorem moveItem_appends_and_rebuilds_all s A B i uA uB el :
  reachable s -> listColumns !! A = Some uA -> listColumns !! B = Some uB ->
  children uA s !! i = Some el ->
  exists s',
    moveItem A B el s = Ok tt s'
    /\ (forall k u, listColumns !! k = Some u ->
          let list := after_drop el B k (children u s) in
          column_array k s' = Some (texts (nodes s) list)
          /\ rendered k s' = Some (map (node_text (nodes s)) list)
          /\ (mode (localStorage s) = Available ->
              persisted k s' = Some (JSON_stringify (JArr (texts (nodes s) list)))))
    /\ (A <> B ->
        after_drop el B A (children uA s) = delete i (children uA s)
        /\ after_drop el B B (children uB s) = children uB s ++ [el])
    /\ (A = B -> after_drop el B A (children uA s) = delete i (children uA s) ++ [el])
    /\ (forall k u, listColumns !! k = Some u -> k <> A -> k <> B ->
          after_drop el B k (children u s) = children u s).
Proof.
  intros R HA HB Hi. pose proof (reachable_Inv _ R) as I.
  eexists. split; [by eapply moveItem_exact|].
  assert (Hel : el ∈ children uA s) by (by eapply list_elem_of_lookup_2).
  split; [|split; [|split]].
  - intros k u Hu list.
    assert (K : k < 4) by (apply lookup_lt_Some in Hu; exact Hu).
    set (S2 := rebuilt _).
    assert (E : column_array k S2 = Some (texts (nodes s) list)).
    { unfold S2. rewrite (column_array_rebuilt _ k u Hu).
      rewrite (children_reparented _ _ k u) by done.
      by destruct u, s. }
    rewrite column_array_updated, rendered_updated by done.
    rewrite (column_array_arrays _ _ _ E), filter_not_null_texts, shown_texts.
    split; [done|]. split; [done|]. intros Av.
    rewrite persisted_updated; [|done|by destruct s].
    by rewrite (column_array_arrays _ _ _ E), filter_not_null_texts.
  - intros N. unfold after_drop.
    destruct (decide (A = B)); [done|]. destruct (decide (B = B)); [|done].
    split.
    + apply remove_node_delete; [|done].
      by eapply NoDup_on_page_list; [apply I|].
    + f_equal. apply remove_node_notin.
      eapply on_page_disjoint; [apply (inv_nodup _ I)|exact HA|exact HB|done|done].
  - intros ->. unfold after_drop. destruct (decide (B = B)); [|done].
    f_equal. apply remove_node_delete; [|done].
    by eapply NoDup_on_page_list; [apply I|].
  - intros k u Hu NA NB. unfold after_drop. destruct (decide (k = B)); [done|].
    apply remove_node_notin.
    eapply on_page_disjoint; [apply (inv_nodup _ I)|exact HA|exact Hu|done|done].
Qed.

Lemma elem_of_filter_not_null x a : x ∈ filter_not_null a -> x ∈ a.
Proof.
  induction a as [|[y|] a IH]; simpl; [done| |].
  - destruct (not_null y).
    + rewrite !elem_of_cons. intros [->|?]; [by left|right; auto].
    + intros. right. auto.
  - intros. right. auto.
Qed.

Lemma dense_no_hole a : dense a -> None ∉ a.
Proof.
  intros D [i E]%list_elem_of_lookup.
  by destruct (dense_lookup _ _ _ D E) as (v & ? & _).
Qed.

Lemma elem_of_insert_hole x (a : jsarray) i :
  x ∈ <[i := None]> a -> x = None \/ x ∈ a.
Proof.
  intros [j E]%list_elem_of_lookup.
  destruct (decide (i = j)) as [->|N].
  - destruct (decide (j < length a)).
    + rewrite list_lookup_insert_eq in E by done. left. congruence.
    + rewrite list_insert_ge in E by lia. right. by eapply list_elem_of_lookup_2.
  - rewrite list_lookup_insert_ne in E by done. right. by eapply list_elem_of_lookup_2.
Qed.

Lemma elem_of_store_at x a i v :
  x ∈ store_at a i v -> x = Some v \/ x = None \/ x ∈ a.
Proof.
  unfold store_at. destruct (decide (i < length a)).
  - intros [j E]%list_elem_of_lookup.
    destruct (decide (i = j)) as [->|N].
    + rewrite list_lookup_insert_eq in E by done. left. congruence.
    + rewrite list_lookup_insert_ne in E by done. right. right.
      by eapply list_elem_of_lookup_2.
  - rewrite !elem_of_app, elem_of_replicate, list_elem_of_singleton. tauto.
Qed.

Lemma elem_of_edited x a i text :
  x ∈ edited a i text ->
  x ∈ a \/ x = None \/ (x = Some (JStr text) /\ text <> "").
Proof.
  unfold edited. destruct text as [|c r]; simpl.
  - intros [->|?]%elem_of_insert_hole; auto.
  - intros [->|[->|?]]%elem_of_store_at; auto.
Qed.

Lemma consistent_updated s :
  mode (localStorage s) = Available ->
  (forall k, k < 4 -> exists a, column_array k s = Some a /\ Some JNull ∉ a) ->
  consistent (updated s).
Proof.
  intros A N k K. destruct (N k K) as (a & Ha & Hn).
  exists (filter_not_null a).
  rewrite column_array_updated, rendered_updated, persisted_updated by done.
  rewrite (column_array_arrays _ _ _ Ha). by rewrite shown_filter_not_null.
Qed.

(** The arrays just before [updateDOM] in a handler that has written to
    the array of column [c]. *)
Lemma columns_after_write s s' c l a' (P : option jsval -> Prop) :
  Inv s -> c < 4 -> variable c s = Some (VRef l) ->
  (forall j, variable j s' = variable j s) ->
  heap s' = <[l := a']> (heap s) ->
  Forall P a' ->
  (forall k a, column_array k s = Some a -> Forall P a) ->
  forall k, k < 4 -> exists a, column_array k s' = Some a /\ Forall P a.
Proof.
  intros I C Hc Hv Hh Pa' Ps k K.
  rewrite (column_array_insert s s' c l a' I C Hc Hv Hh k K).
  destruct (decide (k = c)); [eauto|].
  destruct (Inv_arrays s k I K) as [E _]. eauto.
Qed.

Lemma not_elem_of_Forall {A} (x : A) (l : list A) : x ∉ l <-> Forall (fun y => y <> x) l.
Proof.
  rewrite Forall_forall. split.
  - intros N y Hy ->. done.
  - intros F Hx. by apply (F x).
Qed.

Lemma Inv_no_null s k a : Inv s -> column_array k s = Some a -> Some JNull ∉ a.
Proof.
  intros I Ha. destruct (column_array_inv _ _ _ Ha) as (K & _).
  destruct (Inv_arrays s k I K) as [E D]. rewrite Ha in E. injection E as ->.
  by apply dense_no_null.
Qed.

(** C9, as the code has it: after [addItem], an [editItem] that is not
    skipped, or [moveItem] of an element of the page returns, and provided
    the store takes the writes, every column's persisted value is the JSON
    text of its in-memory sequence and its list shows the items of that
    sequence in order. *)
Theorem operations_leave_page_and_store_consistent s op s' :
  reachable s -> mode (localStorage s) = Available ->
  applicable op s -> ~ skipped op s ->
  perform op s = Ok tt s' ->
  consistent s'.
Proof.
  intros R A Ap Sk E. pose proof (reachable_Inv _ R) as I.
  destruct op as [c t|c i t|a b el]; simpl in *.
  - (* addItem *)
    destruct (decide (c < 4)) as [C|C].
    2: { rewrite addItem_no_column in E by (try done; lia). discriminate E. }
    destruct (decide (100 < String.length (trim t))).
    { rewrite addItem_too_long in E by done. injection E as <-.
      apply consistent_updated; [done|]. intros k K.
      destruct (Inv_arrays s k I K) as [Ea D]. exists (arrays s k).
      split; [done|]. by apply dense_no_null. }
    destruct (decide (String.length (trim t) = 0)).
    { rewrite addItem_blank in E by done. injection E as <-.
      apply consistent_updated; [done|]. intros k K.
      destruct (Inv_arrays s k I K) as [Ea D]. exists (arrays s k).
      split; [done|]. by apply dense_no_null. }
    destruct (Inv_column _ _ I C) as (l & a & Hv & _ & Ha & D).
    rewrite (addItem_valid _ _ _ l) in E by (try done; lia). injection E as <-.
    apply consistent_updated; [done|]. intros k K.
    setoid_rewrite not_elem_of_Forall.
    eapply (columns_after_write s _ c l); try done.
    + rewrite (column_array_arrays _ _ _ Ha). apply Forall_app. split.
      * apply not_elem_of_Forall. by apply dense_no_null.
      * by repeat constructor.
    + intros j aj Hj. apply not_elem_of_Forall. by eapply Inv_no_null.
  - (* editItem *)
    destruct (listColumns !! c) as [u|] eqn:Hu.
    2: { rewrite editItem_no_column in E by done. discriminate E. }
    simpl in Sk.
    destruct (children u s !! i) as [el|] eqn:Hi.
    2: { rewrite (editItem_no_item _ _ _ u) in E by done.
         destruct (draggedItem s); [discriminate E|done]. }
    assert (C : c < 4) by (apply lookup_lt_Some in Hu; exact Hu).
    destruct (Inv_column _ _ I C) as (l & a & Hv & _ & Ha & D).
    rewrite (editItem_committed _ _ _ u el _ l) in E by (try done; congruence).
    injection E as <-.
    apply consistent_updated; [done|]. intros k K.
    setoid_rewrite not_elem_of_Forall.
    eapply (columns_after_write (retyped el t s) _ c l); try done.
    + by apply Inv_retyped.
    + apply not_elem_of_Forall. intros [?|[?|[? _]]]%elem_of_edited; try done.
      eapply Inv_no_null; [exact I| |done].
      destruct (Inv_arrays s c I C) as [Ec _]. exact Ec.
    + intros j aj Hj. apply not_elem_of_Forall. by eapply (Inv_no_null s).
  - (* moveItem *)
    destruct (listColumns !! b) as [uB|] eqn:HB.
    2: { unfold moveItem, bind, drag, modify, dragEnter in E. rewrite HB in E.
         discriminate E. }
    assert (exists A uA i, listColumns !! A = Some uA /\ children uA s !! i = Some el)
      as (A' & uA & i & HA & Hi).
    { unfold on_page in Ap. rewrite !elem_of_app in Ap.
      destruct Ap as [Hx|[Hx|[Hx|Hx]]]; apply list_elem_of_lookup in Hx as [i Hi].
      - exists 0, backlog_list, i. done.
      - exists 1, progress_list, i. done.
      - exists 2, complete_list, i. done.
      - exists 3, on_hold_list, i. done. }
    change (moveItem a b el s) with (moveItem A' b el s) in E.
    rewrite (moveItem_exact _ _ _ i uA uB) in E by done. injection E as <-.
    apply consistent_updated; [by destruct s|]. intros k K.
    destruct (lookup_lt_is_Some_2 listColumns k K) as [u Hu].
    eexists. split; [by apply (column_array_rebuilt _ k u)|].
    unfold texts. rewrite list_elem_of_fmap. by intros (? & [=] & _).
Qed.

(** C3, as the code has it: in every reachable state each column's array
    has no hole and no null item, and it is what the store holds for the
    column when the store takes the writes: [filterArray] removes nulls
    (and holes) before each save, not empty strings.  [addItem] and
    [editItem] never put an empty string into a column that has none. *)
Theorem null_items_are_never_persisted s :
  reachable s ->
  (forall k, k < 4 ->
     exists a, column_array k s = Some a /\ (None ∉ a) /\ (Some JNull ∉ a)
               /\ (mode (localStorage s) = Available ->
                   persisted k s = Some (JSON_stringify (JArr a))))
  /\ (no_empty_item s ->
      (forall c t, no_empty_item (state_of (addItem c t s)))
      /\ (forall c i t, no_empty_item (state_of (editItem c i t s)))).
Proof.
  intros R. pose proof (reachable_Inv _ R) as I. split.
  { intros k K. destruct (Inv_arrays s k I K) as [Ea D].
    exists (arrays s k). split; [done|]. split; [by apply dense_no_hole|].
    split; [by apply dense_no_null|]. intros A. by apply (inv_sync _ I). }
  intros NE.
  assert (U : forall S,
    (forall k, k < 4 -> exists a, column_array k S = Some a
                                  /\ Forall (fun y => y <> Some (JStr "")) a) ->
    no_empty_item (updated S)).
  { intros S HS k a Ha. destruct (column_array_inv _ _ _ Ha) as (K & _).
    rewrite column_array_updated in Ha by done. injection Ha as <-.
    destruct (HS k K) as (a & Ea & Fa). rewrite (column_array_arrays _ _ _ Ea).
    intros Hx%elem_of_filter_not_null. by apply not_elem_of_Forall in Fa. }
  assert (Same : forall S, (forall k, column_array k S = column_array k s) ->
            forall k, k < 4 -> exists a, column_array k S = Some a
                                  /\ Forall (fun y => y <> Some (JStr "")) a).
  { intros S HS k K. destruct (Inv_arrays s k I K) as [Ea _].
    exists (arrays s k). rewrite HS. split; [done|].
    apply not_elem_of_Forall. by apply (NE k). }
  split.
  - intros c t.
    destruct (decide (c < 4)) as [C|C].
    2: { by rewrite addItem_no_column by (try done; lia). }
    destruct (decide (100 < String.length (trim t))).
    { rewrite addItem_too_long by done. simpl. apply U, Same.
      by apply column_array_same. }
    destruct (decide (String.length (trim t) = 0)).
    { rewrite addItem_blank by done. simpl. apply U, Same.
      by apply column_array_same. }
    destruct (Inv_column _ _ I C) as (l & a & Hv & _ & Ha & D).
    rewrite (addItem_valid _ _ _ l) by (try done; lia). simpl. apply U.
    eapply (columns_after_write s _ c l); try done.
    + rewrite (column_array_arrays _ _ _ Ha). apply Forall_app. split.
      * apply not_elem_of_Forall. by apply (NE c).
      * repeat constructor. intros [= E]. rewrite E in *. simpl in *. lia.
    + intros j aj Hj. apply not_elem_of_Forall. by apply (NE j).
  - intros c i t.
    destruct (listColumns !! c) as [u|] eqn:Hu.
    2: { by rewrite editItem_no_column by done. }
    destruct (children u s !! i) as [el|] eqn:Hi.
    2: { rewrite (editItem_no_item _ _ _ u) by done. by destruct (draggedItem s). }
    destruct (decide (draggedItem s = Some el)) as [Hd|Hd].
    { rewrite (editItem_skipped _ _ _ u el) by done. simpl.
      intros k a Ha. by apply (NE k). }
    assert (C : c < 4) by (apply lookup_lt_Some in Hu; exact Hu).
    destruct (Inv_column _ _ I C) as (l & a & Hv & _ & Ha & D).
    rewrite (editItem_committed _ _ _ u el _ l) by done. simpl. apply U.
    eapply (columns_after_write (retyped el t s) _ c l); try done.
    + by apply Inv_retyped.
    + apply not_elem_of_Forall.
      intros [?|[?|[[= <-] ?]]]%elem_of_edited; try done.
      rewrite (column_array_arrays _ _ _ Ha) in *. by apply (NE c a).
    + intros j aj Hj. apply not_elem_of_Forall. by apply (NE j).
Qed.

(** * Further properties of the script *)

Lemma substring0_length n s : String.length (substring0 n s) <= n.
Proof.
  revert s. induction n as [|n IH]; intros [|a r]; simpl; try lia.
  specialize (IH r). lia.
Qed.

Lemma substring0_short n s : String.length s <= n -> substring0 n s = s.
Proof.
  revert s. induction n as [|n IH]; intros [|a r]; simpl; try done; try lia.
  intros L. f_equal. apply IH. lia.
Qed.

Lemma text_at_retyped_ne el n newText s :
  n <> el -> text_at n (retyped el newText s) = text_at n s.
Proof.
  intros N. unfold text_at, node_text, retyped. unfold_setters.
  by rewrite list_lookup_alter_ne.
Qed.

(** X1: the [input] listener of an item keeps its text within the limit:
    after it has run the text is the first 100 characters of what it was,
    an alert is raised exactly when something was cut off, and the other
    items, the arrays and the store are as before. *)
Theorem input_listener_caps_text target s :
  target < length (nodes s) ->
  exists s',
    on_input target s = Ok tt s'
    /\ text_at target s' = substring0 MAX_CHARS (text_at target s)
    /\ String.length (text_at target s') <= MAX_CHARS
    /\ (forall n, n <> target -> text_at n s' = text_at n s)
    /\ alerts s'
       = (if decide (MAX_CHARS < String.length (text_at target s))
          then alerts s ++ ["Task text cannot exceed 100 characters"]
          else alerts s)
    /\ (forall k, column_array k s' = column_array k s)
    /\ localStorage s' = localStorage s.
Proof.
  intros L. unfold on_input. unfold bind at 1, gets.
  destruct (decide (MAX_CHARS < String.length (text_at target s))) as [Hl|Hl].
  - exists (set_alerts (alerts s ++ ["Task text cannot exceed 100 characters"])
              (retyped target (substring0 MAX_CHARS (text_at target s)) s)).
    split; [reflexivity|].
    assert (E : text_at target
                  (set_alerts (alerts s ++ ["Task text cannot exceed 100 characters"])
                     (retyped target (substring0 MAX_CHARS (text_at target s)) s))
                = substring0 MAX_CHARS (text_at target s))
      by (by apply text_at_retyped).
    split; [exact E|]. split; [rewrite E; apply substring0_length|].
    split; [intros n N; by apply (text_at_retyped_ne target)|].
    repeat split; done.
  - exists s. split; [reflexivity|].
    rewrite substring0_short by lia. repeat split; try done. lia.
Qed.

Lemma filter_not_null_filter a : filter_not_null a = filter is_item a.
Proof.
  induction a as [|[item|] a IH]; [done| |].
  - rewrite filter_cons. destruct item; simpl; rewrite ?IH; try done.
  - rewrite filter_cons. simpl. exact IH.
Qed.

(** X2: [filterArray] gives a new array object with the items of its argument
    that are not [null], in their order; the argument is not modified. *)
Theorem filterArray_returns_new_array_of_items l a s :
  heap s !! l = Some a ->
  exists l' s',
    filterArray (VRef l) s = Ok (VRef l') s'
    /\ l' <> l
    /\ heap s' !! l = Some a
    /\ heap s' !! l' = Some (filter is_item a)
    /\ sublist (filter is_item a) a
    /\ (None ∉ filter is_item a) /\ (Some JNull ∉ filter is_item a)
    /\ filter is_item (filter is_item a) = filter is_item a.
Proof.
  intros Hl. exists (length (heap s)), (set_heap (heap s ++ [filter_not_null a]) s).
  pose proof (lookup_lt_Some _ _ _ Hl) as Lt.
  split; [unfold filterArray; by rewrite Hl|].
  split; [lia|]. unfold_setters.
  split; [by rewrite lookup_app_l|].
  split; [rewrite filter_not_null_filter; by rewrite lookup_new0|].
  split; [apply sublist_filter|].
  split; [|split].
  - intros [[] _]%list_elem_of_filter.
  - intros [E _]%list_elem_of_filter. discriminate E.
  - apply list_filter_filter_l. done.
Qed.

(** X3: [updateSavedColumns] never throws, whatever the variables hold.
    It sets [listArrays] to the four variables even when the store refuses
    the writes; on a store that takes them it writes the JSON text of each
    variable under its key and leaves every other key alone; on any other
    store it changes nothing there and logs one error. *)
Theorem updateSavedColumns_never_throws s :
  exists s',
    updateSavedColumns s = Ok tt s'
    /\ listArrays s'
       = [backlogListArray s; progressListArray s; completeListArray s;
          onHoldListArray s]
    /\ (forall k, variable k s' = variable k s) /\ heap s' = heap s
    /\ nodes s' = nodes s /\ (forall u, children u s' = children u s)
    /\ (mode (localStorage s) = Available ->
        (forall k name, key k = Some name ->
           exists v, variable k s = Some v
             /\ items (localStorage s') !! name = Some (JSON_stringify (json_of v s)))
        /\ (forall name, (forall k, key k <> Some name) ->
              items (localStorage s') !! name = items (localStorage s) !! name)
        /\ console s' = console s)
    /\ (mode (localStorage s) <> Available ->
        localStorage s' = localStorage s
        /\ console s' = console s ++ ["Error saving to localStorage:"]).
Proof.
  exists (let s1 := set_listArrays [backlogListArray s; progressListArray s;
                                    completeListArray s; onHoldListArray s] s in
          match mode (localStorage s) with
          | Available =>
              set_localStorage
                (mkStorage Available
                   (<["onHoldItems" := JSON_stringify (json_of (onHoldListArray s) s)]>
                      (<["completeItems" := JSON_stringify (json_of (completeListArray s) s)]>
                         (<["progressItems" := JSON_stringify (json_of (progressListArray s) s)]>
                            (<["backlogItems" := JSON_stringify (json_of (backlogListArray s) s)]>
                               (items (localStorage s))))))) s1
          | _ => set_console (console s ++ ["Error saving to localStorage:"]) s1
          end).
  split.
  { destruct s as [ld v0 v1 v2 v3 la dr cc hp nd c0 c1 c2 c3 bx [m it] al co].
    destruct m, v0, v1, v2, v3; reflexivity. }
  destruct (mode (localStorage s)) eqn:M; simpl.
  - split; [done|]. split; [done|]. split; [done|]. split; [done|].
    split; [by intros []|]. split; [|done]. intros _. split; [|split; [|done]].
    + intros k name Hk. destruct k as [|[|[|[|]]]]; try done;
        injection Hk as <-; eexists; (split; [reflexivity|]).
      * by rewrite !lookup_insert_ne, lookup_insert_eq by done.
      * by rewrite !lookup_insert_ne, lookup_insert_eq by done.
      * by rewrite !lookup_insert_ne, lookup_insert_eq by done.
      * by rewrite lookup_insert_eq.
    + intros name N.
      assert (N0 : "backlogItems" <> name) by (intros <-; by apply (N 0)).
      assert (N1 : "progressItems" <> name) by (intros <-; by apply (N 1)).
      assert (N2 : "completeItems" <> name) by (intros <-; by apply (N 2)).
      assert (N3 : "onHoldItems" <> name) by (intros <-; by apply (N 3)).
      by rewrite !lookup_insert_ne.
  - repeat split; try done.
  - repeat split; try done.
Qed.

Lemma Inv_updateDOM s :
  Inv s -> updateDOM s = Ok tt (updated s) /\ Inv (updated s).
Proof.
  intros I. split.
  - apply updateDOM_updated; [apply I| |apply I].
    intros k K. destruct (Inv_arrays s k I K) as [E _]. eauto.
  - apply Inv_updated; apply I.
Qed.

Lemma column_array_updated_Inv s k : Inv s -> column_array k (updated s) = column_array k s.
Proof. intros I. by apply column_array_updated_same. Qed.

Lemma rendered_updated_Inv s k :
  Inv s -> rendered k (updated s) = shown <$> column_array k s.
Proof.
  intros I. destruct (decide (k < 4)) as [K|K].
  - rewrite rendered_updated by done.
    destruct (Inv_arrays s k I K) as [-> _]. done.
  - rewrite column_array_ge by lia. unfold rendered.
    rewrite (lookup_ge_None_2 listColumns k); [done|simpl; lia].
Qed.

Lemma persisted_ge s k : 4 <= k -> persisted k s = None.
Proof.
  intros K. unfold persisted, key.
  rewrite (lookup_ge_None_2 arrayNames k); [done|simpl; lia].
Qed.

Lemma mode_updated s : mode (localStorage (updated s)) = mode (localStorage s).
Proof.
  unfold updated, after_updateDOM. simpl.
  destruct (localStorage s) as [m it]. by destruct m.
Qed.

(** X4: Rendering again changes nothing that can be observed: on a loaded
    board [updateDOM] returns, leaves every column's sequence as it is,
    shows exactly these sequences, and a second run gives the same page
    texts and the same stored values as the first. *)
Theorem updateDOM_rerender_is_idempotent s :
  reachable s ->
  exists s1 s2,
    updateDOM s = Ok tt s1 /\ updateDOM s1 = Ok tt s2
    /\ forall k,
         column_array k s1 = column_array k s
         /\ rendered k s1 = shown <$> column_array k s
         /\ column_array k s2 = column_array k s
         /\ rendered k s2 = rendered k s1
         /\ persisted k s2 = persisted k s1.
Proof.
  intros R. pose proof (reachable_Inv _ R) as I.
  destruct (Inv_updateDOM _ I) as [E1 I1].
  destruct (Inv_updateDOM _ I1) as [E2 I2].
  exists (updated s), (updated (updated s)).
  split; [done|]. split; [done|]. intros k.
  rewrite !rendered_updated_Inv, !column_array_updated_Inv by done.
  repeat split; try done.
  destruct (decide (k < 4)) as [K|K]; [|by rewrite !persisted_ge by lia].
  destruct (mode (localStorage s)) eqn:A.
  2, 3: unfold updated at 1; rewrite persisted_after_unavailable; [done|];
        rewrite mode_updated, A; done.
  rewrite (persisted_updated (updated s)) by (by rewrite ?mode_updated).
  rewrite (persisted_updated s) by done.
  rewrite (column_array_arrays _ _ _ (column_array_updated s k K)).
  by rewrite (filter_not_null_dense (arrays s k)).
Qed.

(** X5: Once the page is loaded the store is written, never read: whatever
    the store holds when [updateDOM] runs, the sequences stay as they are
    and a store that takes writes gets their JSON texts. *)
Theorem updateDOM_never_reads_the_store_again s storage :
  reachable s ->
  exists s',
    updateDOM (set_localStorage storage s) = Ok tt s'
    /\ (forall k, column_array k s' = column_array k s)
    /\ (mode storage = Available ->
        forall k a, column_array k s = Some a ->
          persisted k s' = Some (JSON_stringify (JArr a))).
Proof.
  intros R. pose proof (reachable_Inv _ R) as I.
  exists (updated (set_localStorage storage s)). split; [|split].
  - apply updateDOM_updated.
    + apply I.
    + intros k K. destruct (Inv_arrays s k I K) as [E _]. eauto.
    + apply (dom_valid_same s); [done|by intros []|apply I].
  - intros k. by apply column_array_updated_same.
  - intros A k a Ha. destruct (column_array_inv _ _ _ Ha) as [K _].
    rewrite persisted_updated by done.
    replace (arrays (set_localStorage storage s) k) with (arrays s k) by done.
    rewrite (column_array_arrays _ _ _ Ha).
    destruct (Inv_arrays s k I K) as [E D]. rewrite Ha in E. injection E as ->.
    by rewrite D.
Qed.



(** X7: [updateItem] on an index with no element in the column's list: the
    test [selectedColumnEl[index] === draggedItem] compares [undefined]
    with [draggedItem], so the call returns at once while nothing has been
    dragged yet and throws afterwards; a column that does not exist throws.
    Nothing is changed in either case. *)
Theorem updateItem_without_element s i c :
  (listColumns !! c ≫= fun u => children u s !! i) = None ->
  updateItem i c s
  = if decide (c < 4 /\ draggedItem s = None) then Ok tt s else Throw TypeError s.
Proof.
  intros E. destruct (listColumns !! c) as [u|] eqn:Hu; simpl in E.
  - rewrite (updateItem_no_item _ _ _ u) by done.
    apply lookup_lt_Some in Hu. simpl in Hu.
    destruct (draggedItem s).
    + rewrite decide_False; [done|]. by intros [_ ?].
    + by rewrite decide_True.
  - rewrite updateItem_no_column by done.
    apply lookup_ge_None_1 in Hu. simpl in Hu.
    rewrite decide_False; [done|]. intros [? _]. lia.
Qed.

Lemma on_page_updated s n : n ∈ on_page (updated s) -> length (nodes s) <= n.
Proof.
  unfold updated, after_updateDOM, on_page. simpl.
  rewrite !elem_of_app, !elem_of_seq. lia.
Qed.

Lemma draggedItem_updated s : draggedItem (updated s) = draggedItem s.
Proof. reflexivity. Qed.

(** X8: [drop] does not clear [draggedItem], and the render that ends it
    replaces every element of the page: after a drop [draggedItem] is
    still the element that was dropped, which is on the page no more, so
    no item of the page is the drag source and no edit is skipped for
    it. *)
Theorem drop_leaves_no_drag_source_on_page s s' :
  reachable s -> drop s = Ok tt s' ->
  draggedItem s' = draggedItem s
  /\ (exists el, draggedItem s' = Some el)
  /\ (forall n, n ∈ on_page s' -> draggedItem s' <> Some n)
  /\ (forall c i u el t,
        listColumns !! c = Some u -> children u s' !! i = Some el ->
        ~ skipped (OpEdit c i t) s').
Proof.
  intros R E. pose proof (reachable_Inv _ R) as I.
  destruct (currentColumn s ≫= fun c => listColumns !! c) as [u|] eqn:Hc.
  2: { rewrite drop_throws in E by (by left). discriminate E. }
  destruct (draggedItem s) as [el|] eqn:Hd.
  2: { rewrite drop_throws in E by (by right). discriminate E. }
  destruct (currentColumn s) as [B|] eqn:HB; [|done]. simpl in Hc.
  rewrite (drop_exact _ B u el) in E by done. injection E as <-.
  pose proof (inv_dragged _ I el Hd) as Lel.
  assert (Hd' : draggedItem (updated (rebuilt (reparented el B s))) = Some el).
  { rewrite draggedItem_updated. by destruct s. }
  assert (F : forall n, n ∈ on_page (updated (rebuilt (reparented el B s))) ->
                        draggedItem (updated (rebuilt (reparented el B s))) <> Some n).
  { intros n Hn%on_page_updated. rewrite Hd'. intros [= <-].
    replace (nodes (rebuilt (reparented el B s))) with (nodes s) in Hn
      by (by destruct s).
    lia. }
  split; [done|]. split; [eauto|]. split; [exact F|].
  intros c i v n t Hv Hi. unfold skipped. rewrite Hv. simpl. rewrite Hi.
  intros Eq. apply (F n); [|done].
  eapply children_on_page; [exact Hv|]. by eapply list_elem_of_lookup_2.
Qed.

(** X9: [drop] with nothing to drop or nowhere to drop it: when no column has
    been entered or no item has been picked up, [drop] throws a TypeError
    and the board is left as it was. *)
Theorem drop_without_drag_throws s :
  currentColumn s = None \/ draggedItem s = None ->
  drop s = Throw TypeError s.
Proof.
  intros [E|E]; apply drop_throws; [left|right]; [by rewrite E|done].
Qed.

(** *** The index in [onfocusout] *)

Lemma lookup_middle_seq {A} (pre r post : list A) n j x :
  seq n (length r) !! j = Some x -> n = length pre ->
  (pre ++ r ++ post) !! x = r !! j.
Proof.
  intros [-> Hj]%lookup_seq ->.
  rewrite lookup_app_r by lia. rewrite lookup_app_l by lia. f_equal. lia.
Qed.

Lemma lookup_end_seq {A} (pre r : list A) n j x :
  seq n (length r) !! j = Some x -> n = length pre -> (pre ++ r) !! x = r !! j.
Proof.
  intros Hj Hn. rewrite <- (lookup_middle_seq pre r [] n j x Hj Hn).
  by rewrite app_nil_r.
Qed.

(** The element at position [j] of a list after [updateDOM] is the [j]th
    of those rendered from the column's array. *)
Lemma element_at_updated s k u j el :
  listColumns !! k = Some u -> children u (updated s) !! j = Some el ->
  nodes (updated s) !! el = rendering k (arrays s k) 0 !! j.
Proof.
  intros Hu. unfold updated, after_updateDOM.
  destruct k as [|[|[|[|]]]]; simpl in Hu; try done; injection Hu as <-; simpl;
    intros Hj.
  - eapply lookup_middle_seq; [exact Hj|done].
  - rewrite (app_assoc (nodes s)).
    eapply lookup_middle_seq; [exact Hj|]. rewrite length_app. lia.
  - rewrite (app_assoc (nodes s)), (app_assoc (nodes s ++ _)).
    eapply lookup_middle_seq; [exact Hj|]. rewrite !length_app. lia.
  - rewrite (app_assoc (nodes s)), (app_assoc (nodes s ++ _)),
      (app_assoc ((nodes s ++ _) ++ _)).
    eapply lookup_end_seq; [exact Hj|]. rewrite !length_app. lia.
Qed.

Lemma rendering_dense_lookup c a : forall i j e,
  dense a -> rendering c a i !! j = Some e -> onfocusout e = (i + j, c).
Proof.
  induction a as [|x a IH]; intros i j e D E; [done|].
  apply dense_cons_inv in D as [(v & -> & N) D]. simpl in E.
  destruct j as [|j]; simpl in E.
  - injection E as <-. simpl. f_equal. lia.
  - rewrite (IH (S i) j e D E). f_equal. lia.
Qed.

Lemma rendering_dense_length c a i : dense a -> length (rendering c a i) = length a.
Proof.
  revert i. induction a as [|x a IH]; intros i D; [done|].
  apply dense_cons_inv in D as [(v & -> & N) D]. simpl. by rewrite IH.
Qed.

Lemma rendering_hole c a : forall h i,
  dense a -> rendering c (<[h := None]> a) i = delete h (rendering c a i).
Proof.
  induction a as [|x a IH]; intros h i D; [done|].
  apply dense_cons_inv in D as [(v & -> & N) D].
  destruct h as [|h]; simpl; [done|]. f_equal. by apply IH.
Qed.

(** After a render from arrays without holes and null items every item
    carries its own position. *)
Lemma onfocusout_updated s k u j el :
  (forall c, c < 4 -> dense (arrays s c)) ->
  listColumns !! k = Some u -> children u (updated s) !! j = Some el ->
  exists e, nodes (updated s) !! el = Some e /\ onfocusout e = (j, k).
Proof.
  intros D Hu Hj.
  assert (K : k < 4) by (apply lookup_lt_Some in Hu; exact Hu).
  pose proof (element_at_updated s k u j el Hu Hj) as E.
  assert (L : el < length (nodes (updated s))).
  { unfold updated, after_updateDOM in *.
    destruct k as [|[|[|[|]]]]; simpl in Hu; try done; injection Hu as <-;
      simpl in *; apply lookup_seq in Hj as [-> Hj]; rewrite !length_app; lia. }
  destruct (lookup_lt_is_Some_2 _ _ L) as [e He].
  exists e. split; [done|]. rewrite He in E. symmetry in E.
  by rewrite (rendering_dense_lookup k _ 0 j e (D k K) E).
Qed.

Lemma retype_updated s k u j el x :
  (forall c, c < 4 -> dense (arrays s c)) ->
  listColumns !! k = Some u -> children u (updated s) !! j = Some el ->
  retype el x (updated s) = editItem k j x (updated s).
Proof.
  intros D Hu Hj. destruct (onfocusout_updated s k u j el D Hu Hj) as (e & He & Ho).
  by apply (retype_at_position _ _ e _ _ u).
Qed.

(** X10: An item that is added or dropped is followed by a render from arrays
    that have no hole: every item of the page then carries its own
    position, so that its [focusout] is [editItem] at that position. *)
Theorem focusout_edits_the_item_at_its_position s s' :
  reachable s ->
  (exists c t, addItem c t s = Ok tt s') \/ drop s = Ok tt s' ->
  forall k u j el x,
    listColumns !! k = Some u -> children u s' !! j = Some el ->
    retype el x s' = editItem k j x s'.
Proof.
  intros R E k u j el x Hu Hj. pose proof (reachable_Inv _ R) as I.
  destruct E as [(c & t & E)|E].
  - destruct (decide (c < 4)) as [C|C].
    2: { rewrite addItem_no_column in E by (try done; lia). discriminate E. }
    destruct (decide (100 < String.length (trim t))).
    { rewrite addItem_too_long in E by done. injection E as <-.
      apply (retype_updated _ k u); [|done|done].
      intros c' C'. by destruct (Inv_arrays s c' I C'). }
    destruct (decide (String.length (trim t) = 0)).
    { rewrite addItem_blank in E by done. injection E as <-.
      apply (retype_updated _ k u); [|done|done].
      intros c' C'. by destruct (Inv_arrays s c' I C'). }
    destruct (Inv_column _ _ I C) as (l & a & Hv & _ & Ha & D).
    rewrite (addItem_valid _ _ _ l) in E by (try done; lia). injection E as <-.
    apply (retype_updated _ k u); [|done|done].
    intros c' C'.
    erewrite (column_array_arrays _ c')
      by (by apply (column_array_insert s _ c l); try done).
    destruct (decide (c' = c)) as [->|].
    + rewrite (column_array_arrays _ _ _ Ha). by apply dense_snoc.
    + by destruct (Inv_arrays s c' I C').
  - destruct (currentColumn s ≫= fun c => listColumns !! c) as [v|] eqn:Hc.
    2: { rewrite drop_throws in E by (by left). discriminate E. }
    destruct (draggedItem s) as [d|] eqn:Hd.
    2: { rewrite drop_throws in E by (by right). discriminate E. }
    destruct (currentColumn s) as [B|] eqn:HB; [|done]. simpl in Hc.
    rewrite (drop_exact _ B v d) in E by done. injection E as <-.
    apply (retype_updated _ k u); [|done|done].
    intros c' C'.
    destruct (lookup_lt_is_Some_2 listColumns c') as [w Hw]; [exact C'|].
    rewrite (column_array_arrays _ _ _ (column_array_rebuilt _ c' w Hw)).
    apply filter_not_null_texts.
Qed.

(** X11: The index is the one the item had before [filterArray] ran: once the
    item at [(c, i)] has been removed by an edit to the empty text, the
    items above it still carry their positions, and an item at a position
    [j] from [i] on carries [j + 1].  Its [focusout] therefore runs
    [updateItem(j + 1, c)], which for the last item of the list finds no
    element and, nothing having been dragged, returns without committing
    the text. *)
Theorem focusout_index_after_removal s c i u a s' :
  reachable s -> listColumns !! c = Some u ->
  column_array c s = Some a -> i < length a ->
  draggedItem s <> children u s !! i ->
  editItem c i "" s = Ok tt s' ->
  forall j el x, children u s' !! j = Some el ->
    (j < i -> retype el x s' = editItem c j x s')
    /\ (i <= j -> retype el x s' = updateItem (S j) c (retyped el x s'))
    /\ (i <= j -> S j = length a - 1 -> draggedItem s = None ->
        retype el x s' = Ok tt (retyped el x s')).
Proof.
  intros R Hu Ha Hi Hd E j el x Hj. pose proof (reachable_Inv _ R) as I.
  assert (C : c < 4) by (apply lookup_lt_Some in Hu; exact Hu).
  destruct (inv_arrays _ I c u Hu) as (a' & Ha' & D & Hlen).
  rewrite Ha in Ha'. injection Ha' as <-.
  destruct (lookup_lt_is_Some_2 (children u s) i) as [d Hel]; [lia|].
  rewrite Hel in Hd.
  destruct (column_array_inv _ _ _ Ha) as (_ & l & Hv & Hl).
  rewrite (editItem_committed _ _ _ u d _ l) in E by done. injection E as <-.
  rewrite (column_array_arrays _ _ _ Ha) in *. unfold edited in *. simpl in *.
  set (s0 := set_heap _ _) in *.
  assert (A0 : arrays s0 c = <[i := None]> a).
  { apply column_array_arrays.
    rewrite (column_array_insert s s0 c l (<[i := None]> a)) by done.
    by rewrite decide_True. }
  pose proof (element_at_updated s0 c u j el Hu Hj) as El.
  rewrite A0, rendering_hole in El by done.
  assert (Lc : length (children u (updated s0)) = length a - 1).
  { unfold updated, after_updateDOM.
    destruct c as [|[|[|[|]]]]; simpl in Hu; try done; injection Hu as <-; simpl;
      rewrite length_seq, A0, rendering_hole, length_delete, rendering_dense_length;
      try done; apply lookup_lt_is_Some_2; by rewrite rendering_dense_length. }
  assert (Lj : j < length a - 1) by (rewrite <- Lc; by eapply lookup_lt_Some).
  assert (Hr : forall j', j' < length a ->
             exists e, rendering c a 0 !! j' = Some e /\ onfocusout e = (j', c)).
  { intros j' L'.
    destruct (lookup_lt_is_Some_2 (rendering c a 0) j') as [e He];
      [by rewrite rendering_dense_length|].
    exists e. split; [done|]. by rewrite (rendering_dense_lookup c a 0 j' e D He). }
  assert (Hlt : j < i -> retype el x (updated s0) = editItem c j x (updated s0)).
  { intros Lt. rewrite list_lookup_delete_lt in El by done.
    destruct (Hr j) as (e & He & Ho); [lia|]. rewrite He in El.
    by apply (retype_at_position _ _ e _ _ u). }
  assert (Hge : i <= j ->
            retype el x (updated s0) = updateItem (S j) c (retyped el x (updated s0))).
  { intros Ge. rewrite list_lookup_delete_ge in El by done.
    destruct (Hr (S j)) as (e & He & Ho); [lia|]. rewrite He in El.
    rewrite retype_typed. unfold focusout. unfold bind at 1, gets.
    replace (nodes (retyped el x (updated s0)) !! el)
      with (Some (mkElement x (el_id e) (onfocusout e))).
    - by rewrite Ho.
    - unfold retyped. unfold_setters. by rewrite list_lookup_alter_eq, El. }
  split; [exact Hlt|]. split; [exact Hge|].
  intros Ge Last Nd. rewrite (Hge Ge).
  rewrite (updateItem_no_item _ _ _ u); [| done |].
  - replace (draggedItem (retyped el x (updated s0))) with (draggedItem s) by done.
    by rewrite Nd.
  - rewrite children_retyped. apply lookup_ge_None_2. lia.
Qed.

Lemma render_and_save_throws s k :
  dom_valid s -> k < 4 -> column_array k s = None ->
  exists s',
    render_and_save s = Throw TypeError s'
    /\ updatedOnLoad s' = updatedOnLoad s /\ localStorage s' = localStorage s.
Proof.
  intros V K N.
  destruct s as [ld v0 v1 v2 v3 la dr cc hp nd c0 c1 c2 c3 bx st al co].
  unfold render_and_save.
  unfold bind, clear, modify, gets, forEach.
  unfold set_children, set_backlogList. simpl.
  change (fun item index => createItemEl ?u ?c item index)
    with (createItemEl u c).
  destruct v0 as [l0|]; [|by eexists].
  destruct (hp !! l0) as [a0|] eqn:H0; [|by eexists].
  rewrite forEach_createItemEl by solve_valid V.
  unfold set_children, set_nodes, set_backlogList, set_progressList. simpl.
  destruct v1 as [l1|]; [|by eexists].
  destruct (hp !! l1) as [a1|] eqn:H1; [|by eexists].
  rewrite forEach_createItemEl by solve_valid V.
  unfold set_children, set_nodes, set_progressList, set_completeList. simpl.
  destruct v2 as [l2|]; [|by eexists].
  destruct (hp !! l2) as [a2|] eqn:H2; [|by eexists].
  rewrite forEach_createItemEl by solve_valid V.
  unfold set_children, set_nodes, set_completeList, set_onHoldList. simpl.
  destruct v3 as [l3|]; [|by eexists].
  destruct (hp !! l3) as [a3|] eqn:H3; [|by eexists].
  exfalso. unfold column_array in N.
  destruct k as [|[|[|[|]]]]; try lia; simpl in N; congruence.
Qed.

Lemma localStorage_with_defaults s : localStorage (with_defaults s) = localStorage s.
Proof. reflexivity. Qed.

Lemma localStorage_after_load s : localStorage (after_load s) = localStorage s.
Proof.
  unfold after_load. destruct (mode (localStorage s)); try done;
    destruct (truthy_item _); try done;
    by rewrite !localStorage_load_column.
Qed.

Lemma updatedOnLoad_load_column k name s :
  updatedOnLoad (load_column k name s) = updatedOnLoad s.
Proof.
  unfold load_column.
  destruct (loaded _), (_ ≫= JSON_parse), k as [|[|[|[|]]]]; reflexivity.
Qed.

Lemma updatedOnLoad_after_load s : updatedOnLoad (after_load s) = updatedOnLoad s.
Proof.
  unfold after_load. destruct (mode (localStorage s)); try done;
    destruct (truthy_item _); try done;
    by rewrite !updatedOnLoad_load_column.
Qed.

(** X12: A stored value that is valid JSON but not an array (a number other
    than 0, [true], a string that is not empty, an object) is taken as it
    is by [getSavedColumns]; having no [forEach], it makes the first
    [updateDOM] throw a TypeError.  The page is not marked as loaded and
    nothing is saved, so the store keeps the value. *)
Theorem page_load_throws_on_stored_non_array storage k name text j :
  mode storage <> Disabled ->
  truthy_item (items storage !! "backlogItems") = true ->
  key k = Some name -> items storage !! name = Some text ->
  JSON_parse text = Some j -> truthy j = true -> (forall a, j <> JArr a) ->
  exists s',
    updateDOM (initial storage) = Throw TypeError s'
    /\ updatedOnLoad s' = false /\ localStorage s' = storage.
Proof.
  intros A T Hk Hn Hp Ht Hj.
  rewrite updateDOM_unfold. unfold bind at 1, gets. simpl.
  unfold bind at 1. rewrite getSavedColumns_exact.
  pose proof (holds_after_load (initial storage) k name A T Hk) as Hh.
  simpl in Hh. rewrite Hn in Hh. unfold loaded in Hh. simpl in Hh.
  rewrite Hp, Ht in Hh.
  assert (N : column_array k (after_load (initial storage)) = None).
  { unfold column_array. destruct j; simpl in Hh; try (by rewrite Hh).
    by destruct (Hj a). }
  destruct (same_page_after_load (initial storage)) as (Sn & Sc & _).
  assert (V : dom_valid (after_load (initial storage))).
  { intros u. rewrite Sn, Sc. by destruct u; constructor. }
  destruct (render_and_save_throws _ k V (key_lt _ _ Hk) N) as (s' & E & L & St).
  exists s'. split; [exact E|].
  rewrite L, St, updatedOnLoad_after_load, localStorage_after_load. done.
Qed.

(** X13: The input box of the column is emptied whether the item is taken or
    not; the other boxes keep their text. *)
Theorem addItem_empties_the_input_box s c t :
  reachable s -> c < 4 ->
  exists s',
    addItem c t s = Ok tt s'
    /\ addItems s' !! c = Some ""
    /\ forall k, k <> c -> addItems s' !! k = addItems s !! k.
Proof.
  intros R C. pose proof (reachable_Inv _ R) as I.
  pose proof (inv_boxes _ I) as HB.
  assert (E : forall s0 : State,
            addItems s0 = <[c := ""]> (<[c := t]> (addItems s)) ->
            addItems (updated s0) !! c = Some ""
            /\ forall k, k <> c -> addItems (updated s0) !! k = addItems s !! k).
  { intros s0 E0. replace (addItems (updated s0)) with (addItems s0) by done.
    rewrite E0. split.
    - apply list_lookup_insert_eq. rewrite length_insert. lia.
    - intros k N. by rewrite !list_lookup_insert_ne. }
  destruct (decide (100 < String.length (trim t))).
  { eexists. split; [by apply addItem_too_long|]. by apply E. }
  destruct (decide (String.length (trim t) = 0)).
  { eexists. split; [by apply addItem_blank|]. by apply E. }
  destruct (Inv_column _ _ I C) as (l & a & Hv & _).
  eexists. split; [apply (addItem_valid _ _ _ l); try done; lia|]. by apply E.
Qed.

(** X14: [listArrays] lists the arrays of the four columns themselves: in every
    reachable state its entry for a column is the array object that the
    column's variable refers to, and the four objects are different, so a
    write through [listArrays[column]] reaches that column and no other. *)
Theorem listArrays_are_the_column_arrays s :
  reachable s ->
  listArrays s = [backlogListArray s; progressListArray s; completeListArray s;
                  onHoldListArray s]
  /\ (forall k, k < 4 ->
        exists l a, listArrays s !! k = Some (VRef l) /\ variable k s = Some (VRef l)
                    /\ heap s !! l = Some a /\ column_array k s = Some a)
  /\ (forall j k l, listArrays s !! j = Some (VRef l) ->
        listArrays s !! k = Some (VRef l) -> j = k).
Proof.
  intros R. pose proof (reachable_Inv _ R) as I.
  split; [apply I|]. split.
  - intros k K. destruct (Inv_column _ _ I K) as (l & a & Hv & Hl & Ha & _).
    exists l, a. by rewrite Inv_listArrays.
  - intros j k l. rewrite !Inv_listArrays by done. apply I.
Qed.

(** X15: An element of the page is in one list, at one place: [appendChild]
    moves an element and each render makes new ones. *)
Theorem page_element_is_in_one_list s j k u v m n el :
  reachable s ->
  listColumns !! j = Some u -> listColumns !! k = Some v ->
  children u s !! m = Some el -> children v s !! n = Some el ->
  j = k /\ m = n /\ el < length (nodes s).
Proof.
  intros R Hu Hv Hm Hn. pose proof (reachable_Inv _ R) as I.
  assert (Em : el ∈ children u s) by (by eapply list_elem_of_lookup_2).
  assert (En : el ∈ children v s) by (by eapply list_elem_of_lookup_2).
  assert (E : j = k).
  { destruct (decide (j = k)) as [|N]; [done|]. exfalso.
    by apply (on_page_disjoint s j k u v el (inv_nodup _ I) Hu Hv N Em). }
  subst k. rewrite Hu in Hv. injection Hv as <-.
  split; [done|]. split.
  - eapply NoDup_lookup; [|exact Hm|exact Hn].
    by eapply NoDup_on_page_list; [apply I|].
  - apply on_page_valid; [apply I|]. by eapply children_on_page.
Qed.

Lemma persisted_Inv s k :
  Inv s -> mode (localStorage s) = Available ->
  persisted k s = (fun a => JSON_stringify (JArr a)) <$> column_array k s.
Proof.
  intros I A. destruct (decide (k < 4)) as [K|K].
  - destruct (Inv_arrays s k I K) as [E _]. rewrite E. simpl.
    by apply (inv_sync _ I).
  - by rewrite persisted_ge, column_array_ge by lia.
Qed.

(** After a render no element of the page is the one in [draggedItem]. *)
Lemma not_dragged_updated s u i el :
  (forall n, draggedItem s = Some n -> n < length (nodes s)) ->
  forall k, listColumns !! k = Some u -> children u (updated s) !! i = Some el ->
  draggedItem (updated s) <> Some el.
Proof.
  intros Hd k Hu Hi E.
  assert (P : el ∈ on_page (updated s)).
  { eapply children_on_page; [exact Hu|]. by eapply list_elem_of_lookup_2. }
  apply on_page_updated in P. apply Hd in E. lia.
Qed.

(** X16: Adding an item and then removing it, by an edit of the new last item
    of the column to the empty text, gives back the sequences of all four
    columns, and the stored values when the store takes the writes. *)
Theorem addItem_then_removal_restores_the_board s c t a :
  reachable s -> column_array c s = Some a ->
  1 <= String.length (trim t) <= 100 ->
  exists s1 s2,
    addItem c t s = Ok tt s1
    /\ editItem c (length a) "" s1 = Ok tt s2
    /\ (forall k, column_array k s2 = column_array k s)
    /\ (mode (localStorage s) = Available ->
        forall k, persisted k s2 = persisted k s).
Proof.
  intros R Ha Ht. pose proof (reachable_Inv _ R) as I.
  destruct (column_array_inv _ _ _ Ha) as (C & l & Hv & Hl).
  destruct (Inv_arrays s c I C) as [Ea D]. rewrite Ha in Ea. injection Ea as Ea.
  pose proof (Inv_step (AddItem c t) s I Logic.I) as I1. simpl in I1.
  rewrite (addItem_valid _ _ _ l) in I1 by (try done; lia). simpl in I1.
  set (s0 := set_addItems _ _) in I1.
  assert (A1 : forall k, column_array k (updated s0)
                         = if decide (k = c) then Some (a ++ [Some (JStr (trim t))])
                           else column_array k s).
  { intros k. unfold s0.
    rewrite (column_array_updated_insert s _ c l (a ++ [Some (JStr (trim t))]));
      [|done|done|done|done|by rewrite <- Ea].
    destruct (decide (k = c)); [|done]. f_equal. apply dense_snoc; [|done].
    by rewrite Ea. }
  destruct (lookup_lt_is_Some_2 listColumns c) as [u Hu]; [exact C|].
  destruct (inv_arrays _ I1 c u Hu) as (a1 & Ha1 & D1 & Hlen).
  rewrite A1, decide_True in Ha1 by done. injection Ha1 as <-.
  rewrite length_app in Hlen. simpl in Hlen.
  destruct (lookup_lt_is_Some_2 (children u (updated s0)) (length a)) as [el Hel];
    [lia|].
  destruct (Inv_column _ _ I1 C) as (l1 & a1 & Hv1 & Hl1 & Ha1 & _).
  assert (Nd : draggedItem (updated s0) <> Some el).
  { apply (not_dragged_updated s0 u (length a) el) with (k := c); [|done|done].
    apply (inv_dragged _ I). }
  pose proof (Inv_step (EditItem c (length a) "") _ I1 Logic.I) as I2. simpl in I2.
  rewrite (editItem_committed _ _ _ u el _ l1) in I2 by done. simpl in I2.
  exists (updated s0). eexists.
  split; [apply (addItem_valid _ _ _ l); try done; lia|].
  split; [by apply (editItem_committed _ _ _ u el _ l1)|].
  assert (A2 : forall k,
            column_array k
              (updated (set_heap (<[l1 := edited (arrays (updated s0) c) (length a) ""]>
                                    (heap (updated s0)))
                          (retyped el "" (updated s0))))
            = column_array k s).
  { intros k.
    rewrite (column_array_updated_insert (updated s0) _ c l1
               (edited (arrays (updated s0) c) (length a) "")) by done.
    rewrite A1. destruct (decide (k = c)) as [->|]; [|done].
    rewrite Ha. f_equal.
    rewrite (column_array_arrays _ _ _ (eq_trans (A1 c) ltac:(by rewrite decide_True))).
    unfold edited. simpl. rewrite filter_not_null_delete by done.
    by rewrite delete_middle, app_nil_r. }
  split; [exact A2|].
  intros Av k. rewrite (persisted_Inv s k I Av).
  rewrite persisted_Inv; [by rewrite A2|exact I2|].
  rewrite mode_updated.
  replace (mode (localStorage (set_heap _ (retyped el "" (updated s0)))))
    with (mode (localStorage (updated s0))) by done.
  rewrite mode_updated. exact Av.
Qed.

Lemma texts_map els l : texts els l = map (fun x => Some (JStr x)) (map (node_text els) l).
Proof. unfold texts. by rewrite map_map. Qed.

Lemma map_delete {A B} (f : A -> B) i l : map f (delete i l) = delete i (map f l).
Proof.
  revert i. induction l as [|x l IH]; intros [|i]; simpl; try done. by rewrite IH.
Qed.

Lemma map_lookup {A B} (f : A -> B) l i : map f l !! i = f <$> l !! i.
Proof.
  revert i. induction l as [|x l IH]; intros [|i]; simpl; done.
Qed.

(** The board after a move: what each column holds and shows. *)
Lemma moveItem_result s A B i uA uB el :
  Inv s -> listColumns !! A = Some uA -> listColumns !! B = Some uB ->
  children uA s !! i = Some el ->
  exists s',
    moveItem A B el s = Ok tt s' /\ Inv s'
    /\ forall k u, listColumns !! k = Some u ->
         column_array k s'
         = Some (texts (nodes s) (after_drop el B k (children u s)))
         /\ map (fun n => text_at n s') (children u s')
            = map (node_text (nodes s)) (after_drop el B k (children u s)).
Proof.
  intros I HA HB Hi.
  assert (Hel : el ∈ children uA s) by (by eapply list_elem_of_lookup_2).
  assert (P : el ∈ on_page s) by (eapply children_on_page; [exact HA|exact Hel]).
  pose proof (Inv_step (Drag el) s I P) as I1.
  pose proof (Inv_step (DragEnter B) _ I1 Logic.I) as I2.
  pose proof (Inv_step Drop _ I2 Logic.I) as I3.
  simpl in I1, I2, I3. unfold drag, modify in I1, I2, I3. simpl in I2, I3.
  unfold dragEnter in I2, I3. rewrite HB in I2, I3. unfold modify in I2, I3.
  simpl in I2, I3.
  rewrite (drop_exact _ B uB el) in I3 by done. simpl in I3.
  eexists. split; [by eapply moveItem_exact|]. split; [exact I3|].
  intros k u Hu.
  assert (K : k < 4) by (apply lookup_lt_Some in Hu; exact Hu).
  set (S2 := rebuilt _).
  assert (E : column_array k S2
              = Some (texts (nodes s) (after_drop el B k (children u s)))).
  { unfold S2. rewrite (column_array_rebuilt _ k u Hu).
    rewrite (children_reparented _ _ k u) by done.
    by destruct u, s. }
  pose proof (rendered_updated S2 k K) as Rn.
  rewrite column_array_updated by done.
  rewrite (column_array_arrays _ _ _ E), filter_not_null_texts, shown_texts in *.
  split; [done|]. unfold rendered in Rn. rewrite Hu in Rn. simpl in Rn.
  by injection Rn.
Qed.

(** X17: Moving the last item of a column to another column and moving it back
    gives the board that the page showed: every column's sequence is the
    texts of its list as they were, in their order. *)
Theorem moveItem_there_and_back s A B uA uB i el :
  reachable s -> A <> B ->
  listColumns !! A = Some uA -> listColumns !! B = Some uB ->
  children uA s !! i = Some el -> S i = length (children uA s) ->
  exists s1 el1 s2,
    moveItem A B el s = Ok tt s1
    /\ children uB s1 !! length (children uB s) = Some el1
    /\ moveItem B A el1 s1 = Ok tt s2
    /\ forall k u, listColumns !! k = Some u ->
         column_array k s2 = Some (texts (nodes s) (children u s))
         /\ rendered k s2 = rendered k s.
Proof.
  intros R N HA HB Hi Last. pose proof (reachable_Inv _ R) as I.
  assert (Hel : el ∈ children uA s) by (by eapply list_elem_of_lookup_2).
  destruct (moveItem_result s A B i uA uB el I HA HB Hi) as (s1 & E1 & I1 & C1).
  (* the lists after the first move *)
  assert (LA : after_drop el B A (children uA s) = delete i (children uA s)).
  { unfold after_drop. rewrite decide_False by done.
    apply remove_node_delete; [|done]. by eapply NoDup_on_page_list; [apply I|]. }
  assert (LB : after_drop el B B (children uB s) = children uB s ++ [el]).
  { unfold after_drop. rewrite decide_True by done. f_equal.
    apply remove_node_notin.
    eapply on_page_disjoint; [apply (inv_nodup _ I)|exact HA|exact HB|done|done]. }
  assert (LO : forall k u, listColumns !! k = Some u -> k <> A -> k <> B ->
                 after_drop el B k (children u s) = children u s).
  { intros k u Hu NA NB. unfold after_drop. rewrite decide_False by done.
    apply remove_node_notin.
    eapply on_page_disjoint; [apply (inv_nodup _ I)|exact HA|exact Hu|done|done]. }
  destruct (C1 B uB HB) as [_ TB]. rewrite LB in TB.
  assert (LenB : length (children uB s1) = S (length (children uB s))).
  { apply (f_equal length) in TB. rewrite !length_map, length_app in TB.
    simpl in TB. lia. }
  destruct (lookup_lt_is_Some_2 (children uB s1) (length (children uB s)))
    as [el1 H1]; [lia|].
  assert (Hel1 : el1 ∈ children uB s1) by (by eapply list_elem_of_lookup_2).
  assert (T1 : text_at el1 s1 = node_text (nodes s) el).
  { apply (f_equal (fun l => l !! length (children uB s))) in TB.
    rewrite !map_lookup, H1, lookup_app_r, Nat.sub_diag in TB by lia.
    simpl in TB. by injection TB. }
  destruct (moveItem_result s1 B A _ uB uA el1 I1 HB HA H1) as (s2 & E2 & I2 & C2).
  exists s1, el1, s2. split; [done|]. split; [done|]. split; [done|].
  intros k u Hu. destruct (C2 k u Hu) as [Ck Tk].
  assert (G : map (node_text (nodes s1)) (after_drop el1 A k (children u s1))
              = map (node_text (nodes s)) (children u s)).
  { destruct (C1 k u Hu) as [_ T].
    change (fun n => text_at n s1) with (node_text (nodes s1)) in T.
    destruct (decide (k = B)) as [->|NB]; [|destruct (decide (k = A)) as [->|NA]].
    - rewrite HB in Hu. injection Hu as <-.
      unfold after_drop. rewrite decide_False by done.
      rewrite (remove_node_delete _ _ (length (children uB s)));
        [|by eapply NoDup_on_page_list; [apply I1|]|done].
      rewrite map_delete, T, LB, map_app. simpl.
      rewrite <- (length_map (node_text (nodes s))).
      by rewrite delete_middle, app_nil_r.
    - rewrite HA in Hu. injection Hu as <-.
      unfold after_drop. rewrite decide_True by done.
      rewrite remove_node_notin.
      2: { eapply on_page_disjoint;
             [apply (inv_nodup _ I1)|exact HB|exact HA|done|done]. }
      rewrite map_app, T, LA. simpl.
      change (node_text (nodes s1) el1) with (text_at el1 s1). rewrite T1.
      destruct (children uA s) as [|x l] eqn:Ec using rev_ind; [done|].
      clear IHl. rewrite length_app in Last. simpl in Last.
      assert (i = length l) by lia. subst i.
      rewrite lookup_app_r, Nat.sub_diag in Hi by lia. injection Hi as ->.
      by rewrite delete_middle, app_nil_r, map_app.
    - unfold after_drop. rewrite decide_False by done.
      rewrite remove_node_notin.
      2: { eapply on_page_disjoint;
             [apply (inv_nodup _ I1)|exact HB|exact Hu|done|done]. }
      rewrite T. by rewrite LO. }
  split.
  - by rewrite Ck, texts_map, G, <- texts_map.
  - unfold rendered. rewrite Hu. simpl. f_equal. rewrite Tk. exact G.
Qed.

Lemma legacy_column_exact k name s j :
  mode (localStorage s) <> Disabled ->
  items (localStorage s) !! name ≫= JSON_parse = Some j -> truthy j = true ->
  (a <- Legacy.parse_item name ;; modify (set_variable k a)) s
  = Ok tt (load_column k name s).
Proof.
  intros A E T. unfold bind at 1, Legacy.parse_item. unfold bind at 1, getItem.
  destruct (mode (localStorage s)); [| |done];
    unfold load_column, loaded; rewrite E, T; destruct j; try discriminate T;
    reflexivity.
Qed.

Lemma legacy_column_throws k name s :
  mode (localStorage s) <> Disabled ->
  items (localStorage s) !! name ≫= JSON_parse = None ->
  (a <- Legacy.parse_item name ;; modify (set_variable k a)) s
  = Throw SyntaxError s.
Proof.
  intros A E. unfold bind at 1, Legacy.parse_item. unfold bind at 1, getItem.
  destruct (mode (localStorage s)); [| |done]; by rewrite E.
Qed.

Lemma legacy_column_cases k name s :
  mode (localStorage s) <> Disabled ->
  (exists s', (a <- Legacy.parse_item name ;; modify (set_variable k a)) s = Ok tt s'
              /\ localStorage s' = localStorage s)
  \/ (a <- Legacy.parse_item name ;; modify (set_variable k a)) s
     = Throw SyntaxError s.
Proof.
  intros A. destruct (items (localStorage s) !! name ≫= JSON_parse) as [j|] eqn:E.
  - left. unfold bind at 1, Legacy.parse_item. unfold bind at 1, getItem.
    destruct (mode (localStorage s)); [| |done]; rewrite E;
      destruct j, k as [|[|[|[|]]]]; eexists; split; reflexivity.
  - right. by apply legacy_column_throws.
Qed.

(** X18: On a store that can be read and whose four values parse to truthy
    values the two versions of [getSavedColumns] do the same. *)
Theorem legacy_getSavedColumns_agrees_on_good_data s :
  mode (localStorage s) <> Disabled ->
  (truthy_item (items (localStorage s) !! "backlogItems") = true ->
   forall k name, key k = Some name ->
     exists j, items (localStorage s) !! name ≫= JSON_parse = Some j
               /\ truthy j = true) ->
  Legacy.getSavedColumns s = getSavedColumns s.
Proof.
  intros A G. rewrite getSavedColumns_exact. unfold Legacy.getSavedColumns, after_load.
  unfold bind at 1. unfold getItem at 1.
  assert (E : forall X Y : State,
            match mode (localStorage s) with
            | Disabled => X
            | _ => Y
            end = Y) by (intros; by destruct (mode (localStorage s))).
  rewrite E.
  assert (E' : forall X Y : result unit,
            match mode (localStorage s) with
            | Disabled => X
            | _ => Y
            end = Y) by (intros; by destruct (mode (localStorage s))).
  transitivity
    ((if truthy_item (items (localStorage s) !! "backlogItems") then
        (a <- Legacy.parse_item "backlogItems" ;; modify (set_backlogListArray a)) ;;
        (a <- Legacy.parse_item "progressItems" ;; modify (set_progressListArray a)) ;;
        (a <- Legacy.parse_item "completeItems" ;; modify (set_completeListArray a)) ;;
        (a <- Legacy.parse_item "onHoldItems" ;; modify (set_onHoldListArray a))
      else set_defaults) s).
  { by destruct (mode (localStorage s)). }
  destruct (truthy_item _) eqn:T; [|apply set_defaults_exact].
  destruct (G eq_refl 0 _ eq_refl) as (j0 & P0 & T0).
  destruct (G eq_refl 1 _ eq_refl) as (j1 & P1 & T1).
  destruct (G eq_refl 2 _ eq_refl) as (j2 & P2 & T2).
  destruct (G eq_refl 3 _ eq_refl) as (j3 & P3 & T3).
  erewrite bind_Ok by (by apply (legacy_column_exact 0 _ _ j0)).
  erewrite bind_Ok
    by (apply (legacy_column_exact 1 _ _ j1); by rewrite ?localStorage_load_column).
  erewrite bind_Ok
    by (apply (legacy_column_exact 2 _ _ j2); by rewrite ?localStorage_load_column).
  apply (legacy_column_exact 3 _ _ j3); by rewrite ?localStorage_load_column.
Qed.

(** X19: Where the current [getSavedColumns] returns, the first version
    throws: a DOMException when the store cannot be read, and a
    SyntaxError when "backlogItems" is there and one of the four values is
    missing or is not valid JSON. *)
Theorem legacy_getSavedColumns_throws s :
  (mode (localStorage s) = Disabled ->
   Legacy.getSavedColumns s = Throw DOMException s)
  /\ (mode (localStorage s) <> Disabled ->
      truthy_item (items (localStorage s) !! "backlogItems") = true ->
      forall k name, key k = Some name ->
        items (localStorage s) !! name ≫= JSON_parse = None ->
        exists s', Legacy.getSavedColumns s = Throw SyntaxError s').
Proof.
  split.
  - intros D. unfold Legacy.getSavedColumns. unfold bind at 1, getItem. by rewrite D.
  - intros A T k name Hk E.
    assert (Start : Legacy.getSavedColumns s
              = ((a <- Legacy.parse_item "backlogItems" ;; modify (set_variable 0 a)) ;;
                 (a <- Legacy.parse_item "progressItems" ;; modify (set_variable 1 a)) ;;
                 (a <- Legacy.parse_item "completeItems" ;; modify (set_variable 2 a)) ;;
                 (a <- Legacy.parse_item "onHoldItems" ;; modify (set_variable 3 a))) s).
    { unfold Legacy.getSavedColumns. unfold bind at 1. unfold getItem at 1.
      destruct (mode (localStorage s)); [| |done]; by rewrite T. }
    rewrite Start. clear Start.
    assert (Step : forall j nm (s0 : State) (rest : M unit),
              localStorage s0 = localStorage s ->
              (exists s1, ((a <- Legacy.parse_item nm ;; modify (set_variable j a)) ;; rest) s0
                          = rest s1 /\ localStorage s1 = localStorage s)
              \/ ((a <- Legacy.parse_item nm ;; modify (set_variable j a)) ;; rest) s0
                 = Throw SyntaxError s0).
    { intros j nm s0 rest L.
      destruct (legacy_column_cases j nm s0) as [(s1 & E1 & L1)|E1];
        [by rewrite L| |].
      - left. exists s1. split; [by erewrite bind_Ok by exact E1|]. by rewrite L1.
      - right. by erewrite bind_Throw by exact E1. }
    assert (Fail : forall j nm (s0 : State),
              localStorage s0 = localStorage s ->
              items (localStorage s) !! nm ≫= JSON_parse = None ->
              (a <- Legacy.parse_item nm ;; modify (set_variable j a)) s0
              = Throw SyntaxError s0).
    { intros j nm s0 L F. apply legacy_column_throws; by rewrite L. }
    destruct k as [|[|[|[|]]]]; try done; injection Hk as <-.
    + eexists. erewrite bind_Throw; [done|]. by apply Fail.
    + destruct (Step 0 "backlogItems" s
                  ((a <- Legacy.parse_item "progressItems" ;; modify (set_variable 1 a)) ;;
                   (a <- Legacy.parse_item "completeItems" ;; modify (set_variable 2 a)) ;;
                   (a <- Legacy.parse_item "onHoldItems" ;; modify (set_variable 3 a)))
                  eq_refl) as [(s1 & -> & L1)| ->]; [|eauto].
      eexists. erewrite bind_Throw; [done|]. by apply Fail.
    + destruct (Step 0 "backlogItems" s
                  ((a <- Legacy.parse_item "progressItems" ;; modify (set_variable 1 a)) ;;
                   (a <- Legacy.parse_item "completeItems" ;; modify (set_variable 2 a)) ;;
                   (a <- Legacy.parse_item "onHoldItems" ;; modify (set_variable 3 a)))
                  eq_refl) as [(s1 & -> & L1)| ->]; [|eauto].
      destruct (Step 1 "progressItems" s1
                  ((a <- Legacy.parse_item "completeItems" ;; modify (set_variable 2 a)) ;;
                   (a <- Legacy.parse_item "onHoldItems" ;; modify (set_variable 3 a)))
                  L1) as [(s2 & -> & L2)| ->]; [|eauto].
      eexists. erewrite bind_Throw; [done|]. by apply Fail.
    + destruct (Step 0 "backlogItems" s
                  ((a <- Legacy.parse_item "progressItems" ;; modify (set_variable 1 a)) ;;
                   (a <- Legacy.parse_item "completeItems" ;; modify (set_variable 2 a)) ;;
                   (a <- Legacy.parse_item "onHoldItems" ;; modify (set_variable 3 a)))
                  eq_refl) as [(s1 & -> & L1)| ->]; [|eauto].
      destruct (Step 1 "progressItems" s1
                  ((a <- Legacy.parse_item "completeItems" ;; modify (set_variable 2 a)) ;;
                   (a <- Legacy.parse_item "onHoldItems" ;; modify (set_variable 3 a)))
                  L1) as [(s2 & -> & L2)| ->]; [|eauto].
      destruct (Step 2 "completeItems" s2
                  (a <- Legacy.parse_item "onHoldItems" ;; modify (set_variable 3 a))
                  L2) as [(s3 & -> & L3)| ->]; [|eauto].
      eexists. by apply Fail.
Qed.

(** X20: Saving: the first version writes what the current one writes when the
    store takes the writes, and throws the DOMException of [setItem],
    which the current version catches, when it does not. *)
Theorem legacy_updateSavedColumns_agrees_or_throws s :
  (mode (localStorage s) = Available ->
   Legacy.updateSavedColumns s = updateSavedColumns s)
  /\ (mode (localStorage s) <> Available ->
      Legacy.updateSavedColumns s
      = Throw DOMException
          (set_listArrays [backlogListArray s; progressListArray s;
                           completeListArray s; onHoldListArray s] s)
      /\ exists s', updateSavedColumns s = Ok tt s').
Proof.
  destruct s as [ld v0 v1 v2 v3 la dr cc hp nd c0 c1 c2 c3 bx [m it] al co].
  split; intros A; simpl in A; destruct m; try done.
  - split; [reflexivity|]. by eexists.
  - split; [reflexivity|]. by eexists.
Qed.

End Proofs.

(** * The claims on concrete boards *)

Module Run.

Import Example.

Lemma reachable_opened : @reachable RefJSON.json opened.
Proof. apply (reachable_load empty_store). vm_compute. reflexivity. Defined.

Lemma reachable_opened_unsaved : @reachable RefJSON.json opened_unsaved.
Proof. apply (reachable_load full_store). vm_compute. reflexivity. Defined.

Lemma reachable_added_unsaved : @reachable RefJSON.json added_unsaved.
Proof.
  apply (@reachable_event RefJSON.json (AddItem 1 "Ship v2"));
    [apply reachable_opened_unsaved | exact I].
Defined.

Lemma reachable_dragging : @reachable RefJSON.json dragging.
Proof.
  apply (@reachable_event RefJSON.json (Drag 0)); [apply reachable_opened|].
  vm_compute. by left.
Defined.

Lemma reachable_cleared_and_dropped : @reachable RefJSON.json cleared_and_dropped.
Proof.
  apply (@reachable_event RefJSON.json Drop); [|exact I].
  apply (@reachable_event RefJSON.json (DragEnter 1)); [|exact I].
  apply (@reachable_event RefJSON.json (EditItem 0 0 "")); [|exact I].
  apply reachable_dragging.
Defined.

(** The index written by [createItemEl] can be out of date: once the first
    Backlog item is removed, the one that is left, now first of its list
    and of its array, still calls [updateItem(1, "0")]. Emptying it changes
    the page only, where [editItem 0 0] removes it. *)
Lemma index_of_focusout_after_removal :
  column_array 0 first_removed = Some [Some (JStr "Sit back and relax")]
  /\ children backlog_list first_removed = [7]
  /\ onfocusout <$> nodes first_removed !! 7 = Some (1, 0)
  /\ (exists s',
        @retype RefJSON.json 7 "" first_removed = Ok tt s'
        /\ column_array 0 s' = Some [Some (JStr "Sit back and relax")]
        /\ rendered 0 s' = Some [""])
  /\ (exists s',
        @editItem RefJSON.json 0 0 "" first_removed = Ok tt s'
        /\ column_array 0 s' = Some []
        /\ rendered 0 s' = Some []).
Proof.
  repeat split; try (vm_compute; reflexivity);
    eexists; (split; [vm_compute; reflexivity|]); split; vm_compute; reflexivity.
Qed.

(** C1 fails on a store that takes no writes: the first Backlog item is
    moved to Progress, whose sequence then ends with it, and nothing is
    persisted for either column. *)
Lemma moveItem_persists_nothing_on_full_store :
  @reachable RefJSON.json opened_unsaved
  /\ children backlog_list opened_unsaved !! 0 = Some 0
  /\ exists s',
       @moveItem RefJSON.json 0 1 0 opened_unsaved = Ok tt s'
       /\ column_array 0 s' = Some [Some (JStr "Sit back and relax")]
       /\ column_array 1 s'
          = Some [Some (JStr "Work on projects"); Some (JStr "Listen to music");
                  Some (JStr "Release the course")]
       /\ persisted 0 s' = None /\ persisted 1 s' = None.
Proof.
  split; [apply reachable_opened_unsaved|]. split; [reflexivity|].
  eexists. split; [vm_compute; reflexivity|].
  repeat split; vm_compute; reflexivity.
Qed.

Lemma moveItem_appends_and_rebuilds_all_witness :
  exists s',
    @moveItem RefJSON.json 0 1 0 opened = Ok tt s'
    /\ column_array 1 s'
       = Some (texts (nodes opened)
                 (after_drop 0 1 1 (children progress_list opened)))
    /\ persisted 1 s'
       = Some (RefJSON.stringify
                 (JArr (texts (nodes opened)
                          (after_drop 0 1 1 (children progress_list opened))))).
Proof.
  destruct (@moveItem_appends_and_rebuilds_all RefJSON.json opened 0 1 0
              backlog_list progress_list 0 reachable_opened eq_refl eq_refl eq_refl)
    as (s' & E & Hall & _).
  exists s'. split; [exact E|].
  destruct (Hall 1 progress_list eq_refl) as (Hc & _ & Hp).
  split; [exact Hc|]. exact (Hp eq_refl).
Defined.


(** C2 fails on a corrupt value: with a Backlog value that is not JSON,
    [load] gives an empty Backlog, not the seed. *)
Lemma load_of_corrupt_backlog_is_not_the_seed :
  RefJSON.parse "{oops" = None
  /\ exists s',
       @load RefJSON.json (initial corrupt_store) = Ok tt s'
       /\ column_array 0 s' = Some []
       /\ column_array 0 s' <> seed 0.
Proof.
  split; [vm_compute; reflexivity|].
  eexists. split; [vm_compute; reflexivity|]. split; [vm_compute; reflexivity|].
  vm_compute. discriminate.
Qed.

Lemma load_seeds_when_missing_and_never_fails_witness :
  (exists s', @load RefJSON.json (initial empty_store) = Ok tt s'
              /\ forall k, column_array k s' = seed k)
  /\ (exists s', @load RefJSON.json (initial corrupt_store) = Ok tt s'
                 /\ column_array 0 s' = Some []).
Proof.
  split.
  - destruct (@load_seeds_when_missing_and_never_fails RefJSON.json
                (initial empty_store)) as (s' & E & Hseed & _).
    exists s'. split; [exact E|]. apply Hseed. right. reflexivity.
  - destruct (@load_seeds_when_missing_and_never_fails RefJSON.json
                (initial corrupt_store)) as (s' & E & _ & Hcol).
    exists s'. split; [exact E|].
    apply (Hcol ltac:(discriminate) eq_refl 0 "backlogItems" eq_refl).
    vm_compute. reflexivity.
Defined.

(** C3 fails when an item whose text was cleared is dropped: the empty
    string is read back from the page and persisted under Progress. *)
Lemma empty_item_persisted_after_drop :
  @reachable RefJSON.json cleared_and_dropped
  /\ @persisted_empty_item RefJSON.json 1 cleared_and_dropped.
Proof.
  split; [apply reachable_cleared_and_dropped|].
  exists (RefJSON.stringify
            (JArr [Some (JStr "Work on projects"); Some (JStr "Listen to music");
                   Some (JStr "")])),
    [Some (JStr "Work on projects"); Some (JStr "Listen to music"); Some (JStr "")].
  split; [vm_compute; reflexivity|]. split; [vm_compute; reflexivity|].
  do 2 right. left.
Qed.

Lemma no_empty_item_opened : no_empty_item opened.
Proof.
  intros k a Ha. destruct k as [|[|[|[|]]]]; vm_compute in Ha;
    [injection Ha as <-; intros Hx;
     repeat (apply elem_of_cons in Hx as [[=]|Hx]); by apply elem_of_nil in Hx ..
    |discriminate Ha].
Defined.

Lemma null_items_are_never_persisted_witness :
  (exists a, column_array 0 opened = Some a /\ (None ∉ a) /\ (Some JNull ∉ a)
             /\ persisted 0 opened = Some (RefJSON.stringify (JArr a)))
  /\ no_empty_item (state_of (@addItem RefJSON.json 0 "Plan" opened))
  /\ no_empty_item (state_of (@editItem RefJSON.json 0 0 "" opened)).
Proof.
  destruct (@null_items_are_never_persisted RefJSON.json opened reachable_opened)
    as [Hall Hkeep].
  split.
  - destruct (Hall 0 ltac:(lia)) as (a & Ha & Hh & Hn & Hp).
    exists a. split; [exact Ha|]. split; [exact Hh|]. split; [exact Hn|].
    exact (Hp eq_refl).
  - destruct (Hkeep no_empty_item_opened) as [Hadd Hedit].
    split; [apply Hadd|apply Hedit].
Defined.

(** C4 fails on a store that takes no writes: the board with "Ship v2"
    added is saved, and a fresh load gives the seed Progress back. *)
Lemma round_trip_fails_on_full_store :
  @reachable RefJSON.json added_unsaved
  /\ column_array 1 added_unsaved
     = Some [Some (JStr "Work on projects"); Some (JStr "Listen to music");
             Some (JStr "Ship v2")]
  /\ exists s1 s2,
       @save RefJSON.json added_unsaved = Ok tt s1
       /\ @load RefJSON.json (initial (localStorage s1)) = Ok tt s2
       /\ column_array 1 s2 = Some seed_progress
       /\ column_array 1 s2 <> column_array 1 added_unsaved.
Proof.
  split; [apply reachable_added_unsaved|]. split; [vm_compute; reflexivity|].
  eexists. eexists. split; [vm_compute; reflexivity|].
  split; [vm_compute; reflexivity|]. split; [vm_compute; reflexivity|].
  vm_compute. discriminate.
Qed.

Lemma save_then_fresh_load_round_trip_witness :
  exists s1 s2,
    @save RefJSON.json opened = Ok tt s1
    /\ @load RefJSON.json (initial (localStorage s1)) = Ok tt s2
    /\ forall k, column_array k s2 = column_array k opened.
Proof.
  apply (@save_then_fresh_load_round_trip RefJSON.json opened reachable_opened eq_refl).
  intros k a Ha. destruct k as [|[|[|[|]]]]; vm_compute in Ha;
    [injection Ha as <-; vm_compute; (split; [reflexivity|discriminate]) ..
    |discriminate Ha].
Defined.

(** C9 fails on a store that takes no writes, where nothing is persisted
    for the column that got an item, and for an edit that is skipped, after
    which the page shows a text that the array does not have. *)
Lemma page_and_store_can_disagree :
  (@reachable RefJSON.json opened_unsaved
   /\ @addItem RefJSON.json 1 "Ship v2" opened_unsaved = Ok tt added_unsaved
   /\ persisted 1 added_unsaved = None
   /\ ~ @consistent RefJSON.json added_unsaved)
  /\ (@reachable RefJSON.json dragging
      /\ mode (localStorage dragging) = Available
      /\ @editItem RefJSON.json 0 0 "Edited" dragging = Ok tt edited_while_dragged
      /\ rendered 0 edited_while_dragged = Some ["Edited"; "Sit back and relax"]
      /\ column_array 0 edited_while_dragged
         = Some [Some (JStr "Release the course"); Some (JStr "Sit back and relax")]
      /\ ~ @consistent RefJSON.json edited_while_dragged).
Proof.
  assert (P : persisted 1 added_unsaved = None) by (vm_compute; reflexivity).
  assert (Q : rendered 0 edited_while_dragged = Some ["Edited"; "Sit back and relax"])
    by (vm_compute; reflexivity).
  assert (Q' : column_array 0 edited_while_dragged
               = Some [Some (JStr "Release the course"); Some (JStr "Sit back and relax")])
    by (vm_compute; reflexivity).
  split.
  - split; [apply reachable_opened_unsaved|]. split; [vm_compute; reflexivity|].
    split; [exact P|].
    intros C. destruct (C 1 ltac:(lia)) as (a & _ & _ & Hp).
    rewrite P in Hp. discriminate Hp.
  - split; [apply reachable_dragging|]. split; [reflexivity|].
    split; [vm_compute; reflexivity|]. split; [exact Q|]. split; [exact Q'|].
    intros C. destruct (C 0 ltac:(lia)) as (a & Ha & Hr & _).
    rewrite Q' in Ha. injection Ha as <-. rewrite Q in Hr. discriminate Hr.
Qed.

Lemma operations_leave_page_and_store_consistent_witness :
  exists s',
    @perform RefJSON.json (OpAdd 1 "Ship v2") opened = Ok tt s'
    /\ @consistent RefJSON.json s'.
Proof.
  eexists. split; [vm_compute; reflexivity|].
  apply (@operations_leave_page_and_store_consistent RefJSON.json opened
           (OpAdd 1 "Ship v2")).
  - apply reachable_opened.
  - reflexivity.
  - exact I.
  - intros [].
  - vm_compute. reflexivity.
Defined.

(** C10 fails when the Backlog value is the empty string: the key is
    there, yet every column gets its seed, Progress too, whose own value is
    the JSON text of one item. *)
Lemma blank_first_value_seeds_every_column :
  items blank_first_store !! "backlogItems" = Some ""
  /\ @loaded RefJSON.json (items blank_first_store !! "progressItems")
     = JArr [Some (JStr "Ship v2")]
  /\ exists s',
       @load RefJSON.json (initial blank_first_store) = Ok tt s'
       /\ column_array 1 s' = Some seed_progress
       /\ column_array 1 s' <> Some [Some (JStr "Ship v2")].
Proof.
  split; [vm_compute; reflexivity|]. split; [vm_compute; reflexivity|].
  eexists. split; [vm_compute; reflexivity|]. split; [vm_compute; reflexivity|].
  vm_compute. discriminate.
Qed.

Lemma load_takes_each_column_from_its_own_key_witness :
  exists s',
    @load RefJSON.json (initial corrupt_store) = Ok tt s'
    /\ column_array 0 s' = Some [] /\ column_array 1 s' = Some [].
Proof.
  destruct (@load_takes_each_column_from_its_own_key RefJSON.json
              (initial corrupt_store) "{oops" ltac:(discriminate) eq_refl
              ltac:(discriminate)) as (s' & E & Hall).
  exists s'. split; [exact E|]. split.
  - apply (Hall 0 "backlogItems" eq_refl). vm_compute. reflexivity.
  - apply (Hall 1 "progressItems" eq_refl). vm_compute. reflexivity.
Defined.

Lemma addItem_appends_trimmed_text_witness :
  exists s' a a',
    @addItem RefJSON.json 1 "  Ship v2 " opened = Ok tt s'
    /\ column_array 1 opened = Some a
    /\ column_array 1 s' = Some a'
    /\ a' = a ++ [Some (JStr (trim "  Ship v2 "))]
    /\ length a' = S (length a)
    /\ last a' = Some (Some (JStr (trim "  Ship v2 ")))
    /\ forall k, k <> 1 -> column_array k s' = column_array k opened.
Proof.
  apply (@addItem_appends_trimmed_text RefJSON.json opened 1 "  Ship v2 ").
  - apply reachable_opened.
  - lia.
  - vm_compute. lia.
Defined.

Lemma addItem_rejects_empty_and_long_text_witness :
  (exists s', @addItem RefJSON.json 2 "   " opened = Ok tt s'
              /\ (forall k, column_array k s' = column_array k opened)
              /\ alerts s' = alerts opened)
  /\ (exists s', @addItem RefJSON.json 2 long_text opened = Ok tt s'
                 /\ (forall k, column_array k s' = column_array k opened)
                 /\ alerts s'
                    = alerts opened ++ ["Task text cannot exceed 100 characters"]).
Proof.
  split.
  - apply (@addItem_rejects_empty_and_long_text RefJSON.json opened 2 "   ");
      [apply reachable_opened | lia | reflexivity].
  - apply (@addItem_rejects_empty_and_long_text RefJSON.json opened 2 long_text);
      [apply reachable_opened | lia | vm_compute; lia].
Defined.

(** C7 fails for the item that is being dragged: the first Backlog item is
    picked up, and the edit of it to the empty text is skipped, so Backlog
    keeps its two items. *)
Lemma editItem_empty_on_drag_source_removes_nothing :
  @reachable RefJSON.json dragging
  /\ column_array 0 dragging = Some seed_backlog
  /\ 0 < length seed_backlog
  /\ @editItem RefJSON.json 0 0 "" dragging = Ok tt cleared_while_dragged
  /\ column_array 0 cleared_while_dragged = Some seed_backlog
  /\ column_array 0 cleared_while_dragged <> Some (delete 0 seed_backlog).
Proof.
  assert (E : column_array 0 cleared_while_dragged = Some seed_backlog)
    by (vm_compute; reflexivity).
  split; [apply reachable_dragging|]. split; [vm_compute; reflexivity|].
  split; [simpl; lia|]. split; [vm_compute; reflexivity|]. split; [exact E|].
  rewrite E. discriminate.
Qed.

Lemma editItem_empty_removes_item_witness :
  exists s',
    @editItem RefJSON.json 0 0 "" opened = Ok tt s'
    /\ column_array 0 s' = Some (delete 0 seed_backlog)
    /\ length (delete 0 seed_backlog) = length seed_backlog - 1
    /\ forall k, k <> 0 -> column_array k s' = column_array k opened.
Proof.
  apply (@editItem_empty_removes_item RefJSON.json opened 0 0 backlog_list seed_backlog).
  - apply reachable_opened.
  - reflexivity.
  - vm_compute. reflexivity.
  - simpl. lia.
  - vm_compute. discriminate.
Defined.

Lemma editItem_skipped_on_drag_source_witness :
  exists s',
    @editItem RefJSON.json 0 0 "Edited" dragging = Ok tt s'
    /\ (forall k, column_array k s' = column_array k dragging)
    /\ (forall k, persisted k s' = persisted k dragging)
    /\ (forall k, variable k s' = variable k dragging)
    /\ listArrays s' = listArrays dragging
    /\ heap s' = heap dragging
    /\ localStorage s' = localStorage dragging.
Proof.
  apply (@editItem_skipped_on_drag_source RefJSON.json dragging 0 0 backlog_list 0
           "Edited"); vm_compute; reflexivity.
Defined.

(** ** Further properties, on the example boards *)

Lemma reachable_entered : @reachable RefJSON.json entered.
Proof.
  apply (@reachable_event RefJSON.json (DragEnter 1)); [|exact I].
  apply reachable_dragging.
Defined.

Lemma input_listener_caps_text_witness :
  exists s',
    on_input 0 typed_long = Ok tt s'
    /\ String.length (text_at 0 typed_long) = 101
    /\ String.length (text_at 0 s') <= MAX_CHARS.
Proof.
  destruct (input_listener_caps_text 0 typed_long) as (s' & E & _ & L & _).
  - vm_compute. lia.
  - exists s'. split; [exact E|]. split; [vm_compute; reflexivity|exact L].
Defined.

Lemma filterArray_returns_new_array_of_items_witness :
  exists l' s',
    filterArray (VRef 0) holey = Ok (VRef l') s'
    /\ heap s' !! 0 = Some [Some JNull; Some (JStr "Ship v2"); None]
    /\ heap s' !! l' = Some [Some (JStr "Ship v2")].
Proof.
  destruct (filterArray_returns_new_array_of_items 0
              [Some JNull; Some (JStr "Ship v2"); None] holey eq_refl)
    as (l' & s' & E & _ & H0 & H1 & _).
  exists l', s'. split; [exact E|]. split; [exact H0|exact H1].
Defined.

Lemma updateDOM_rerender_is_idempotent_witness :
  exists s1 s2,
    @updateDOM RefJSON.json opened = Ok tt s1
    /\ @updateDOM RefJSON.json s1 = Ok tt s2
    /\ rendered 0 s2 = rendered 0 s1 /\ persisted 0 s2 = persisted 0 s1.
Proof.
  destruct (@updateDOM_rerender_is_idempotent RefJSON.json opened reachable_opened)
    as (s1 & s2 & E1 & E2 & Hk).
  exists s1, s2. destruct (Hk 0) as (_ & _ & _ & Hr & Hp). auto.
Defined.

Lemma updateDOM_never_reads_the_store_again_witness :
  exists s',
    @updateDOM RefJSON.json (set_localStorage corrupt_store opened) = Ok tt s'
    /\ (forall k, column_array k s' = column_array k opened)
    /\ persisted 0 s' = Some (RefJSON.stringify (JArr seed_backlog)).
Proof.
  destruct (@updateDOM_never_reads_the_store_again RefJSON.json opened corrupt_store
              reachable_opened) as (s' & E & Hc & Hp).
  exists s'. split; [exact E|]. split; [exact Hc|].
  apply (Hp eq_refl 0 seed_backlog). vm_compute. reflexivity.
Defined.


Lemma updateItem_without_element_witness :
  @updateItem RefJSON.json 5 0 opened = Ok tt opened
  /\ exists el, draggedItem cleared_and_dropped = Some el
       /\ @updateItem RefJSON.json 5 0 cleared_and_dropped
          = Throw TypeError cleared_and_dropped.
Proof.
  split.
  - rewrite (@updateItem_without_element RefJSON.json opened 5 0) by reflexivity.
    reflexivity.
  - exists 0. split; [vm_compute; reflexivity|].
    rewrite (@updateItem_without_element RefJSON.json cleared_and_dropped 5 0)
      by (vm_compute; reflexivity).
    reflexivity.
Defined.

Lemma drop_leaves_no_drag_source_on_page_witness :
  exists s',
    @drop RefJSON.json entered = Ok tt s'
    /\ draggedItem s' = Some 0
    /\ forall c i u el t,
         listColumns !! c = Some u -> children u s' !! i = Some el ->
         ~ skipped (OpEdit c i t) s'.
Proof.
  exists (state_of (@drop RefJSON.json entered)).
  assert (E : @drop RefJSON.json entered = Ok tt (state_of (@drop RefJSON.json entered)))
    by (vm_compute; reflexivity).
  destruct (@drop_leaves_no_drag_source_on_page RefJSON.json entered _
              reachable_entered E) as (Hd & _ & _ & Hs).
  split; [exact E|]. split; [rewrite Hd; vm_compute; reflexivity|exact Hs].
Defined.

Lemma drop_without_drag_throws_witness :
  @drop RefJSON.json opened = Throw TypeError opened.
Proof.
  apply (@drop_without_drag_throws RefJSON.json opened). left. reflexivity.
Defined.

Lemma focusout_edits_the_item_at_its_position_witness :
  children progress_list added !! 2 = Some 11
  /\ @retype RefJSON.json 11 "Ship v3" added
     = @editItem RefJSON.json 1 2 "Ship v3" added.
Proof.
  split; [vm_compute; reflexivity|].
  apply (@focusout_edits_the_item_at_its_position RefJSON.json opened added
           reachable_opened) with (u := progress_list).
  - left. exists 1, "Ship v2". vm_compute. reflexivity.
  - reflexivity.
  - vm_compute. reflexivity.
Defined.

Lemma focusout_index_after_removal_witness :
  children backlog_list first_removed !! 0 = Some 7
  /\ @retype RefJSON.json 7 "" first_removed = Ok tt (retyped 7 "" first_removed).
Proof.
  split; [vm_compute; reflexivity|].
  destruct (@focusout_index_after_removal RefJSON.json opened 0 0 backlog_list
              seed_backlog first_removed) with (j := 0) (el := 7) (x := "")
    as (_ & _ & Hlast).
  - apply reachable_opened.
  - reflexivity.
  - vm_compute. reflexivity.
  - simpl. lia.
  - vm_compute. discriminate.
  - vm_compute. reflexivity.
  - vm_compute. reflexivity.
  - apply Hlast; [lia|reflexivity|vm_compute; reflexivity].
Defined.

Lemma page_load_throws_on_stored_non_array_witness :
  exists s',
    @updateDOM RefJSON.json (initial non_array_store) = Throw TypeError s'
    /\ updatedOnLoad s' = false /\ localStorage s' = non_array_store.
Proof.
  apply (@page_load_throws_on_stored_non_array RefJSON.json non_array_store 0
           "backlogItems" "7" (JNum "7")).
  - discriminate.
  - vm_compute. reflexivity.
  - reflexivity.
  - vm_compute. reflexivity.
  - vm_compute. reflexivity.
  - reflexivity.
  - discriminate.
Defined.

Lemma addItem_empties_the_input_box_witness :
  exists s',
    @addItem RefJSON.json 1 "Ship v2" opened = Ok tt s'
    /\ addItems s' !! 1 = Some ""
    /\ forall k, k <> 1 -> addItems s' !! k = addItems opened !! k.
Proof.
  apply (@addItem_empties_the_input_box RefJSON.json opened 1 "Ship v2");
    [apply reachable_opened|lia].
Defined.

Lemma listArrays_are_the_column_arrays_witness :
  listArrays added_unsaved
  = [backlogListArray added_unsaved; progressListArray added_unsaved;
     completeListArray added_unsaved; onHoldListArray added_unsaved]
  /\ exists l a,
       listArrays added_unsaved !! 1 = Some (VRef l)
       /\ variable 1 added_unsaved = Some (VRef l)
       /\ heap added_unsaved !! l = Some a /\ column_array 1 added_unsaved = Some a.
Proof.
  destruct (@listArrays_are_the_column_arrays RefJSON.json added_unsaved
              reachable_added_unsaved) as (E & Hk & _).
  split; [exact E|]. apply (Hk 1). lia.
Defined.

Lemma page_element_is_in_one_list_witness :
  children progress_list opened !! 1 = Some 3
  /\ 1 = 1 /\ 1 = 1 /\ 3 < length (nodes opened).
Proof.
  split; [vm_compute; reflexivity|].
  apply (@page_element_is_in_one_list RefJSON.json opened 1 1 progress_list
           progress_list 1 1 3 reachable_opened);
    first [reflexivity | vm_compute; reflexivity].
Defined.

Lemma addItem_then_removal_restores_the_board_witness :
  exists s1 s2,
    @addItem RefJSON.json 1 "Ship v2" opened = Ok tt s1
    /\ @editItem RefJSON.json 1 2 "" s1 = Ok tt s2
    /\ (forall k, column_array k s2 = column_array k opened)
    /\ (forall k, persisted k s2 = persisted k opened).
Proof.
  destruct (@addItem_then_removal_restores_the_board RefJSON.json opened 1 "Ship v2"
              seed_progress) as (s1 & s2 & E1 & E2 & Hc & Hp).
  - apply reachable_opened.
  - vm_compute. reflexivity.
  - vm_compute. lia.
  - exists s1, s2. split; [exact E1|]. split; [exact E2|]. split; [exact Hc|].
    apply Hp. reflexivity.
Defined.

Lemma moveItem_there_and_back_witness :
  exists s1 el1 s2,
    @moveItem RefJSON.json 0 1 1 opened = Ok tt s1
    /\ children progress_list s1 !! 2 = Some el1
    /\ @moveItem RefJSON.json 1 0 el1 s1 = Ok tt s2
    /\ column_array 0 s2 = Some seed_backlog
    /\ column_array 1 s2 = Some seed_progress.
Proof.
  destruct (@moveItem_there_and_back RefJSON.json opened 0 1 backlog_list
              progress_list 1 1) as (s1 & el1 & s2 & E1 & H1 & E2 & Hk).
  - apply reachable_opened.
  - lia.
  - reflexivity.
  - reflexivity.
  - vm_compute. reflexivity.
  - vm_compute. reflexivity.
  - exists s1, el1, s2. split; [exact E1|]. split; [exact H1|]. split; [exact E2|].
    split.
    + destruct (Hk 0 backlog_list eq_refl) as [Hc _]. rewrite Hc.
      vm_compute. reflexivity.
    + destruct (Hk 1 progress_list eq_refl) as [Hc _]. rewrite Hc.
      vm_compute. reflexivity.
Defined.

Lemma legacy_getSavedColumns_agrees_on_good_data_witness :
  @Legacy.getSavedColumns RefJSON.json reopened
  = @getSavedColumns RefJSON.json reopened.
Proof.
  apply (@legacy_getSavedColumns_agrees_on_good_data RefJSON.json reopened).
  - vm_compute. discriminate.
  - intros _ k name Hk.
    destruct k as [|[|[|[|]]]]; try discriminate Hk; injection Hk as <-.
    + exists (JArr seed_backlog). split; vm_compute; reflexivity.
    + exists (JArr seed_progress). split; vm_compute; reflexivity.
    + exists (JArr seed_complete). split; vm_compute; reflexivity.
    + exists (JArr seed_onHold). split; vm_compute; reflexivity.
Defined.

Lemma legacy_getSavedColumns_throws_witness :
  (exists s', @Legacy.getSavedColumns RefJSON.json (initial corrupt_store)
              = Throw SyntaxError s')
  /\ exists s', @getSavedColumns RefJSON.json (initial corrupt_store) = Ok tt s'.
Proof.
  split.
  - apply (proj2 (@legacy_getSavedColumns_throws RefJSON.json (initial corrupt_store)))
      with (k := 0) (name := "backlogItems").
    + vm_compute. discriminate.
    + vm_compute. reflexivity.
    + reflexivity.
    + vm_compute. reflexivity.
  - eexists. vm_compute. reflexivity.
Defined.

Lemma legacy_updateSavedColumns_agrees_or_throws_witness :
  @Legacy.updateSavedColumns RefJSON.json opened
  = @updateSavedColumns RefJSON.json opened
  /\ exists s', @Legacy.updateSavedColumns RefJSON.json opened_unsaved
                = Throw DOMException s'.
Proof.
  split.
  - apply (proj1 (@legacy_updateSavedColumns_agrees_or_throws RefJSON.json opened)).
    vm_compute. reflexivity.
  - eexists.
    apply (proj2 (@legacy_updateSavedColumns_agrees_or_throws RefJSON.json
                    opened_unsaved)).
    vm_compute. discriminate.
Defined.

End Run.
